(** * frontend-llm: the upload tracker, the configuration panel, the
      application configuration and the colour themes, embedded from the
      TypeScript sources

    Sources embedded here:
    - [src/components/FileUploader.tsx]: [normalizeApiStatus], the
      [processes] state initialiser, the persistence effect,
      [validateConfig], [handleSubmit], [handleStatusTransition],
      [handleRemoveProcess], [handleClearProcesses], [pollStatuses], the
      polling effect, the separators field and the progress bar of the
      rendered list;
    - [src/components/ConfigurationPanel.tsx]: [normalizeCollectionNames],
      [fetchCollections], the selection effect, the two theme effects,
      [hasChanges] and [handleSave];
    - [src/config/appConfig.ts]: [APP_CONFIG], the module-load seeding, the
      setters and [createRequestBody];
    - [src/styles/themeManager.ts]: [THEMES], [hexToRgb], [applyTheme] and
      [updateThemeMetaColor].

    JavaScript values are modelled by an inductive type, exceptions by an
    explicit completion type, the [updates] record of a polling tick by a
    finite map keyed by the processing id, [localStorage] and the custom
    properties of the page by finite maps keyed by strings, and React's
    state and effects by explicit state passing. *)

From Stdlib Require Import QArith Qabs Qround Ascii NArith.
From stdpp Require Import gmap strings list fin_maps.

Set Warnings "-register-all".
Local Open Scope string_scope.
Local Open Scope list_scope.

(** ** Numbers *)

(** A JavaScript number is NaN, an infinity or a finite value.  The finite
    values are taken in [Q], which contains every binary64 value.  The code
    embedded below only compares numbers, takes minima and hands them on; it
    does no arithmetic, so no rounding is involved.  The sign of zero is not
    kept: none of the embedded operations observes it. *)
Inductive number :=
| NaN
| Infinity (negative : bool)
| Finite (q : Q).

Definition num (z : Z) : number := Finite (inject_Z z).

(** [Number.isFinite] *)
Definition Number_isFinite (n : number) : bool :=
  match n with Finite _ => true | _ => false end.

(** ToBoolean on a number: NaN and zero are falsy. *)
Definition number_truthy (n : number) : bool :=
  match n with
  | NaN => false
  | Infinity _ => true
  | Finite q => negb (Qeq_bool q 0)
  end.

(** [a < b], false when either side is NaN. *)
Definition number_lt (a b : number) : bool :=
  match a, b with
  | NaN, _ | _, NaN => false
  | Infinity true, Infinity true => false
  | Infinity true, _ => true
  | _, Infinity true => false
  | Infinity false, _ => false
  | _, Infinity false => true
  | Finite x, Finite y => negb (Qle_bool y x)
  end.

(** [a >= b] is [!(a < b)] unless a NaN is involved, where it is false. *)
Definition number_ge (a b : number) : bool :=
  match a, b with
  | NaN, _ | _, NaN => false
  | _, _ => negb (number_lt a b)
  end.

Definition number_gt (a b : number) : bool := number_lt b a.

(** [Math.min] of two arguments: NaN if either is NaN, else the smaller. *)
Definition Math_min (a b : number) : number :=
  match a, b with
  | NaN, _ | _, NaN => NaN
  | _, _ => if number_lt b a then b else a
  end.

(** [n || 0] on numbers. *)
Definition number_or_zero (n : number) : number :=
  if number_truthy n then n else num 0.

(** ** Strings *)

(** A string is a sequence of code units; [ascii] covers the code units
    below 256.  [toLowerCase] maps [A-Z] to [a-z]; on the other code units
    of this range the real conversion yields no ASCII letter, so equality
    with an ASCII keyword is decided the same way. *)
Definition is_upper (a : ascii) : bool :=
  let n := N_of_ascii a in ((65 <=? n) && (n <=? 90))%N.

Definition lower_char (a : ascii) : ascii :=
  if is_upper a then ascii_of_N (N_of_ascii a + 32) else a.

Fixpoint toLowerCase (s : string) : string :=
  match s with
  | EmptyString => EmptyString
  | String a r => String (lower_char a) (toLowerCase r)
  end.

(** WhiteSpace and LineTerminator code units below 256: TAB, LF, VT, FF, CR,
    SP and NBSP. *)
Definition is_js_space (a : ascii) : bool :=
  let n := N_of_ascii a in
  (((9 <=? n) && (n <=? 13)) || (n =? 32) || (n =? 160))%N.

Fixpoint trimStart (s : string) : string :=
  match s with
  | EmptyString => EmptyString
  | String a r => if is_js_space a then trimStart r else s
  end.

Fixpoint trimEnd (s : string) : string :=
  match s with
  | EmptyString => EmptyString
  | String a r =>
      match trimEnd r with
      | EmptyString => if is_js_space a then EmptyString else String a EmptyString
      | r' => String a r'
      end
  end.

(** [String.prototype.trim] *)
Definition trim (s : string) : string := trimEnd (trimStart s).

Definition string_eqb (a b : string) : bool := bool_decide (a = b).

(** ** Values *)

(** The values [JSON.parse] and [Response.json] can yield, and [undefined]. *)
Inductive value :=
| VUndefined
| VNull
| VBool (b : bool)
| VNum (n : number)
| VStr (s : string)
| VArr (items : list value)
| VObj (props : list (string * value)).

(** Abrupt completions raised by the embedded code.  Two of them are
    TypeErrors: [TypeError] is raised by a call or a property read on a
    value that has no such member, [TypeError_conversion] by [String] and
    [Number] on an object that has no primitive form. *)
Inductive exn := TypeError | SyntaxError | TypeError_conversion.

Inductive completion (A : Type) :=
| Normal (a : A)
| Throw (e : exn).
Arguments Normal {A} a.
Arguments Throw {A} e.

#[global] Instance completion_ret : MRet completion := fun _ a => Normal a.
#[global] Instance completion_bind : MBind completion := fun _ _ k c =>
  match c with
  | Normal a => k a
  | Throw e => Throw e
  end.

(** ToBoolean *)
Definition truthy (v : value) : bool :=
  match v with
  | VUndefined | VNull => false
  | VBool b => b
  | VNum n => number_truthy n
  | VStr s => negb (string_eqb s "")
  | VArr _ | VObj _ => true
  end.

(** [a ?? b] *)
Definition nullish (v : value) : bool :=
  match v with VUndefined | VNull => true | _ => false end.

Definition coalesce (a b : value) : value := if nullish a then b else a.

(** [a || b] *)
Definition or_else (a b : value) : value := if truthy a then a else b.

Fixpoint assoc (k : string) (props : list (string * value)) : value :=
  match props with
  | [] => VUndefined
  | (k', v) :: r => if string_eqb k k' then v else assoc k r
  end.

(** [Object.hasOwn(v, k)] on the properties of an object. *)
Definition has_own (k : string) (props : list (string * value)) : bool :=
  existsb (λ prop, string_eqb k prop.1) props.

(** [v?.k] for the property names read by the embedded code ([data],
    [progress], [percentage], [stage], [message], [status], [success],
    [error], [collections], [name] and the fields of a stored process):
    none of them is a property of a string, number, boolean or array, so
    only objects answer with something else than [undefined]. *)
Definition get_opt (v : value) (k : string) : value :=
  match v with
  | VObj props => assoc k props
  | _ => VUndefined
  end.

(** [v.k]: as [v?.k], but reading a property of [null] or [undefined]
    throws. *)
Definition get (v : value) (k : string) : completion value :=
  match v with
  | VUndefined | VNull => Throw TypeError
  | _ => Normal (get_opt v k)
  end.

Definition Array_isArray (v : value) : bool :=
  match v with VArr _ => true | _ => false end.

(** ** Conversions between strings and numbers *)

(** [Number(string)] and the string form of a number belong to the
    runtime.  The embedding takes them as an interface, so that every
    theorem below holds for whatever the runtime computes. *)
Class Runtime := {
  StringToNumber : string → number;
  NumberToString : number → string
}.

Section Conversions.
Context `{Runtime}.

Fixpoint join (sep : string) (l : list string) : string :=
  match l with
  | [] => ""
  | [x] => x
  | x :: r => x ++ sep ++ join sep r
  end.

(** [String(v)].  An object that came out of [JSON.parse] inherits
    [toString] and [valueOf] from [Object.prototype] unless it has an own
    property of that name, which is then no function: with an own
    [toString] neither method gives a primitive and the conversion throws
    (an own [valueOf] alone changes nothing, the inherited one answering
    with the object itself).  An array is joined with commas, [null] and
    [undefined] giving the empty text and the other elements being
    converted in turn. *)
Fixpoint ToString (v : value) : completion string :=
  match v with
  | VUndefined => Normal "undefined"
  | VNull => Normal "null"
  | VBool true => Normal "true"
  | VBool false => Normal "false"
  | VNum n => Normal (NumberToString n)
  | VStr s => Normal s
  | VArr items =>
      parts ← (fix each (l : list value) : completion (list string) :=
                 match l with
                 | [] => Normal []
                 | x :: r =>
                     part ← (if nullish x then Normal "" else ToString x);
                     parts ← each r;
                     mret (part :: parts)
                 end) items;
      mret (join "," parts)
  | VObj props =>
      if has_own "toString" props then Throw TypeError_conversion
      else Normal "[object Object]"
  end.

(** [Number(v)]: an object or an array is converted through its string
    form. *)
Definition ToNumber (v : value) : completion number :=
  match v with
  | VUndefined => Normal NaN
  | VNull => Normal (num 0)
  | VBool true => Normal (num 1)
  | VBool false => Normal (num 0)
  | VNum n => Normal n
  | VStr s => Normal (StringToNumber s)
  | VArr _ | VObj _ => text ← ToString v; mret (StringToNumber text)
  end.
End Conversions.

(** ** The status normaliser (FileUploader.tsx, normalizeApiStatus) *)

Inductive UploadProcessStatus := in_progress | completed | error.

#[global] Instance UploadProcessStatus_eq_dec : EqDecision UploadProcessStatus.
Proof. solve_decision. Defined.

Definition includes (l : list string) (s : string) : bool :=
  existsb (string_eqb s) l.

(** The parameter is declared [string | null | undefined], but the callers
    pass whatever the payload holds: a truthy non-string has no
    [toLowerCase], and the call throws. *)
Definition normalizeApiStatus (status : value) : completion UploadProcessStatus :=
  if negb (truthy status) then Normal in_progress
  else match status with
       | VStr s =>
           let lowered := toLowerCase s in
           if string_eqb lowered "completed" || string_eqb lowered "finished"
              || string_eqb lowered "done"
           then Normal completed
           else if includes ["error"; "failed"; "failed_with_errors"; "cancelled"] lowered
           then Normal error
           else Normal in_progress
       | _ => Throw TypeError
       end.

(** ** The process store (FileUploader.tsx) *)

(** [UploadProcess].  TypeScript's field types are erased at run time: the
    two identifiers and the URL are strings by construction ([String(...)]
    on load, the form fields on submit), the status is one of the three
    literals and the percentage a number, while [stage], [message],
    [notificationId] and [lastUpdated] hold whatever the payload or the
    stored record held. *)
Record UploadProcess := mkProcess {
  processingId : string;
  collectionName : string;
  sourceUrl : string;
  status : UploadProcessStatus;
  percentage : number;
  stage : value;
  message : value;
  notificationId : value;
  lastUpdated : value
}.

Definition status_name (s : UploadProcessStatus) : string :=
  match s with
  | in_progress => "in_progress"
  | completed => "completed"
  | error => "error"
  end.

(** The object a process is at run time, with its keys in creation order. *)
Definition process_object (p : UploadProcess) : value :=
  VObj [("processingId", VStr (processingId p));
        ("collectionName", VStr (collectionName p));
        ("sourceUrl", VStr (sourceUrl p));
        ("status", VStr (status_name (status p)));
        ("percentage", VNum (percentage p));
        ("stage", stage p);
        ("message", message p);
        ("notificationId", notificationId p);
        ("lastUpdated", lastUpdated p)].

(** What [JSON.parse (JSON.stringify v)] yields: a property whose value is
    [undefined] is left out, [undefined] inside an array and the numbers
    that are not finite become [null]. *)
Fixpoint json_image (v : value) : value :=
  match v with
  | VUndefined => VNull
  | VNum n => if Number_isFinite n then VNum n else VNull
  | VArr items => VArr (map json_image items)
  | VObj props =>
      VObj ((fix image_props (l : list (string * value)) : list (string * value) :=
               match l with
               | [] => []
               | (k, VUndefined) :: r => image_props r
               | (k, x) :: r => (k, json_image x) :: image_props r
               end) props)
  | _ => v
  end.

(** The item kept under the key [url_uploader_processes], seen through
    [getItem] and [JSON.parse]: no item, the empty text, a text on which
    [JSON.parse] throws, or a text that parses to a value. *)
Inductive stored :=
| NoItem
| EmptyText
| Unparseable
| Json (parsed : value).

(** The persistence effect: an empty list removes the key, any other list
    is stored as its JSON text. *)
Definition persist (processes : list UploadProcess) : stored :=
  if (length processes =? 0)%nat then NoItem
  else Json (json_image (VArr (map process_object processes))).

Fixpoint map_throwing {A B} (f : A → completion B) (l : list A) : completion (list B) :=
  match l with
  | [] => Normal []
  | x :: r => y ← f x; ys ← map_throwing f r; mret (y :: ys)
  end.

(** An id that is the empty string is falsy. *)
Definition has_id (p : UploadProcess) : bool := negb (string_eqb (processingId p) "").

Section Store.
Context `{Runtime}.

(** [now] stands for [new Date().toISOString()]. *)
Variable now : string.

(** The callback of [parsed.map] in the state initialiser. *)
Definition load_item (item : value) : completion UploadProcess :=
  pid ← get item "processingId";
  id_text ← ToString pid;
  cname ← get item "collectionName";
  collection_text ← ToString (coalesce cname (VStr ""));
  url ← get item "sourceUrl";
  url_text ← ToString (coalesce url (VStr ""));
  st_raw ← get item "status";
  st ← normalizeApiStatus st_raw;
  pct ← get item "percentage";
  parsedPercentage ← ToNumber pct;
  stg ← get item "stage";
  msg ← get item "message";
  nid ← get item "notificationId";
  upd ← get item "lastUpdated";
  mret {| processingId := id_text;
          collectionName := collection_text;
          sourceUrl := url_text;
          status := st;
          percentage :=
            if Number_isFinite parsedPercentage then parsedPercentage else num 0;
          stage := coalesce stg VNull;
          message := coalesce msg VNull;
          notificationId := coalesce nid VUndefined;
          lastUpdated := coalesce upd (VStr now) |}.

(** The body of the [try] block. *)
Definition load_try (s : stored) : completion (list UploadProcess) :=
  match s with
  | NoItem | EmptyText => Normal []
  | Unparseable => Throw SyntaxError
  | Json parsed =>
      match parsed with
      | VArr items =>
          loaded ← map_throwing load_item items;
          mret (filter (λ item, has_id item = true) loaded)
      | _ => Normal []
      end
  end.

(** The state initialiser of [processes], in the browser (without a
    [window] it answers with the empty list at once): whatever is thrown
    is caught and answered with the empty list. *)
Definition load (s : stored) : list UploadProcess :=
  match load_try s with
  | Normal l => l
  | Throw _ => []
  end.
End Store.

(** [handleSubmit]: the updater passed to [setProcesses]. *)
Definition add (newProcess : UploadProcess) (prev : list UploadProcess) : list UploadProcess :=
  let filtered := filter (λ item, processingId item ≠ processingId newProcess) prev in
  newProcess :: filtered.

(** [handleRemoveProcess]: the updater passed to [setProcesses]. *)
Definition remove (processId : string) (prev : list UploadProcess) : list UploadProcess :=
  filter (λ item, processingId item ≠ processId) prev.

(** [handleClearProcesses] *)
Definition clear (prev : list UploadProcess) : list UploadProcess := [].

Definition is_active (p : UploadProcess) : bool :=
  bool_decide (status p = in_progress).

(** The filter at the head of [pollStatuses]. *)
Definition listActive (l : list UploadProcess) : list UploadProcess :=
  filter (λ item, status item = in_progress) l.

(** [hasActiveProcesses] *)
Definition hasActiveProcesses (l : list UploadProcess) : bool :=
  existsb is_active l.

(** ** Notifications raised by the tracker *)

Inductive notification_type :=
| processing | success | failure | warning | info.

(** The object handed to [addNotification] or [updateNotification]. *)
Record notification := mkNotification {
  n_type : notification_type;
  n_title : string;
  n_message : value;
  n_processingId : option string;
  n_autoClose : bool;
  n_duration : option Z
}.

(** What a handler does besides updating the store, in order. *)
Inductive effect :=
| AddNotification (n : notification)
| UpdateNotification (id : value) (n : notification)
| RemoveArtifacts (processId : string).

Definition dquote : string := String (ascii_of_N 34) EmptyString.

(** [handleStatusTransition] *)
Definition handleStatusTransition (process : UploadProcess)
    (nextStatus : UploadProcessStatus) (payload_message : value) : list effect :=
  if negb (truthy (notificationId process)) then []
  else
    (if bool_decide (nextStatus = completed) then
       [UpdateNotification (notificationId process)
          {| n_type := success;
             n_title := "Procesamiento Completado";
             n_message :=
               or_else payload_message
                 (VStr ("Documentos cargados exitosamente en la colección "
                        ++ dquote ++ collectionName process ++ dquote));
             n_processingId := None;
             n_autoClose := true;
             n_duration := Some 10000%Z |};
        RemoveArtifacts (processingId process)]
     else [])
    ++
    (if bool_decide (nextStatus = error) then
       [UpdateNotification (notificationId process)
          {| n_type := failure;
             n_title := "Error en Procesamiento";
             n_message :=
               or_else payload_message
                 (VStr "Ocurrió un problema al cargar los documentos. Revisa los detalles e inténtalo nuevamente.");
             n_processingId := None;
             n_autoClose := false;
             n_duration := None |};
        RemoveArtifacts (processingId process)]
     else []).

(** ** One polling tick (FileUploader.tsx, pollStatuses) *)

(** An entry of [updates]: the three object literals written by
    [pollStatuses] all carry [percentage], [stage], [message] and
    [lastUpdated]; only the terminal ones carry [status]. *)
Record Update := mkUpdate {
  u_status : option UploadProcessStatus;
  u_percentage : number;
  u_stage : value;
  u_message : value;
  u_lastUpdated : value
}.

(** [{...item, ...update}] *)
Definition merge (item : UploadProcess) (u : Update) : UploadProcess :=
  {| processingId := processingId item;
     collectionName := collectionName item;
     sourceUrl := sourceUrl item;
     status := default (status item) (u_status u);
     percentage := u_percentage u;
     stage := u_stage u;
     message := u_message u;
     notificationId := notificationId item;
     lastUpdated := u_lastUpdated u |}.

(** The outcome of [fetch] followed by [res.json()]: a rejection with its
    error message, or the parsed body. *)
Inductive fetch_result :=
| FetchFailed (error_message : string)
| FetchJson (data : value).

(** The messages of what the [try] block of a request can throw, as V8
    words them. *)
Definition exn_message (e : exn) : string :=
  match e with
  | TypeError => "status.toLowerCase is not a function"
  | SyntaxError => "Unexpected token"
  | TypeError_conversion => "Cannot convert object to primitive value"
  end.

Definition is_false (v : value) : bool :=
  match v with VBool false => true | _ => false end.

Definition is_true (v : value) : bool :=
  match v with VBool true => true | _ => false end.

Section Polling.
Context `{Runtime}.
Variable now : string.

(** The [try] block of the per-process callback. *)
Definition poll_response (process : UploadProcess) (data : value)
    : completion (Update * list effect) :=
  converted ←
    ToNumber (get_opt (get_opt (get_opt data "data") "progress") "percentage");
  let percentage := number_or_zero converted in
  let stage :=
    coalesce (coalesce (get_opt (get_opt (get_opt data "data") "progress") "stage")
                       (stage process)) VNull in
  let message :=
    coalesce (coalesce (get_opt data "message") (message process)) VNull in
  statusFromApi ← normalizeApiStatus (get_opt data "status");
  if is_false (get_opt data "success") || bool_decide (statusFromApi = error) then
    mret ({| u_status := Some error;
             u_percentage := percentage;
             u_stage := stage;
             u_message :=
               or_else (or_else (get_opt data "error") (get_opt data "message")) message;
             u_lastUpdated := VStr now |},
          handleStatusTransition process error
            (or_else (get_opt data "error") (get_opt data "message")))
  else if bool_decide (statusFromApi = completed)
          || (is_true (get_opt data "success") && number_ge percentage (num 100)) then
    mret ({| u_status := Some completed;
             u_percentage := num 100;
             u_stage := stage;
             u_message := message;
             u_lastUpdated := VStr now |},
          handleStatusTransition process completed message)
  else
    mret ({| u_status := None;
             u_percentage := percentage;
             u_stage := stage;
             u_message := message;
             u_lastUpdated := VStr now |},
          []).

(** The [catch] block of the per-process callback. *)
Definition poll_catch (process : UploadProcess) (error_message : string)
    : Update * list effect :=
  let warningMessage :=
    ("No se pudo verificar el estado del procesamiento: " ++ error_message)%string in
  ({| u_status := None;
      u_percentage := percentage process;
      u_stage := stage process;
      u_message := VStr warningMessage;
      u_lastUpdated := VStr now |},
   [AddNotification
      {| n_type := warning;
         n_title := "Error de Red";
         n_message := VStr warningMessage;
         n_processingId := Some (processingId process);
         n_autoClose := false;
         n_duration := None |}]).

Definition poll_one (process : UploadProcess) (r : fetch_result)
    : Update * list effect :=
  match r with
  | FetchFailed msg => poll_catch process msg
  | FetchJson data =>
      match poll_response process data with
      | Normal result => result
      | Throw e => poll_catch process (exn_message e)
      end
  end.

(** [Promise.all] over the active processes: the requests are keyed by
    the processing id, the entries of [updates] are written as the
    requests settle, taken here in list order.

    [updates] is a plain object.  The assignment under an id writes an own
    property, except under the id [__proto__], where the setter inherited
    from [Object.prototype] installs the entry as the prototype of
    [updates] and no own property is made.  The finite map holds what
    [updates[id]] answers with for the ids that were assigned: the own
    properties and, under [__proto__], the prototype.

    Through a prototype so installed, [updates[id]] also answers, for an
    id that is the name of a field of an entry ([status], [percentage],
    [stage], [message] or [lastUpdated]), with the value of that field,
    and for an id that names a member of [Object.prototype] with that
    member.  Spreading a function, a number, a string or an array sets no
    field of a process (a string and an array spread index properties
    only), and [stage] and [message] are declared [string | null]: the
    merge leaves a process with such an id as it is. *)
Definition collect (server : string → fetch_result) (active : list UploadProcess)
    : gmap string Update * list effect :=
  foldl (λ acc process,
           let r := poll_one process (server (processingId process)) in
           (<[processingId process := r.1]> acc.1, acc.2 ++ r.2))
        (∅, []) active.

(** The updater passed to [setProcesses] at the end of the tick. *)
Definition apply_updates (updates : gmap string Update) (prev : list UploadProcess)
    : list UploadProcess :=
  map (λ item, match updates !! processingId item with
               | Some u => merge item u
               | None => item
               end) prev.

(** A whole tick over a store on which nothing else happens meanwhile.
    [Object.keys(updates)] lists the own properties, so the entry kept as
    prototype does not count. *)
Definition pollStatuses (server : string → fetch_result)
    (store : list UploadProcess) : list UploadProcess * list effect :=
  let activeProcesses := listActive store in
  if (length activeProcesses =? 0)%nat then (store, [])
  else
    let r := collect server activeProcesses in
    (if (0 <? size (delete "__proto__" r.1))%nat then apply_updates r.1 store
     else store,
     r.2).
End Polling.

(** ** The polling effect (FileUploader.tsx, useEffect on hasActiveProcesses) *)

(** The mounted component as far as the poller is concerned: the
    [processes] state, [pollingIntervalRef.current], the intervals alive
    in the runtime (what [setInterval] created and [clearInterval] has not
    yet cleared), the source of fresh interval handles (positive, as the
    handles of [setInterval] are), and the value of [hasActiveProcesses]
    at the last run of the effect. *)
Record component := mkComponent {
  processes : list UploadProcess;
  pollingIntervalRef : option positive;
  timers : list positive;
  next_timer : positive;
  last_dep : option bool
}.

(** [if (ref.current) { clearInterval(ref.current); ref.current = null }] *)
Definition clear_polling (c : component) : component :=
  match pollingIntervalRef c with
  | Some id =>
      {| processes := processes c;
         pollingIntervalRef := None;
         timers := filter (λ t, t ≠ id) (timers c);
         next_timer := next_timer c;
         last_dep := last_dep c |}
  | None => c
  end.

(** The body of the effect.  The call [pollStatuses()] it makes and the
    ticks of the interval reach the store later, through [setProcesses]. *)
Definition effect_body (c : component) : component :=
  if negb (hasActiveProcesses (processes c)) then
    let c' := clear_polling c in
    {| processes := processes c';
       pollingIntervalRef := pollingIntervalRef c';
       timers := timers c';
       next_timer := next_timer c';
       last_dep := Some false |}
  else
    {| processes := processes c;
       pollingIntervalRef := Some (next_timer c);
       timers := next_timer c :: timers c;
       next_timer := Pos.succ (next_timer c);
       last_dep := Some true |}.

(** The cleanup returned by the effect: only the run that started the
    interval returns one. *)
Definition effect_cleanup (c : component) : component :=
  match last_dep c with
  | Some true => clear_polling c
  | _ => c
  end.

(** React runs the effect after a render when it has not run yet or when a
    dependency changed, the cleanup of the previous run first.
    [baseUrl_changed] tells whether the other dependency changed. *)
Definition commit (baseUrl_changed : bool) (c : component) : component :=
  let has := hasActiveProcesses (processes c) in
  if negb baseUrl_changed && bool_decide (last_dep c = Some has) then c
  else effect_body (effect_cleanup c).

Definition mount (initial : list UploadProcess) : component :=
  commit false
    {| processes := initial;
       pollingIntervalRef := None;
       timers := [];
       next_timer := 1%positive;
       last_dep := None |}.

(** What happens to a mounted component: a state update (submit, remove,
    clear or the end of a tick all go through [setProcesses]) or a new
    [baseUrl] prop, each followed by the render and its effects. *)
Inductive event :=
| SetProcesses (updater : list UploadProcess → list UploadProcess)
| NewBaseUrl.

Definition step (e : event) (c : component) : component :=
  match e with
  | SetProcesses updater =>
      commit false
        {| processes := updater (processes c);
           pollingIntervalRef := pollingIntervalRef c;
           timers := timers c;
           next_timer := next_timer c;
           last_dep := last_dep c |}
  | NewBaseUrl => commit true c
  end.

Inductive reachable : component → Prop :=
| reach_mount initial : reachable (mount initial)
| reach_step e c : reachable c → reachable (step e c).

Inductive poller_state := Idle | Polling.

(** The poller is [Polling] when an interval is alive. *)
Definition poller (c : component) : poller_state :=
  match timers c with
  | [] => Idle
  | _ => Polling
  end.

(** ** The rendered progress (FileUploader.tsx, the list of processes) *)

(** The number written into the width of the bar:
    [Math.min(process.percentage, 100)]. *)
Definition bar_percentage (p : UploadProcess) : number :=
  Math_min (percentage p) (num 100).

Definition Qabs_lt_bool (q bound : Q) : bool :=
  negb (Qle_bool bound (Qabs q)).

(** [toFixed(0)], as the number its digits denote: a finite value below
    10^21 in absolute value is rounded to the nearest integer, halves away
    from zero; the other values are printed as they are. *)
Definition toFixed0 (n : number) : number :=
  match n with
  | Finite q =>
      if Qabs_lt_bool q (inject_Z (10 ^ 21)) then
        if Qle_bool 0 q then Finite (inject_Z (Qfloor (q + (1 # 2))))
        else Finite (inject_Z (- Qfloor (- q + (1 # 2))))
      else n
  | _ => n
  end.

(** The number written in the label:
    [Math.min(process.percentage, 100).toFixed(0)]. *)
Definition label_percentage (p : UploadProcess) : number :=
  toFixed0 (Math_min (percentage p) (num 100)).

(** [0 <= n && n <= 100] *)
Definition within_0_100 (n : number) : bool :=
  number_ge n (num 0) && number_ge (num 100) n.

(** ** The collection names (ConfigurationPanel.tsx) *)

Definition name_char (a : ascii) : bool :=
  let n := N_of_ascii a in
  (((97 <=? n) && (n <=? 122)) || ((65 <=? n) && (n <=? 90))
   || ((48 <=? n) && (n <=? 57)) || (n =? 95) || (n =? 45))%N.

Fixpoint all_chars (f : ascii → bool) (s : string) : bool :=
  match s with
  | EmptyString => true
  | String a r => f a && all_chars f r
  end.

(** [COLLECTION_REGEX.test] for [/^[a-zA-Z0-9_-]+$/]. *)
Definition COLLECTION_REGEX_test (s : string) : bool :=
  negb (string_eqb s "") && all_chars name_char s.

(** The callback of [candidates.map]; [None] stands for [null]. *)
Definition entry_name (item : value) : option string :=
  match item with
  | VStr s => Some (trim s)
  | VObj _ =>
      match get_opt item "name" with
      | VStr n => Some (trim n)
      | _ => None
      end
  | _ => None
  end.

(** The predicate of the [filter]: [Boolean(item && REGEX.test(item))]. *)
Definition keep_name (item : option string) : option string :=
  match item with
  | Some s => if negb (string_eqb s "") && COLLECTION_REGEX_test s then Some s else None
  | None => None
  end.

(** A [Set] keeps its elements in insertion order, the first occurrence. *)
Definition Set_add (s : list string) (x : string) : list string :=
  if bool_decide (x ∈ s) then s else s ++ [x].

Definition Array_from_Set (items : list string) : list string :=
  foldl Set_add [] items.

Definition normalizeCollectionNames (payload : value) : list string :=
  let candidates :=
    List.find Array_isArray
      [payload;
       get_opt payload "data";
       get_opt payload "collections";
       get_opt (get_opt payload "data") "collections"] in
  match candidates with
  | Some (VArr entries) =>
      let items := omap (λ item, keep_name (entry_name item)) entries in
      Array_from_Set items
  | _ => []
  end.

(** ** The seeding of the default top-K (appConfig.ts) *)

Definition DEFAULT_TOP_K : number := num 5.

(** The block run at module load in the browser (it is skipped without a
    [window]), on the result of [getItem] ([None] for [null]) and the value
    of [APP_CONFIG.DEFAULT_TOP_K] before it. *)
Definition seed_top_k `{Runtime} (storedTopK : option string) (current : number) : number :=
  match storedTopK with
  | Some s =>
      if truthy (VStr s) then
        let parsed := StringToNumber s in
        if Number_isFinite parsed && number_gt parsed (num 0) then parsed
        else current
      else current
  | None => current
  end.

(** ** A runtime for the examples *)

(** [decimal_runtime] follows the StringNumericLiteral grammar of
    ECMAScript: surrounding white space, the empty text (zero), signed
    [Infinity], signed decimal literals with fraction and exponent, and
    unsigned [0x], [0o] and [0b] integers; anything else is NaN.  The value
    is the exact rational one, taken to an infinity or to zero beyond the
    binary64 range.  Numbers are printed as the runtime prints them when
    they are integers below 10^21 in absolute value, NaN or infinite, and
    in positional decimal notation otherwise. *)
Module DecimalRuntime.

Definition digit_of (base : N) (a : ascii) : option N :=
  let n := N_of_ascii a in
  let d :=
    if ((48 <=? n) && (n <=? 57))%N then Some (n - 48)%N
    else if ((97 <=? n) && (n <=? 122))%N then Some (n - 87)%N
    else if ((65 <=? n) && (n <=? 90))%N then Some (n - 55)%N
    else None in
  match d with
  | Some v => if (v <? base)%N then Some v else None
  | None => None
  end.

(** Reads the leading digits: their value, their count and the rest. *)
Fixpoint digits (base : N) (s : string) (acc : N) (count : nat) : N * nat * string :=
  match s with
  | EmptyString => (acc, count, s)
  | String a r =>
      match digit_of base a with
      | Some d => digits base r (acc * base + d)%N (S count)
      | None => (acc, count, s)
      end
  end.

Definition pow10 (e : Z) : Q :=
  if (0 <=? e)%Z then inject_Z (10 ^ e) else 1 / inject_Z (10 ^ (- e)).

Definition max_binary64 : Q := inject_Z (2 ^ 1024 - 2 ^ 970).
Definition min_binary64 : Q := 1 / inject_Z (2 ^ 1075).

Definition to_range (q : Q) : number :=
  if Qle_bool max_binary64 (Qabs q) then Infinity (negb (Qle_bool 0 q))
  else if Qle_bool (Qabs q) min_binary64 then Finite 0
  else Finite (Qred q).

Definition integer_literal (base : N) (s : string) : number :=
  match digits base s 0%N 0%nat with
  | (v, S _, EmptyString) => to_range (inject_Z (Z.of_N v))
  | _ => NaN
  end.

Definition exponent_of (s : string) : option Z :=
  match s with
  | EmptyString => Some 0%Z
  | String c r =>
      if bool_decide (c = "e"%char ∨ c = "E"%char) then
        let '(neg, r') :=
          match r with
          | String "-"%char t => (true, t)
          | String "+"%char t => (false, t)
          | _ => (false, r)
          end in
        match digits 10 r' 0%N 0%nat with
        | (v, S _, EmptyString) => Some (if neg then - Z.of_N v else Z.of_N v)%Z
        | _ => None
        end
      else None
  end.

Definition unsigned_decimal (s : string) : option Q :=
  let '(ip, n1, r1) := digits 10 s 0%N 0%nat in
  let '(fp, n2, r2) :=
    match r1 with
    | String "."%char t => digits 10 t 0%N 0%nat
    | _ => (0%N, 0%nat, r1)
    end in
  if (n1 + n2 =? 0)%nat then None
  else
    match exponent_of r2 with
    | Some e =>
        Some ((inject_Z (Z.of_N ip) + inject_Z (Z.of_N fp) * pow10 (- Z.of_nat n2))
              * pow10 e)%Q
    | None => None
    end.

Definition signed_decimal (s : string) : number :=
  let '(neg, r) :=
    match s with
    | String "-"%char t => (true, t)
    | String "+"%char t => (false, t)
    | _ => (false, s)
    end in
  if string_eqb r "Infinity" then Infinity neg
  else
    match unsigned_decimal r with
    | Some q => to_range (if neg then (- q)%Q else q)
    | None => NaN
    end.

Definition parse (s : string) : number :=
  let t := trim s in
  match t with
  | EmptyString => Finite 0
  | String "0"%char (String c r) =>
      if bool_decide (c = "x"%char ∨ c = "X"%char) then integer_literal 16 r
      else if bool_decide (c = "o"%char ∨ c = "O"%char) then integer_literal 8 r
      else if bool_decide (c = "b"%char ∨ c = "B"%char) then integer_literal 2 r
      else signed_decimal t
  | _ => signed_decimal t
  end.

Definition digit_char (d : Z) : ascii := ascii_of_N (48 + Z.to_N d).

Fixpoint natural (fuel : nat) (n : Z) (acc : string) : string :=
  match fuel with
  | O => acc
  | S fuel' =>
      let acc' := String (digit_char (n mod 10)) acc in
      if (n <? 10)%Z then acc' else natural fuel' (n / 10) acc'
  end.

Definition print_natural (n : Z) : string :=
  natural (S (Z.to_nat (Z.log2 n))) n "".

(** The digits of [r / d] after the point, for [0 <= r < d]. *)
Fixpoint fraction (fuel : nat) (r d : Z) : string :=
  match fuel with
  | O => ""
  | S fuel' =>
      if (r =? 0)%Z then ""
      else String (digit_char (10 * r / d)) (fraction fuel' ((10 * r) mod d) d)
  end.

Definition print (n : number) : string :=
  match n with
  | NaN => "NaN"
  | Infinity false => "Infinity"
  | Infinity true => "-Infinity"
  | Finite q =>
      let a := Z.abs (Qnum q) in
      let d := Z.pos (Qden q) in
      let sign := if (Qnum q <? 0)%Z then "-" else "" in
      let whole := print_natural (a / d) in
      match fraction 20 (a mod d) d with
      | EmptyString => (sign ++ whole)%string
      | f => (sign ++ whole ++ "." ++ f)%string
      end
  end.

End DecimalRuntime.

Definition decimal_runtime : Runtime :=
  {| StringToNumber := DecimalRuntime.parse;
     NumberToString := DecimalRuntime.print |}.


(** ** Vocabulary of the statements *)

(** Two code units are the same letter up to case: they are equal, or
    one is a capital letter, from A (65) to Z (90), and the other the small
    letter, 32 code units above it. *)
Definition same_letter (a b : ascii) : Prop :=
  a = b ∨
  (65 ≤ N_of_ascii a ∧ N_of_ascii a ≤ 90 ∧ N_of_ascii b = N_of_ascii a + 32)%N ∨
  (65 ≤ N_of_ascii b ∧ N_of_ascii b ≤ 90 ∧ N_of_ascii a = N_of_ascii b + 32)%N.

(** Equality of strings up to the case of their letters. *)
Fixpoint caseless (s t : string) : Prop :=
  match s, t with
  | EmptyString, EmptyString => True
  | String a r, String b r' => same_letter a b ∧ caseless r r'
  | _, _ => False
  end.

(** The fix inside [json_image], named. *)
Definition json_props : list (string * value) → list (string * value) :=
  fix image_props (l : list (string * value)) : list (string * value) :=
    match l with
    | [] => []
    | (k, VUndefined) :: r => image_props r
    | (k, x) :: r => (k, json_image x) :: image_props r
    end.

(** What reading a property of a stored object yields, from the value the
    property had before serialisation. *)
Definition json_prop (x : value) : value :=
  match x with
  | VUndefined => VUndefined
  | _ => json_image x
  end.

(** A value that JSON represents as it is: no [undefined] and no number
    that is not finite anywhere inside. *)
Fixpoint is_json (v : value) : bool :=
  match v with
  | VUndefined => false
  | VNum n => Number_isFinite n
  | VArr items => forallb is_json items
  | VObj props =>
      (fix all_props (l : list (string * value)) : bool :=
         match l with
         | [] => true
         | (_, x) :: r => is_json x && all_props r
         end) props
  | _ => true
  end.

(** A well-formed record: a non-empty id, a finite percentage, a stage and
    a message that are JSON values ([null] included), a notification id
    that is [undefined] or a JSON value other than [null], and a JSON value
    other than [null] as the time stamp. *)
Definition well_formed (p : UploadProcess) : bool :=
  has_id p
  && Number_isFinite (percentage p)
  && is_json (stage p)
  && is_json (message p)
  && (match notificationId p with
      | VUndefined => true
      | VNull => false
      | x => is_json x
      end)
  && is_json (lastUpdated p) && negb (nullish (lastUpdated p)).

(** What a process is after it went through storage. *)
Definition reloaded (now : string) (p : UploadProcess) : UploadProcess :=
  {| processingId := processingId p;
     collectionName := collectionName p;
     sourceUrl := sourceUrl p;
     status := status p;
     percentage := if Number_isFinite (percentage p) then percentage p else num 0;
     stage := coalesce (json_prop (stage p)) VNull;
     message := coalesce (json_prop (message p)) VNull;
     notificationId := coalesce (json_prop (notificationId p)) VUndefined;
     lastUpdated := coalesce (json_prop (lastUpdated p)) (VStr now) |}.

Definition is_string (v : value) : bool :=
  match v with VStr _ => true | _ => false end.

(** A value that [String] and [Number] convert: it is no object with an
    own [toString], and no array that holds one, [null] and [undefined]
    apart. *)
Fixpoint convertible (v : value) : bool :=
  match v with
  | VArr items => forallb (λ x, nullish x || convertible x) items
  | VObj props => negb (has_own "toString" props)
  | _ => true
  end.

(** A stored record on which the callback of the initialiser does not
    throw: it is neither [null] nor [undefined], its status is falsy
    (absent, [null], empty, ...) or a string, and its id, its collection,
    its URL and its percentage are convertible. *)
Definition loads_cleanly (item : value) : bool :=
  negb (nullish item)
  && (negb (truthy (get_opt item "status")) || is_string (get_opt item "status"))
  && convertible (get_opt item "processingId")
  && convertible (get_opt item "collectionName")
  && convertible (get_opt item "sourceUrl")
  && convertible (get_opt item "percentage").


(** The job of the scenario of the specification, as [handleSubmit]
    creates it. *)
Definition job_abc123 : UploadProcess :=
  {| processingId := "abc123";
     collectionName := "manuales_collection";
     sourceUrl := "https://ex.com/doc.pdf";
     status := in_progress;
     percentage := num 0;
     stage := VStr "document_download";
     message := VStr "Procesamiento iniciado";
     notificationId := VStr "notification-1";
     lastUpdated := VStr "2025-01-01T00:00:00.000Z" |}.

Definition job_xyz789 : UploadProcess :=
  {| processingId := "xyz789";
     collectionName := "docs_1";
     sourceUrl := "https://ex.com/other.pdf";
     status := completed;
     percentage := num 100;
     stage := VStr "embedding_generation";
     message := VNull;
     notificationId := VUndefined;
     lastUpdated := VStr "2025-01-01T00:05:00.000Z" |}.

Definition ids (s : list UploadProcess) : list string := map processingId s.

(** A run of ticks, each with its clock and with what the server answers;
    the store after them. *)
Definition tick `{Runtime} (now : string) (server : string → fetch_result)
    (s : list UploadProcess) : list UploadProcess :=
  (pollStatuses now server s).1.


(** The percentage [pollStatuses] and [handleSubmit] read from a
    response, when [Number] converts what the response carries. *)
Definition reported_percentage `{Runtime} (data : value) : completion number :=
  converted ←
    ToNumber (get_opt (get_opt (get_opt data "data") "progress") "percentage");
  mret (number_or_zero converted).

(** A notification that closes by itself, what the specification calls
    ephemeral or auto-dismissing, as opposed to a persistent one. *)
Definition ephemeral (n : notification) : Prop := n_autoClose n = true.

(** The interval and the ref agree with the last run of the effect: a
    run that found active processes left exactly one interval alive, held
    by the ref; any other situation leaves none. *)
Definition timers_follow_effect (c : component) : Prop :=
  match last_dep c with
  | Some true => ∃ id, pollingIntervalRef c = Some id ∧ timers c = [id]
  | _ => pollingIntervalRef c = None ∧ timers c = []
  end.

(** After a render and its effects, the last run of the effect saw the
    active processes of the current state. *)
Definition poller_consistent (c : component) : Prop :=
  last_dep c = Some (hasActiveProcesses (processes c)) ∧ timers_follow_effect c.

(** The text of an entry of the collections payload: the entry itself
    when it is a string, its [name] when it is an object with a string
    under that key. *)
Inductive entry_text : value → string → Prop :=
| text_string s : entry_text (VStr s) s
| text_named props s : assoc "name" props = VStr s → entry_text (VObj props) s.

(** The code units of [[A-Za-z0-9_-]]. *)
Definition name_code (n : N) : Prop :=
  ((97 ≤ n ∧ n ≤ 122) ∨ (65 ≤ n ∧ n ≤ 90) ∨ (48 ≤ n ∧ n ≤ 57) ∨ n = 95 ∨ n = 45)%N.

Fixpoint string_Forall (P : ascii → Prop) (s : string) : Prop :=
  match s with
  | EmptyString => True
  | String a r => P a ∧ string_Forall P r
  end.

(** The strings matched by [^[A-Za-z0-9_-]+$]. *)
Definition valid_collection_name (s : string) : Prop :=
  s ≠ "" ∧ string_Forall (λ a, name_code (N_of_ascii a)) s.

(** The shapes of the collections payload and the array each carries: the
    payload itself, or the first array among [data], [collections] and
    [data.collections]. *)
Inductive carries : value → list value → Prop :=
| bare entries : carries (VArr entries) entries
| under_data props entries :
    assoc "data" props = VArr entries → carries (VObj props) entries
| under_collections props entries :
    Array_isArray (assoc "data" props) = false →
    assoc "collections" props = VArr entries → carries (VObj props) entries
| under_data_collections props entries :
    Array_isArray (assoc "data" props) = false →
    Array_isArray (assoc "collections" props) = false →
    get_opt (assoc "data" props) "collections" = VArr entries →
    carries (VObj props) entries.

(** ** Removing and clearing (FileUploader.tsx) *)

(** The keys kept in [localStorage] beside the store, one pair per job. *)
Definition processing_key (processId : string) : string :=
  "processing_id_" ++ processId.

Definition notification_key (processId : string) : string :=
  "notification_id_" ++ processId.

(** [removeProcessArtifacts], on the texts [localStorage] keeps under the
    keys other than the one of the store. *)
Definition removeProcessArtifacts (processId : string) (ls : gmap string string)
    : gmap string string :=
  delete (notification_key processId) (delete (processing_key processId) ls).

(** What the log of a handler does to [localStorage]. *)
Definition run_effect (ls : gmap string string) (e : effect) : gmap string string :=
  match e with
  | RemoveArtifacts processId => removeProcessArtifacts processId ls
  | _ => ls
  end.

Definition run_effects (log : list effect) (ls : gmap string string)
    : gmap string string :=
  foldl run_effect ls log.

(** The notification a job is downgraded to when its tracking stops. *)
Definition stopped (text : string) : notification :=
  {| n_type := info;
     n_title := "Seguimiento detenido";
     n_message := VStr text;
     n_processingId := None;
     n_autoClose := true;
     n_duration := Some 5000%Z |}.

(** [handleRemoveProcess]: the new store and what is done besides. *)
Definition handleRemoveProcess (processId : string) (store : list UploadProcess)
    : list UploadProcess * list effect :=
  let target := List.find (λ item, bool_decide (processingId item = processId)) store in
  (remove processId store,
   match target with
   | Some t =>
       if truthy (notificationId t) then
         [UpdateNotification (notificationId t)
            (stopped "Quitaste esta carga del listado manualmente.")]
       else []
   | None => []
   end ++ [RemoveArtifacts processId]).

(** [handleClearProcesses] *)
Definition handleClearProcesses (store : list UploadProcess)
    : list UploadProcess * list effect :=
  if (length store =? 0)%nat then (store, [])
  else
    (clear store,
     flat_map (λ process,
                 (if truthy (notificationId process) then
                    [UpdateNotification (notificationId process)
                       (stopped "Limpiamos el listado de cargas manualmente.")]
                  else [])
                 ++ [RemoveArtifacts (processingId process)]) store).

(** Removing the jobs of a list of ids one after the other, on the store
    and on [localStorage]. *)
Definition remove_each (processIds : list string)
    (state : list UploadProcess * gmap string string)
    : list UploadProcess * gmap string string :=
  foldl (λ st processId,
           let r := handleRemoveProcess processId st.1 in
           (r.1, run_effects r.2 st.2))
        state processIds.

(** The keys a log removes from [localStorage]. *)
Definition removed_keys (log : list effect) : list string :=
  flat_map (λ e, match e with
                 | RemoveArtifacts processId =>
                     [processing_key processId; notification_key processId]
                 | _ => []
                 end) log.

Definition is_update (e : effect) : bool :=
  match e with UpdateNotification _ _ => true | _ => false end.

Definition is_add (e : effect) : bool :=
  match e with AddNotification _ => true | _ => false end.

(** The notifications a log updates, by their ids and in order. *)
Definition updated_ids (log : list effect) : list value :=
  omap (λ e, match e with UpdateNotification id _ => Some id | _ => None end) log.


(** What every process that comes out of the initialiser satisfies. *)
Definition sanitised (p : UploadProcess) : Prop :=
  processingId p ≠ "" ∧
  Number_isFinite (percentage p) = true ∧
  stage p ≠ VUndefined ∧
  message p ≠ VUndefined ∧
  notificationId p ≠ VNull ∧
  nullish (lastUpdated p) = false.

(** ** The upload form (FileUploader.tsx) *)

Inductive ChunkingStrategy :=
| recursive_character | fixed_size | semantic | document_structure | linguistic_units.

#[global] Instance ChunkingStrategy_eq_dec : EqDecision ChunkingStrategy.
Proof. solve_decision. Defined.

Inductive LengthFunction := character_count | token_count.

Definition strategy_name (s : ChunkingStrategy) : string :=
  match s with
  | recursive_character => "recursive_character"
  | fixed_size => "fixed_size"
  | semantic => "semantic"
  | document_structure => "document_structure"
  | linguistic_units => "linguistic_units"
  end.

Definition length_function_name (l : LengthFunction) : string :=
  match l with
  | character_count => "character_count"
  | token_count => "token_count"
  end.

(** The state of the form that [validateConfig] and [handleSubmit] read.
    The numeric fields hold what [Number(e.target.value)] gave. *)
Module Form.
Record state := mk {
  input : string;
  collectionName : string;
  chunkingStrategy : ChunkingStrategy;
  chunkSize : number;
  chunkOverlap : number;
  separators : list string;
  lengthFunction : LengthFunction;
  maxFileSizeMb : number;
  timeoutPerFile : number;
  embeddingModel : string;
  batchSize : number;
  retryAttempts : number
}.
End Form.

(** The initial state of the form. *)
Definition initial_form : Form.state :=
  {| Form.input := "";
     Form.collectionName := "manuales_collection";
     Form.chunkingStrategy := recursive_character;
     Form.chunkSize := num 1000;
     Form.chunkOverlap := num 200;
     Form.separators :=
       [". "; ", ";
        String (ascii_of_N 10) (String (ascii_of_N 10) EmptyString);
        String (ascii_of_N 10) EmptyString; " "; ""];
     Form.lengthFunction := character_count;
     Form.maxFileSizeMb := num 50;
     Form.timeoutPerFile := num 300;
     Form.embeddingModel := "embedding-001";
     Form.batchSize := num 90;
     Form.retryAttempts := num 3 |}.

(** [strategyUsesChunkSize] *)
Definition strategyUsesChunkSize (strategy : ChunkingStrategy) : bool :=
  negb (bool_decide (strategy ∈ [semantic; document_structure])).

(** [/^https?:\/\//.test] *)
Definition http_url_test (s : string) : bool :=
  String.prefix "http://" s || String.prefix "https://" s.

(** [validateConfig]: the message of the first check that fails, [None]
    for [null]. *)
Definition validateConfig (f : Form.state) : option string :=
  if negb (COLLECTION_REGEX_test (Form.collectionName f)) then
    Some "collection_name solo puede contener letras, números, guiones y guiones bajos"
  else if strategyUsesChunkSize (Form.chunkingStrategy f)
          && (number_lt (Form.chunkSize f) (num 100)
              || number_gt (Form.chunkSize f) (num 5000)) then
    Some "chunk_size debe estar entre 100 y 5000"
  else if strategyUsesChunkSize (Form.chunkingStrategy f)
          && (number_lt (Form.chunkOverlap f) (num 0)
              || number_ge (Form.chunkOverlap f) (Form.chunkSize f)) then
    Some "chunk_overlap debe ser >= 0 y menor que chunk_size"
  else if number_lt (Form.maxFileSizeMb f) (num 1)
          || number_gt (Form.maxFileSizeMb f) (num 1000) then
    Some "max_file_size_mb debe estar entre 1 y 1000"
  else if number_lt (Form.timeoutPerFile f) (num 30)
          || number_gt (Form.timeoutPerFile f) (num 3600) then
    Some "timeout_per_file_seconds debe estar entre 30 y 3600"
  else if number_lt (Form.batchSize f) (num 1)
          || number_gt (Form.batchSize f) (num 1000) then
    Some "batch_size debe estar entre 1 y 1000"
  else if number_lt (Form.retryAttempts f) (num 1)
          || number_gt (Form.retryAttempts f) (num 10) then
    Some "retry_attempts debe estar entre 1 y 10"
  else if string_eqb (trim (Form.embeddingModel f)) "" then
    Some "Debe especificar un modelo de embeddings"
  else if string_eqb (Form.input f) "" || negb (http_url_test (Form.input f)) then
    Some "Debes ingresar una URL válida que empiece con http o https"
  else None.

(** [chunking_config], built key by key as [handleSubmit] does. *)
Definition chunking_config (f : Form.state) : value :=
  VObj ([("chunking_strategy", VStr (strategy_name (Form.chunkingStrategy f)))]
        ++ (if strategyUsesChunkSize (Form.chunkingStrategy f) then
              [("chunk_size", VNum (Form.chunkSize f));
               ("chunk_overlap", VNum (Form.chunkOverlap f))]
            else [])
        ++ (if bool_decide (Form.chunkingStrategy f = recursive_character) then
              [("separators", VArr (map VStr (Form.separators f)));
               ("keep_separator", VBool true);
               ("strip_whitespace", VBool true)]
            else [])
        ++ (if bool_decide (Form.chunkingStrategy f = fixed_size) then
              [("length_function",
                VStr (length_function_name (Form.lengthFunction f)))]
            else [])).

(** The [body] of the request. *)
Definition request_body (f : Form.state) : value :=
  VObj [("source_url", VStr (Form.input f));
        ("collection_name", VStr (Form.collectionName f));
        ("chunking_config", chunking_config f);
        ("processing_options",
         VObj [("file_extensions",
                VArr [VStr "pdf"; VStr "txt"; VStr "docx"; VStr "md";
                      VStr "csv"; VStr "xlsx"]);
               ("max_file_size_mb", VNum (Form.maxFileSizeMb f));
               ("extract_metadata", VBool true);
               ("preserve_formatting", VBool false);
               ("timeout_per_file_seconds", VNum (Form.timeoutPerFile f))]);
        ("embedding_config",
         VObj [("model", VStr (Form.embeddingModel f));
               ("batch_size", VNum (Form.batchSize f));
               ("retry_attempts", VNum (Form.retryAttempts f))])].

(** What [fetch] and [res.json()] give [handleSubmit]: a rejection with
    its message, or [res.ok] and the parsed body. *)
Inductive submit_reply :=
| SubmitRejected (error_message : string)
| SubmitResponse (ok : bool) (data : value).

(** The message of the [TypeError] raised by reading a property of [null]
    or [undefined]. *)
Definition read_error (v : value) (k : string) : string :=
  "Cannot read properties of "
  ++ (match v with VNull => "null" | _ => "undefined" end)
  ++ " (reading '" ++ k ++ "')".

Definition error_notification (title : string) (text : string) : notification :=
  {| n_type := failure;
     n_title := title;
     n_message := VStr text;
     n_processingId := None;
     n_autoClose := false;
     n_duration := None |}.

(** What a run of [handleSubmit] leaves: the body posted, if a request was
    made, the store, the log, [localStorage] and the URL field. *)
Record submitted := mkSubmitted {
  posted : option value;
  new_store : list UploadProcess;
  submit_log : list effect;
  new_storage : gmap string string;
  new_input : string
}.

Section Submit.
Context `{Runtime}.

(** The [try] block up to the check of the response: the message of what
    it throws, if it throws. *)
Definition submit_failure (ok : bool) (data : value) : option string :=
  if nullish data then Some (read_error data (if ok then "success" else "error"))
  else if negb ok || negb (truthy (get_opt data "success")) then
    Some (match ToString
                  (or_else (or_else (get_opt data "error") (get_opt data "message"))
                           (VStr "Error al procesar")) with
          | Normal text => text
          | Throw e => exn_message e
          end)
  else None.

(** [newProcess]: [Number] may throw on what the response carries as
    percentage. *)
Definition newProcess (f : Form.state) (processing_id : string) (data : value)
    (notification_id now : string) : completion UploadProcess :=
  converted ←
    ToNumber (get_opt (get_opt (get_opt data "data") "progress") "percentage");
  mret
  {| processingId := processing_id;
     collectionName := Form.collectionName f;
     sourceUrl := Form.input f;
     status := in_progress;
     percentage := number_or_zero converted;
     stage :=
       coalesce (get_opt (get_opt (get_opt data "data") "progress") "stage")
                (VStr "document_download");
     message := coalesce (get_opt data "message") (VStr "Procesamiento iniciado");
     notificationId := VStr notification_id;
     lastUpdated := VStr now |}.

(** [handleSubmit], given what the request answers, the id that
    [addNotification] returns and the clock.  When [Number] throws on the
    percentage of the response, the notification of the start has been
    added already; the [catch] block adds the error and no job is made.
    The id of a process is a string by its declared type: the code stores
    whatever [processing_id] the response carries, and a response whose
    [processing_id] is not a string gives a process that is outside the
    record type; the model answers it by [None]. *)
Definition handleSubmit (f : Form.state) (reply : submit_reply)
    (notification_id now : string) (store : list UploadProcess)
    (ls : gmap string string) : option submitted :=
  match validateConfig f with
  | Some configError =>
      Some {| posted := None;
              new_store := store;
              submit_log :=
                [AddNotification (error_notification "Error de Validación" configError)];
              new_storage := ls;
              new_input := Form.input f |}
  | None =>
      let failed text :=
        Some {| posted := Some (request_body f);
                new_store := store;
                submit_log :=
                  [AddNotification
                     (error_notification "Error al Iniciar Procesamiento" text)];
                new_storage := ls;
                new_input := Form.input f |} in
      match reply with
      | SubmitRejected text => failed text
      | SubmitResponse ok data =>
          match submit_failure ok data with
          | Some text => failed text
          | None =>
              match get_opt data "processing_id" with
              | VStr processing_id =>
                  let started :=
                    AddNotification
                      {| n_type := processing;
                         n_title := "Procesamiento Iniciado";
                         n_message :=
                           VStr ("Cargando documentos desde URL: " ++ Form.input f);
                         n_processingId := Some processing_id;
                         n_autoClose := false;
                         n_duration := None |} in
                  match newProcess f processing_id data notification_id now with
                  | Normal process =>
                      Some {| posted := Some (request_body f);
                              new_store := add process store;
                              submit_log := [started];
                              new_storage :=
                                <[notification_key processing_id := notification_id]>
                                  (<[processing_key processing_id := processing_id]>
                                     ls);
                              new_input := "" |}
                  | Throw e =>
                      Some {| posted := Some (request_body f);
                              new_store := store;
                              submit_log :=
                                [started;
                                 AddNotification
                                   (error_notification
                                      "Error al Iniciar Procesamiento"
                                      (exn_message e))];
                              new_storage := ls;
                              new_input := Form.input f |}
                  end
              | _ => None
              end
          end
      end
  end.
End Submit.

(** A number within two integer bounds. *)
Definition between (lo hi : Z) (n : number) : Prop :=
  ∃ q, n = Finite q ∧ (inject_Z lo <= q)%Q ∧ (q <= inject_Z hi)%Q.

(** An overlap that is at least 0 and below the chunk size. *)
Definition overlap_fits (overlap size : number) : Prop :=
  ∃ a b, overlap = Finite a ∧ size = Finite b ∧ (0 <= a)%Q ∧ (a < b)%Q.

(** The numeric fields of the form that a request sends. *)
Definition sent_numbers (f : Form.state) : list number :=
  (if strategyUsesChunkSize (Form.chunkingStrategy f)
   then [Form.chunkSize f; Form.chunkOverlap f] else [])
  ++ [Form.maxFileSizeMb f; Form.timeoutPerFile f; Form.batchSize f;
      Form.retryAttempts f].

(** The form with other values in the two chunk fields. *)
Definition with_chunks (size overlap : number) (f : Form.state) : Form.state :=
  {| Form.input := Form.input f;
     Form.collectionName := Form.collectionName f;
     Form.chunkingStrategy := Form.chunkingStrategy f;
     Form.chunkSize := size;
     Form.chunkOverlap := overlap;
     Form.separators := Form.separators f;
     Form.lengthFunction := Form.lengthFunction f;
     Form.maxFileSizeMb := Form.maxFileSizeMb f;
     Form.timeoutPerFile := Form.timeoutPerFile f;
     Form.embeddingModel := Form.embeddingModel f;
     Form.batchSize := Form.batchSize f;
     Form.retryAttempts := Form.retryAttempts f |}.

(** The initial form with the URL of the scenario typed in, and the
    response of the scenario to its submission. *)
Definition form_abc123 : Form.state :=
  {| Form.input := "https://ex.com/doc.pdf";
     Form.collectionName := Form.collectionName initial_form;
     Form.chunkingStrategy := Form.chunkingStrategy initial_form;
     Form.chunkSize := Form.chunkSize initial_form;
     Form.chunkOverlap := Form.chunkOverlap initial_form;
     Form.separators := Form.separators initial_form;
     Form.lengthFunction := Form.lengthFunction initial_form;
     Form.maxFileSizeMb := Form.maxFileSizeMb initial_form;
     Form.timeoutPerFile := Form.timeoutPerFile initial_form;
     Form.embeddingModel := Form.embeddingModel initial_form;
     Form.batchSize := Form.batchSize initial_form;
     Form.retryAttempts := Form.retryAttempts initial_form |}.

Definition response_abc123 : value :=
  VObj [("success", VBool true);
        ("processing_id", VStr "abc123");
        ("message", VStr "Procesamiento iniciado");
        ("data", VObj [("progress", VObj [("percentage", VNum (num 0))])])].

(** ** The separators field (FileUploader.tsx) *)

Definition newline : ascii := ascii_of_N 10.

(** [text.split(c)] for a separator of one code unit. *)
Fixpoint split_on (c : ascii) (s : string) : list string :=
  match s with
  | EmptyString => [EmptyString]
  | String a r =>
      if bool_decide (a = c) then EmptyString :: split_on c r
      else match split_on c r with
           | h :: t => String a h :: t
           | [] => [String a EmptyString]
           end
  end.

(** The text area shows [separators.join("\n")] and stores
    [value.split("\n")]. *)
Definition separators_shown (separators : list string) : string :=
  join (String newline EmptyString) separators.

Definition separators_typed (text : string) : list string :=
  split_on newline text.

Fixpoint has_char (c : ascii) (s : string) : bool :=
  match s with
  | EmptyString => false
  | String a r => bool_decide (a = c) || has_char c r
  end.

(** ** The collections of the configuration panel (ConfigurationPanel.tsx) *)

(** What [fetch(COLLECTIONS_ENDPOINT)] gives: a rejection with its
    message, or [response.ok], [response.status] and the outcome of
    [response.json()]. *)
Inductive collections_reply :=
| CollectionsRejected (error_message : string)
| CollectionsResponse (ok : bool) (http_status : number) (body : fetch_result).

Section Collections.
Context `{Runtime}.

(** [fetchCollections]: the list given to [setCollections] and the text
    given to [setCollectionsError] ([None] for [null]), from the reply and
    the default collection of the configuration. *)
Definition fetchCollections (reply : collections_reply) (defaultCollection : string)
    : list string * option string :=
  let failed (text : string) :=
    (if negb (string_eqb defaultCollection "") then [defaultCollection] else [],
     Some (if negb (string_eqb text "") then text
           else "No se pudieron cargar las colecciones disponibles.")) in
  match reply with
  | CollectionsRejected text => failed text
  | CollectionsResponse ok http_status body =>
      if negb ok then
        failed ("No se pudieron obtener las colecciones (HTTP "
                ++ NumberToString http_status ++ ").")%string
      else
        match body with
        | FetchFailed text => failed text
        | FetchJson data =>
            let names := normalizeCollectionNames data in
            (Array_from_Set
               (names ++ (if negb (string_eqb defaultCollection "")
                          then [defaultCollection] else [])),
             None)
        end
  end.
End Collections.

(** The effect on [collections] and [collectionName]: the name selected
    after it. *)
Definition select_collection (collections : list string)
    (collectionName defaultCollection : string) : string :=
  if (length collections =? 0)%nat then collectionName
  else if negb (bool_decide (collectionName ∈ collections)) then
    if negb (string_eqb defaultCollection "")
       && bool_decide (defaultCollection ∈ collections) then defaultCollection
    else if (0 <? length collections)%nat then
      match collections with
      | first :: _ => first
      | [] => collectionName
      end
    else collectionName
  else collectionName.

(** ** The colour themes (themeManager.ts) *)

Inductive ThemeKey := blue | green | yellow | red | orange | violet.

#[global] Instance ThemeKey_eq_dec : EqDecision ThemeKey.
Proof. solve_decision. Defined.

Record ThemeDefinition := mkTheme {
  primary : string;
  primaryHover : string;
  primaryMuted : string;
  primaryMutedHover : string;
  primaryLight : string;
  gradientFrom : string;
  gradientTo : string
}.

Definition THEMES (theme : ThemeKey) : ThemeDefinition :=
  match theme with
  | blue =>
      mkTheme "#2baae2" "#1e90c7" "#1f8cbf" "#18739d"
        "#7fc5e6" "#2baae2" "#1f8cbf"
  | green =>
      mkTheme "#15803d" "#166534" "#14532d" "#0f3d20"
        "#b9f3ca" "#15803d" "#166534"
  | yellow =>
      mkTheme "#a16207" "#854d0e" "#713f12" "#4c2f0b"
        "#fde68a" "#f59e0b" "#b45309"
  | orange =>
      mkTheme "#f97316" "#ea580c" "#c2410c" "#9a3412"
        "#fed7aa" "#f97316" "#ea580c"
  | red =>
      mkTheme "#ef4444" "#dc2626" "#b91c1c" "#991b1b"
        "#fecaca" "#ef4444" "#dc2626"
  | violet =>
      mkTheme "#6d28d9" "#5b21b6" "#4c1d95" "#3b0f7f"
        "#e7d8ff" "#7c3aed" "#5b21b6"
  end.

(** The keys of [THEMES] as strings. *)
Definition theme_name (theme : ThemeKey) : string :=
  match theme with
  | blue => "blue"
  | green => "green"
  | yellow => "yellow"
  | red => "red"
  | orange => "orange"
  | violet => "violet"
  end.

Definition theme_of_name (name : string) : option ThemeKey :=
  List.find (λ theme, string_eqb (theme_name theme) name)
    [blue; green; yellow; orange; red; violet].

(** [THEMES] is an object literal, so besides its own six keys it answers
    for the members it inherits from [Object.prototype]. *)
Definition Object_prototype_names : list string :=
  ["constructor"; "hasOwnProperty"; "isPrototypeOf"; "propertyIsEnumerable";
   "toLocaleString"; "toString"; "valueOf"; "__proto__";
   "__defineGetter__"; "__defineSetter__"; "__lookupGetter__";
   "__lookupSetter__"].

(** [THEMES[name]]: the palette of an own key, a member inherited from
    [Object.prototype] (which has none of the fields of a palette), or
    [undefined]. *)
Inductive themes_member :=
| Own (palette : ThemeDefinition)
| Inherited
| Absent.

Definition THEMES_get (name : string) : themes_member :=
  match theme_of_name name with
  | Some theme => Own (THEMES theme)
  | None =>
      if bool_decide (name ∈ Object_prototype_names) then Inherited else Absent
  end.

(** [name in THEMES] *)
Definition in_THEMES (name : string) : bool :=
  match THEMES_get name with
  | Absent => false
  | _ => true
  end.

(** *** [hexToRgb] *)

(** [text.replace(c, "")] for a pattern of one code unit: the first
    occurrence goes. *)
Fixpoint replace_first (c : ascii) (s : string) : string :=
  match s with
  | EmptyString => EmptyString
  | String a r => if bool_decide (a = c) then r else String a (replace_first c r)
  end.

(** [text.split("").map((char) => char + char).join("")] *)
Fixpoint double_chars (s : string) : string :=
  match s with
  | EmptyString => EmptyString
  | String a r => String a (String a (double_chars r))
  end.

Definition hex_digit_value (a : ascii) : option Z :=
  let n := Z.of_N (N_of_ascii a) in
  (if (48 <=? n) && (n <=? 57) then Some (n - 48)
   else if (97 <=? n) && (n <=? 102) then Some (n - 87)
   else if (65 <=? n) && (n <=? 70) then Some (n - 55)
   else None)%Z.

(** The value of the longest run of hexadecimal digits at the start of a
    string, [None] when there is none. *)
Fixpoint hex_prefix (s : string) (acc : option Z) : option Z :=
  match s with
  | EmptyString => acc
  | String a r =>
      match hex_digit_value a with
      | Some d => hex_prefix r (Some (16 * default 0 acc + d)%Z)
      | None => acc
      end
  end.

(** The binary64 value nearest to a natural number, ties to the even
    significand: [parseInt] is the one embedded operation that rounds. *)
Definition round_binary64 (n : Z) : number :=
  (if n <? 2 ^ 53 then num n
   else
     let e := Z.log2 n - 52 in
     let q := Z.shiftr n e in
     let r := n - Z.shiftl q e in
     let half := 2 ^ (e - 1) in
     let q' := if (half <? r) || ((r =? half) && Z.odd q) then q + 1 else q in
     let v := Z.shiftl q' e in
     if 2 ^ 1024 <=? v then Infinity false else num v)%Z.

Definition number_negate (n : number) : number :=
  match n with
  | NaN => NaN
  | Infinity negative => Infinity (negb negative)
  | Finite q => Finite (- q)%Q
  end.

(** [parseInt(text, 16)]: leading white space, a sign and a [0x] prefix
    are skipped, the digits that follow are read, and what comes after
    them is ignored. *)
Definition parseInt16 (text : string) : number :=
  let s := trimStart text in
  let '(negative, s1) :=
    match s with
    | String c r =>
        if bool_decide (c = "-"%char) then (true, r)
        else if bool_decide (c = "+"%char) then (false, r)
        else (false, s)
    | EmptyString => (false, s)
    end in
  let s2 :=
    match s1 with
    | String c0 (String c r) =>
        if bool_decide (c0 = "0"%char)
           && bool_decide (c = "x"%char ∨ c = "X"%char) then r
        else s1
    | _ => s1
    end in
  match hex_prefix s2 None with
  | None => NaN
  | Some n => if negative then number_negate (round_binary64 n) else round_binary64 n
  end.

(** [ToInt32], applied by [>>] and [&] to their operands. *)
Definition ToInt32 (n : number) : Z :=
  match n with
  | Finite q =>
      let t := if Qle_bool 0 q then Qfloor q else Qceiling q in
      let m := (t mod 2 ^ 32)%Z in
      (if 2 ^ 31 <=? m then m - 2 ^ 32 else m)%Z
  | _ => 0%Z
  end.

(** The three channels computed by [hexToRgb]. *)
Definition hexToRgb_channels (hex : string) : Z * Z * Z :=
  let normalized := replace_first "#"%char hex in
  let value :=
    if (String.length normalized =? 3)%nat then double_chars normalized
    else normalized in
  let parsed := parseInt16 value in
  let r := Z.land (Z.shiftr (ToInt32 parsed) 16) 255 in
  let g := Z.land (Z.shiftr (ToInt32 parsed) 8) 255 in
  let b := Z.land (ToInt32 parsed) 255 in
  (r, g, b).

Definition hexToRgb `{Runtime} (hex : string) : string :=
  let '(r, g, b) := hexToRgb_channels hex in
  NumberToString (num r) ++ ", " ++ NumberToString (num g) ++ ", "
  ++ NumberToString (num b).

(** *** The document *)

(** What the theme code touches of the page: the custom properties of the
    root element's inline style, and the [content] of the two [meta]
    elements, [None] when the page has no such element. *)
Record document := mkDocument {
  style : gmap string string;
  metaTheme : option string;
  metaMsTile : option string
}.

(** [root.style.setProperty(name, value)] for a custom property: the
    empty value removes the declaration. *)
Definition setProperty (name value : string) (d : document) : document :=
  mkDocument
    (if string_eqb value "" then delete name (style d)
     else <[name := value]> (style d))
    (metaTheme d) (metaMsTile d).

Definition setProperties (declarations : list (string * string)) (d : document)
    : document :=
  foldl (λ d' declaration, setProperty declaration.1 declaration.2 d') d
    declarations.

(** The first seven calls of [applyTheme], in order. *)
Definition palette_declarations (palette : ThemeDefinition) : list (string * string) :=
  [("--color-primary", primary palette);
   ("--color-primary-hover", primaryHover palette);
   ("--color-primary-muted", primaryMuted palette);
   ("--color-primary-muted-hover", primaryMutedHover palette);
   ("--color-primary-light", primaryLight palette);
   ("--color-primary-gradient-from", gradientFrom palette);
   ("--color-primary-gradient-to", gradientTo palette)].

(** The message of the [TypeError] raised by [undefined.replace(...)], as
    V8 words it. *)
Definition undefined_replace_message : string :=
  "Cannot read properties of undefined (reading 'replace')".

Section Themes.
Context `{Runtime}.

Definition theme_declarations (palette : ThemeDefinition) : list (string * string) :=
  palette_declarations palette
  ++ [("--color-primary-rgb", hexToRgb (primary palette));
      ("--tw-ring-color", primary palette)].

(** [applyTheme] in a browser: the document after it, and the message of
    the exception it ends with, if any.  For an inherited member every
    field of the palette is [undefined]: the first seven properties
    receive the text [undefined], and [hexToRgb] then throws. *)
Definition applyTheme (theme : string) (d : document) : document * option string :=
  match THEMES_get theme with
  | Own palette => (setProperties (theme_declarations palette) d, None)
  | Absent => (setProperties (theme_declarations (THEMES blue)) d, None)
  | Inherited =>
      (setProperties
         (map (λ declaration, (declaration.1, "undefined"))
            (palette_declarations (THEMES blue))) d,
       Some undefined_replace_message)
  end.

(** [updateThemeMetaColor] in a browser. *)
Definition updateThemeMetaColor (theme : string) (d : document) : document :=
  let content :=
    match THEMES_get theme with
    | Own palette => primary palette
    | Absent => primary (THEMES blue)
    | Inherited => "undefined"
    end in
  mkDocument (style d)
    (match metaTheme d with Some _ => Some content | None => None end)
    (match metaMsTile d with Some _ => Some content | None => None end).

(** The two theme effects of the configuration panel
    (ConfigurationPanel.tsx): the effect on [selectedTheme], and the
    clean-up that runs before the next selection and at unmount. *)
Definition theme_effect (selectedTheme : ThemeKey) (d : document) : document :=
  updateThemeMetaColor (theme_name selectedTheme)
    (applyTheme (theme_name selectedTheme) d).1.

Definition theme_cleanup (selectedTheme savedThemeRef : ThemeKey) (d : document)
    : document :=
  if bool_decide (selectedTheme ≠ savedThemeRef) then
    updateThemeMetaColor (theme_name savedThemeRef)
      (applyTheme (theme_name savedThemeRef) d).1
  else d.

(** The panel is mounted with a selected theme, the user selects other
    themes one after the other, and the panel is unmounted; nothing is
    saved meanwhile. *)
Fixpoint browse_themes (savedThemeRef selectedTheme : ThemeKey)
    (selections : list ThemeKey) (d : document) : document :=
  match selections with
  | [] => theme_cleanup selectedTheme savedThemeRef d
  | next :: later =>
      browse_themes savedThemeRef next later
        (theme_effect next (theme_cleanup selectedTheme savedThemeRef d))
  end.

Definition preview_themes (savedThemeRef selectedTheme : ThemeKey)
    (selections : list ThemeKey) (d : document) : document :=
  browse_themes savedThemeRef selectedTheme selections
    (theme_effect selectedTheme d).
End Themes.

(** ** The application configuration (appConfig.ts) *)

Module CONFIG_STORAGE_KEYS.
Definition DEFAULT_COLLECTION : string := "app_config_default_collection".
Definition DEFAULT_TOP_K : string := "app_config_default_top_k".
Definition USE_RERANKING : string := "app_config_use_reranking".
Definition USE_QUERY_REWRITING : string := "app_config_use_query_rewriting".
Definition FORCE_REBUILD : string := "app_config_force_rebuild".
Definition INITIAL_BOT_MESSAGE : string := "app_config_initial_bot_message".
Definition DESCRIPTION : string := "app_config_description".
Definition INPUT_PLACEHOLDER : string := "app_config_input_placeholder".
Definition PROJECT_NAME : string := "app_config_project_name".
Definition ACTIVE_THEME : string := "app_config_active_theme".
End CONFIG_STORAGE_KEYS.

Module Config.
Record t := mk {
  PROJECT_NAME : string;
  GROUP_NUMBER : option string;
  STUDENT_NAMES : option string;
  DESCRIPTION : string;
  INITIAL_BOT_MESSAGE : string;
  INPUT_PLACEHOLDER : string;
  BACKEND_URL : string;
  API_ENDPOINT : string;
  DEFAULT_TOP_K : number;
  DEFAULT_COLLECTION : string;
  USE_RERANKING : bool;
  USE_QUERY_REWRITING : bool;
  FORCE_REBUILD : bool;
  ACTIVE_THEME : string
}.
End Config.

(** The object literal [APP_CONFIG], given [import.meta.env.VITE_BACKEND_URL]
    ([None] when it is not defined). *)
Definition APP_CONFIG (VITE_BACKEND_URL : option string) : Config.t :=
  Config.mk
    "Asistente Inteligente MISW4411"
    None
    None
    "Pregúntame sobre el curso o temas relacionados con Grandes Modelos de Lenguaje"
    ("Hola 👋 Soy el **Asistente Inteligente MISW4411**. Pregúntame sobre el curso o temas relacionados con **Grandes Modelos de Lenguaje**."
     ++ String newline (String newline EmptyString))
    "Escribe tu pregunta sobre el curso MISW4411..."
    (match VITE_BACKEND_URL with
     | Some url => if truthy (VStr url) then url else "http://127.0.0.1:8000"
     | None => "http://127.0.0.1:8000"
     end)
    "/api/v1/ask"
    DEFAULT_TOP_K
    "manuales_collection"
    false
    false
    false
    (theme_name blue).

(** The state the configuration code works on: the [APP_CONFIG] object,
    [window.localStorage] and the page. *)
Record app := mkApp {
  config : Config.t;
  localStorage : gmap string string;
  page : document
}.

(** [String(value)] of a boolean. *)
Definition Boolean_toString (value : bool) : string :=
  if value then "true" else "false".

Definition setDefaultCollection (collectionName : string) (a : app) : app :=
  let c := config a in
  mkApp
    (Config.mk (Config.PROJECT_NAME c) (Config.GROUP_NUMBER c)
       (Config.STUDENT_NAMES c) (Config.DESCRIPTION c)
       (Config.INITIAL_BOT_MESSAGE c) (Config.INPUT_PLACEHOLDER c)
       (Config.BACKEND_URL c) (Config.API_ENDPOINT c) (Config.DEFAULT_TOP_K c)
       collectionName (Config.USE_RERANKING c) (Config.USE_QUERY_REWRITING c)
       (Config.FORCE_REBUILD c) (Config.ACTIVE_THEME c))
    (<[CONFIG_STORAGE_KEYS.DEFAULT_COLLECTION := collectionName]> (localStorage a))
    (page a).

Definition setDefaultTopK `{Runtime} (value : number) (a : app) : app :=
  let c := config a in
  mkApp
    (Config.mk (Config.PROJECT_NAME c) (Config.GROUP_NUMBER c)
       (Config.STUDENT_NAMES c) (Config.DESCRIPTION c)
       (Config.INITIAL_BOT_MESSAGE c) (Config.INPUT_PLACEHOLDER c)
       (Config.BACKEND_URL c) (Config.API_ENDPOINT c) value
       (Config.DEFAULT_COLLECTION c) (Config.USE_RERANKING c)
       (Config.USE_QUERY_REWRITING c) (Config.FORCE_REBUILD c)
       (Config.ACTIVE_THEME c))
    (<[CONFIG_STORAGE_KEYS.DEFAULT_TOP_K := NumberToString value]> (localStorage a))
    (page a).

Definition setUseReranking (value : bool) (a : app) : app :=
  let c := config a in
  mkApp
    (Config.mk (Config.PROJECT_NAME c) (Config.GROUP_NUMBER c)
       (Config.STUDENT_NAMES c) (Config.DESCRIPTION c)
       (Config.INITIAL_BOT_MESSAGE c) (Config.INPUT_PLACEHOLDER c)
       (Config.BACKEND_URL c) (Config.API_ENDPOINT c) (Config.DEFAULT_TOP_K c)
       (Config.DEFAULT_COLLECTION c) value (Config.USE_QUERY_REWRITING c)
       (Config.FORCE_REBUILD c) (Config.ACTIVE_THEME c))
    (<[CONFIG_STORAGE_KEYS.USE_RERANKING := Boolean_toString value]> (localStorage a))
    (page a).

Definition setUseQueryRewriting (value : bool) (a : app) : app :=
  let c := config a in
  mkApp
    (Config.mk (Config.PROJECT_NAME c) (Config.GROUP_NUMBER c)
       (Config.STUDENT_NAMES c) (Config.DESCRIPTION c)
       (Config.INITIAL_BOT_MESSAGE c) (Config.INPUT_PLACEHOLDER c)
       (Config.BACKEND_URL c) (Config.API_ENDPOINT c) (Config.DEFAULT_TOP_K c)
       (Config.DEFAULT_COLLECTION c) (Config.USE_RERANKING c) value
       (Config.FORCE_REBUILD c) (Config.ACTIVE_THEME c))
    (<[CONFIG_STORAGE_KEYS.USE_QUERY_REWRITING := Boolean_toString value]> (localStorage a))
    (page a).

Definition setForceRebuild (value : bool) (a : app) : app :=
  let c := config a in
  mkApp
    (Config.mk (Config.PROJECT_NAME c) (Config.GROUP_NUMBER c)
       (Config.STUDENT_NAMES c) (Config.DESCRIPTION c)
       (Config.INITIAL_BOT_MESSAGE c) (Config.INPUT_PLACEHOLDER c)
       (Config.BACKEND_URL c) (Config.API_ENDPOINT c) (Config.DEFAULT_TOP_K c)
       (Config.DEFAULT_COLLECTION c) (Config.USE_RERANKING c)
       (Config.USE_QUERY_REWRITING c) value (Config.ACTIVE_THEME c))
    (<[CONFIG_STORAGE_KEYS.FORCE_REBUILD := Boolean_toString value]> (localStorage a))
    (page a).

Definition setInitialBotMessage (message : string) (a : app) : app :=
  let c := config a in
  mkApp
    (Config.mk (Config.PROJECT_NAME c) (Config.GROUP_NUMBER c)
       (Config.STUDENT_NAMES c) (Config.DESCRIPTION c) message
       (Config.INPUT_PLACEHOLDER c) (Config.BACKEND_URL c)
       (Config.API_ENDPOINT c) (Config.DEFAULT_TOP_K c)
       (Config.DEFAULT_COLLECTION c) (Config.USE_RERANKING c)
       (Config.USE_QUERY_REWRITING c) (Config.FORCE_REBUILD c)
       (Config.ACTIVE_THEME c))
    (<[CONFIG_STORAGE_KEYS.INITIAL_BOT_MESSAGE := message]> (localStorage a))
    (page a).

Definition setDescription (description : string) (a : app) : app :=
  let c := config a in
  mkApp
    (Config.mk (Config.PROJECT_NAME c) (Config.GROUP_NUMBER c)
       (Config.STUDENT_NAMES c) description (Config.INITIAL_BOT_MESSAGE c)
       (Config.INPUT_PLACEHOLDER c) (Config.BACKEND_URL c)
       (Config.API_ENDPOINT c) (Config.DEFAULT_TOP_K c)
       (Config.DEFAULT_COLLECTION c) (Config.USE_RERANKING c)
       (Config.USE_QUERY_REWRITING c) (Config.FORCE_REBUILD c)
       (Config.ACTIVE_THEME c))
    (<[CONFIG_STORAGE_KEYS.DESCRIPTION := description]> (localStorage a))
    (page a).

Definition setInputPlaceholder (placeholder : string) (a : app) : app :=
  let c := config a in
  mkApp
    (Config.mk (Config.PROJECT_NAME c) (Config.GROUP_NUMBER c)
       (Config.STUDENT_NAMES c) (Config.DESCRIPTION c)
       (Config.INITIAL_BOT_MESSAGE c) placeholder (Config.BACKEND_URL c)
       (Config.API_ENDPOINT c) (Config.DEFAULT_TOP_K c)
       (Config.DEFAULT_COLLECTION c) (Config.USE_RERANKING c)
       (Config.USE_QUERY_REWRITING c) (Config.FORCE_REBUILD c)
       (Config.ACTIVE_THEME c))
    (<[CONFIG_STORAGE_KEYS.INPUT_PLACEHOLDER := placeholder]> (localStorage a))
    (page a).

Definition setProjectName (projectName : string) (a : app) : app :=
  let c := config a in
  mkApp
    (Config.mk projectName (Config.GROUP_NUMBER c) (Config.STUDENT_NAMES c)
       (Config.DESCRIPTION c) (Config.INITIAL_BOT_MESSAGE c)
       (Config.INPUT_PLACEHOLDER c) (Config.BACKEND_URL c)
       (Config.API_ENDPOINT c) (Config.DEFAULT_TOP_K c)
       (Config.DEFAULT_COLLECTION c) (Config.USE_RERANKING c)
       (Config.USE_QUERY_REWRITING c) (Config.FORCE_REBUILD c)
       (Config.ACTIVE_THEME c))
    (<[CONFIG_STORAGE_KEYS.PROJECT_NAME := projectName]> (localStorage a))
    (page a).

(** [setActiveTheme]: the state after it and the message of the exception
    it ends with, if any. *)
Definition setActiveTheme `{Runtime} (theme : string) (a : app) : app * option string :=
  let c := config a in
  let '(d, thrown) := applyTheme theme (page a) in
  let a' :=
    mkApp
      (Config.mk (Config.PROJECT_NAME c) (Config.GROUP_NUMBER c)
         (Config.STUDENT_NAMES c) (Config.DESCRIPTION c)
         (Config.INITIAL_BOT_MESSAGE c) (Config.INPUT_PLACEHOLDER c)
         (Config.BACKEND_URL c) (Config.API_ENDPOINT c)
         (Config.DEFAULT_TOP_K c) (Config.DEFAULT_COLLECTION c)
         (Config.USE_RERANKING c) (Config.USE_QUERY_REWRITING c)
         (Config.FORCE_REBUILD c) theme)
      (<[CONFIG_STORAGE_KEYS.ACTIVE_THEME := theme]> (localStorage a)) in
  match thrown with
  | Some text => (a' d, Some text)
  | None => (a' (updateThemeMetaColor theme d), None)
  end.

(** The blocks run at module load: a stored text replaces the built-in
    one when it is not empty, a stored flag is read as [=== "true"], and a
    stored theme is taken when [in THEMES] accepts it. *)
Definition seed_text (stored : option string) (current : string) : string :=
  match stored with
  | Some s => if truthy (VStr s) then s else current
  | None => current
  end.

Definition seed_flag (stored : option string) (current : bool) : bool :=
  match stored with
  | Some s => string_eqb s "true"
  | None => current
  end.

Definition seed_theme (stored : option string) (current : string) : string :=
  match stored with
  | Some s => if truthy (VStr s) && in_THEMES s then s else current
  | None => current
  end.

Section ModuleLoad.
Context `{Runtime}.

Definition seed_config (ls : gmap string string) (c : Config.t) : Config.t :=
  Config.mk
    (seed_text (ls !! CONFIG_STORAGE_KEYS.PROJECT_NAME) (Config.PROJECT_NAME c))
    (Config.GROUP_NUMBER c)
    (Config.STUDENT_NAMES c)
    (seed_text (ls !! CONFIG_STORAGE_KEYS.DESCRIPTION) (Config.DESCRIPTION c))
    (seed_text (ls !! CONFIG_STORAGE_KEYS.INITIAL_BOT_MESSAGE)
       (Config.INITIAL_BOT_MESSAGE c))
    (seed_text (ls !! CONFIG_STORAGE_KEYS.INPUT_PLACEHOLDER)
       (Config.INPUT_PLACEHOLDER c))
    (Config.BACKEND_URL c)
    (Config.API_ENDPOINT c)
    (seed_top_k (ls !! CONFIG_STORAGE_KEYS.DEFAULT_TOP_K) (Config.DEFAULT_TOP_K c))
    (seed_text (ls !! CONFIG_STORAGE_KEYS.DEFAULT_COLLECTION)
       (Config.DEFAULT_COLLECTION c))
    (seed_flag (ls !! CONFIG_STORAGE_KEYS.USE_RERANKING) (Config.USE_RERANKING c))
    (seed_flag (ls !! CONFIG_STORAGE_KEYS.USE_QUERY_REWRITING)
       (Config.USE_QUERY_REWRITING c))
    (seed_flag (ls !! CONFIG_STORAGE_KEYS.FORCE_REBUILD) (Config.FORCE_REBUILD c))
    (seed_theme (ls !! CONFIG_STORAGE_KEYS.ACTIVE_THEME) (Config.ACTIVE_THEME c)).

(** The module body of appConfig.ts in a browser: the state after it and
    the message of the exception it ends with, if any. *)
Definition load_module (VITE_BACKEND_URL : option string)
    (ls : gmap string string) (d : document) : app * option string :=
  let c := seed_config ls (APP_CONFIG VITE_BACKEND_URL) in
  let '(d1, thrown) := applyTheme (Config.ACTIVE_THEME c) d in
  match thrown with
  | Some text => (mkApp c ls d1, Some text)
  | None => (mkApp c ls (updateThemeMetaColor (Config.ACTIVE_THEME c) d1), None)
  end.
End ModuleLoad.

(** [createRequestBody] *)
Definition createRequestBody (question : string) (c : Config.t) : value :=
  VObj [("question", VStr question);
        ("top_k", VNum (Config.DEFAULT_TOP_K c));
        ("collection", VStr (Config.DEFAULT_COLLECTION c));
        ("force_rebuild", VBool (Config.FORCE_REBUILD c));
        ("use_reranking", VBool (Config.USE_RERANKING c));
        ("use_query_rewriting", VBool (Config.USE_QUERY_REWRITING c))].

(** ** Saving the configuration panel (ConfigurationPanel.tsx) *)

Module Panel.
Record state := mk {
  currentDefault : string;
  collectionName : string;
  currentTopK : number;
  topK : string;
  currentUseReranking : bool;
  useReranking : bool;
  currentUseQueryRewriting : bool;
  useQueryRewriting : bool;
  currentForceRebuild : bool;
  forceRebuild : bool;
  currentInitialMessage : string;
  initialMessage : string;
  currentDescription : string;
  description : string;
  currentInputPlaceholder : string;
  inputPlaceholder : string;
  currentProjectName : string;
  projectName : string;
  currentTheme : ThemeKey;
  selectedTheme : ThemeKey;
  savedThemeRef : ThemeKey;
  collections : list string;
  isSaving : bool
}.
End Panel.

(** [Number.isInteger] *)
Definition Number_isInteger (n : number) : bool :=
  match n with
  | Finite q => Qeq_bool (inject_Z (Qfloor q)) q
  | _ => false
  end.

(** [a <= b] *)
Definition number_le (a b : number) : bool := number_ge b a.

(** [a !== b] on numbers. *)
Definition number_differs (a b : number) : bool :=
  match a, b with
  | Finite p, Finite q => negb (Qeq_bool p q)
  | Infinity s, Infinity t => negb (eqb s t)
  | _, _ => true
  end.

Section Save.
Context `{Runtime}.

(** [hasChanges] *)
Definition hasChanges (p : Panel.state) : bool :=
  let trimmedCollection := trim (Panel.collectionName p) in
  let parsedTopK := StringToNumber (Panel.topK p) in
  negb (string_eqb trimmedCollection (Panel.currentDefault p))
  || number_differs parsedTopK (Panel.currentTopK p)
  || negb (eqb (Panel.useReranking p) (Panel.currentUseReranking p))
  || negb (eqb (Panel.useQueryRewriting p) (Panel.currentUseQueryRewriting p))
  || negb (eqb (Panel.forceRebuild p) (Panel.currentForceRebuild p))
  || negb (string_eqb (Panel.initialMessage p) (Panel.currentInitialMessage p))
  || negb (string_eqb (Panel.description p) (Panel.currentDescription p))
  || negb (string_eqb (Panel.inputPlaceholder p) (Panel.currentInputPlaceholder p))
  || negb (string_eqb (Panel.projectName p) (Panel.currentProjectName p))
  || negb (bool_decide (Panel.selectedTheme p = Panel.currentTheme p)).

(** The state of the panel after the setters of the [try] block that ran:
    all of them, or all before the ones of the theme. *)
Definition saved_panel (p : Panel.state) (trimmed : string) (parsedTopK : number)
    (theme_saved : bool) : Panel.state :=
  Panel.mk
    trimmed trimmed
    parsedTopK (NumberToString parsedTopK)
    (Panel.useReranking p) (Panel.useReranking p)
    (Panel.useQueryRewriting p) (Panel.useQueryRewriting p)
    (Panel.forceRebuild p) (Panel.forceRebuild p)
    (Panel.initialMessage p) (Panel.initialMessage p)
    (Panel.description p) (Panel.description p)
    (Panel.inputPlaceholder p) (Panel.inputPlaceholder p)
    (Panel.projectName p) (Panel.projectName p)
    (if theme_saved then Panel.selectedTheme p else Panel.currentTheme p)
    (Panel.selectedTheme p)
    (if theme_saved then Panel.selectedTheme p else Panel.savedThemeRef p)
    (Array_from_Set (trimmed :: Panel.collections p))
    false.

(** [handleSave]: the panel and the application state after it, and the
    notification it adds. *)
Definition handleSave (p : Panel.state) (a : app) : Panel.state * app * notification :=
  let trimmed := trim (Panel.collectionName p) in
  let parsedTopK := StringToNumber (Panel.topK p) in
  if negb (truthy (VStr trimmed)) then
    (p, a,
     error_notification "Colección requerida"
       "Debes ingresar un nombre de colección para guardar los cambios.")
  else if negb (COLLECTION_REGEX_test trimmed) then
    (p, a,
     error_notification "Formato inválido"
       "La colección solo puede contener letras, números, guiones y guiones bajos.")
  else if negb (Number_isInteger parsedTopK) || number_le parsedTopK (num 0) then
    (p, a,
     error_notification "Top K inválido"
       "El valor de Top K debe ser un número entero positivo.")
  else
    let a1 := setDefaultCollection trimmed a in
    let a2 := setDefaultTopK parsedTopK a1 in
    let a3 := setUseReranking (Panel.useReranking p) a2 in
    let a4 := setUseQueryRewriting (Panel.useQueryRewriting p) a3 in
    let a5 := setForceRebuild (Panel.forceRebuild p) a4 in
    let a6 := setInitialBotMessage (Panel.initialMessage p) a5 in
    let a7 := setDescription (Panel.description p) a6 in
    let a8 := setInputPlaceholder (Panel.inputPlaceholder p) a7 in
    let a9 := setProjectName (Panel.projectName p) a8 in
    let '(a10, thrown) := setActiveTheme (theme_name (Panel.selectedTheme p)) a9 in
    match thrown with
    | None =>
        (saved_panel p trimmed parsedTopK true, a10,
         {| n_type := success;
            n_title := "Configuración guardada";
            n_message :=
              VStr ("Parámetros actualizados. Colección por defecto: "
                    ++ dquote ++ trimmed ++ dquote ++ " • Top K: "
                    ++ NumberToString parsedTopK ++ " • Tema: "
                    ++ theme_name (Panel.selectedTheme p) ++ ".");
            n_processingId := None;
            n_autoClose := true;
            n_duration := Some 5000%Z |})
    | Some text =>
        (saved_panel p trimmed parsedTopK false, a10,
         error_notification "No se pudo guardar"
           (if truthy (VStr text) then text
            else "Ocurrió un error inesperado al guardar la configuración."))
    end.
End Save.

(** The decimal digits and the letters of a hexadecimal digit. *)
Definition hex_digit (upper : bool) (d : Z) : ascii :=
  ascii_of_N
    (Z.to_N (if d <? 10 then 48 + d else if upper then 55 + d else 87 + d)%Z).

(** The two digits of a channel, the six of a colour and the three of its
    short form. *)
Definition hex_byte (upper : bool) (v : Z) (rest : string) : string :=
  String (hex_digit upper (v / 16)%Z) (String (hex_digit upper (v mod 16)%Z) rest).

Definition hex_colour (upper : bool) (r g b : Z) : string :=
  String "#"%char (hex_byte upper r (hex_byte upper g (hex_byte upper b ""))).

Definition short_colour (upper : bool) (r g b : Z) : string :=
  String "#"%char
    (String (hex_digit upper r) (String (hex_digit upper g)
       (String (hex_digit upper b) ""))).

(** No code unit of the string is a hexadecimal digit. *)
Definition free_of_hex (s : string) : Prop :=
  string_Forall (λ a, hex_digit_value a = None) s.

(** The value the declarations give a property, the last one for it. *)
Fixpoint declared (name : string) (declarations : list (string * string))
    : option string :=
  match declarations with
  | [] => None
  | declaration :: rest =>
      match declared name rest with
      | Some value => Some value
      | None => if string_eqb declaration.1 name then Some declaration.2 else None
      end
  end.

(** The custom properties written by [applyTheme]. *)
Definition theme_property_names : list string :=
  ["--color-primary"; "--color-primary-hover"; "--color-primary-muted";
   "--color-primary-muted-hover"; "--color-primary-light";
   "--color-primary-gradient-from"; "--color-primary-gradient-to";
   "--color-primary-rgb"; "--tw-ring-color"].

(** A whole number above zero. *)
Definition positive_integer (n : number) : Prop :=
  match n with
  | Finite q => (0 < q)%Q ∧ (inject_Z (Qfloor q) == q)%Q
  | _ => False
  end.

(** The form of the panel passes the checks of [handleSave]. *)
Definition save_accepted `{Runtime} (p : Panel.state) : Prop :=
  valid_collection_name (trim (Panel.collectionName p)) ∧
  positive_integer (StringToNumber (Panel.topK p)).

(** A text of the configuration after a reload: the stored one, or the
    built-in one when an empty text was stored. *)
Definition text_or (stored builtin : string) : string :=
  if string_eqb stored "" then builtin else stored.

(** A panel and an application state to run the save on. *)
Definition panel_docs : Panel.state :=
  Panel.mk "manuales_collection" " docs_v2 " (num 5) "7"
    false true false false false true
    "Hola" "" "Curso" "Curso" "Escribe" "Pregunta" "Asistente" "Mi asistente"
    blue violet blue ["manuales_collection"] false.

Definition app_start : app :=
  mkApp (APP_CONFIG None) ∅ (mkDocument ∅ None None).

(** * Theorems *)

(** ** The status normaliser *)

Lemma is_upper_code a :
  is_upper a = true ↔ (65 ≤ N_of_ascii a ∧ N_of_ascii a ≤ 90)%N.
Proof.
  unfold is_upper. rewrite andb_true_iff, !N.leb_le. done.
Qed.

Lemma lower_char_code a :
  (65 ≤ N_of_ascii a ∧ N_of_ascii a ≤ 90)%N →
  N_of_ascii (lower_char a) = (N_of_ascii a + 32)%N.
Proof.
  intros Ha. unfold lower_char. rewrite (proj2 (is_upper_code a) Ha).
  apply N_ascii_embedding. lia.
Qed.

Lemma ascii_code_inj a b : N_of_ascii a = N_of_ascii b → a = b.
Proof.
  intros Hab. rewrite <- (ascii_N_embedding a), <- (ascii_N_embedding b).
  by rewrite Hab.
Qed.

Lemma lower_char_same_letter a c :
  lower_char c = c → lower_char a = c ↔ same_letter a c.
Proof.
  intros Hc. unfold same_letter. split.
  - intros Ha. destruct (is_upper a) eqn:Hu.
    + right; left. apply is_upper_code in Hu. destruct Hu as [Hlo Hhi].
      split; [done|]. split; [done|]. rewrite <- Ha. by apply lower_char_code.
    + left. unfold lower_char in Ha. by rewrite Hu in Ha.
  - intros [-> | [(Hlo & Hhi & Hcode) | (Hlo & Hhi & _)]].
    + done.
    + apply ascii_code_inj. rewrite Hcode. by apply lower_char_code.
    + exfalso. pose proof (lower_char_code c (conj Hlo Hhi)) as Hl.
      rewrite Hc in Hl. lia.
Qed.

Lemma toLowerCase_caseless s k :
  toLowerCase k = k → toLowerCase s = k ↔ caseless s k.
Proof.
  revert k. induction s as [|a s IH]; intros [|c k] Hk; simpl; try by split.
  simpl in Hk. injection Hk as Hc Hk.
  rewrite <- (IH k Hk), <- (lower_char_same_letter a c Hc).
  split; [by intros [= -> ->] | by intros [-> ->]].
Qed.

Lemma string_eqb_true a b : string_eqb a b = true ↔ a = b.
Proof. unfold string_eqb. apply bool_decide_eq_true. Qed.

Lemma string_eqb_false a b : string_eqb a b = false ↔ a ≠ b.
Proof. unfold string_eqb. apply bool_decide_eq_false. Qed.

Ltac settle_status st :=
  exists st; split; [reflexivity|];
  split; split; intros; try reflexivity; try discriminate;
  intuition (discriminate || congruence).

Ltac keyword_case E st :=
  apply string_eqb_true in E; rewrite E; settle_status st.

(** The normaliser on a string, in terms of the lowered text. *)
Lemma normalizeApiStatus_lowered s :
  ∃ st, normalizeApiStatus (VStr s) = Normal st ∧
    (st = completed ↔
       toLowerCase s = "completed" ∨ toLowerCase s = "finished" ∨ toLowerCase s = "done") ∧
    (st = error ↔
       toLowerCase s = "error" ∨ toLowerCase s = "failed"
       ∨ toLowerCase s = "failed_with_errors" ∨ toLowerCase s = "cancelled").
Proof.
  unfold normalizeApiStatus, includes. simpl truthy.
  destruct (string_eqb s "") eqn:Hs; simpl negb; cbv iota.
  - apply string_eqb_true in Hs as ->. simpl. settle_status in_progress.
  - simpl existsb.
    destruct (string_eqb (toLowerCase s) "completed") eqn:E1;
      [keyword_case E1 completed|].
    destruct (string_eqb (toLowerCase s) "finished") eqn:E2;
      [keyword_case E2 completed|].
    destruct (string_eqb (toLowerCase s) "done") eqn:E3;
      [keyword_case E3 completed|].
    destruct (string_eqb (toLowerCase s) "error") eqn:E4;
      [keyword_case E4 error|].
    destruct (string_eqb (toLowerCase s) "failed") eqn:E5;
      [keyword_case E5 error|].
    destruct (string_eqb (toLowerCase s) "failed_with_errors") eqn:E6;
      [keyword_case E6 error|].
    destruct (string_eqb (toLowerCase s) "cancelled") eqn:E7;
      [keyword_case E7 error|].
    apply string_eqb_false in E1, E2, E3, E4, E5, E6, E7.
    simpl. settle_status in_progress.
Qed.

(** C2: on an optional string the normaliser always returns, with one of
    the three statuses: [completed] exactly for the strings equal up to
    case to completed, finished or done, [error] exactly for those equal up
    to case to error, failed, failed_with_errors or cancelled, and
    [in_progress] for every other string, the empty one included, and for
    [null] and [undefined]. *)
Theorem normalizeApiStatus_total :
  normalizeApiStatus VUndefined = Normal in_progress ∧
  normalizeApiStatus VNull = Normal in_progress ∧
  normalizeApiStatus (VStr "") = Normal in_progress ∧
  ∀ s : string, ∃ st,
    normalizeApiStatus (VStr s) = Normal st ∧
    (st = completed ↔
       caseless s "completed" ∨ caseless s "finished" ∨ caseless s "done") ∧
    (st = error ↔
       caseless s "error" ∨ caseless s "failed"
       ∨ caseless s "failed_with_errors" ∨ caseless s "cancelled") ∧
    (st = in_progress ↔
       ¬ (caseless s "completed" ∨ caseless s "finished" ∨ caseless s "done"
          ∨ caseless s "error" ∨ caseless s "failed"
          ∨ caseless s "failed_with_errors" ∨ caseless s "cancelled")).
Proof.
  repeat split; try reflexivity.
  intros s. destruct (normalizeApiStatus_lowered s) as (st & Hst & Hc & He).
  rewrite (toLowerCase_caseless s "completed"), (toLowerCase_caseless s "finished"),
    (toLowerCase_caseless s "done") in Hc by reflexivity.
  rewrite (toLowerCase_caseless s "error"), (toLowerCase_caseless s "failed"),
    (toLowerCase_caseless s "failed_with_errors"),
    (toLowerCase_caseless s "cancelled") in He by reflexivity.
  exists st. split; [exact Hst|]. split; [exact Hc|]. split; [exact He|].
  destruct st; split; intros; try discriminate; try reflexivity.
  - intros Hk. destruct Hc as [_ Hc], He as [_ He].
    assert (in_progress = completed ∨ in_progress = error) as [|]; [|done..].
    intuition.
  - exfalso. apply H. destruct Hc as [Hc _]. specialize (Hc eq_refl). tauto.
  - exfalso. apply H. destruct He as [He _]. specialize (He eq_refl). tauto.
Qed.

(** The tokens listed by the specification. *)
Lemma normalizeApiStatus_examples :
  map normalizeApiStatus
      [VStr "completed"; VStr "finished"; VStr "done"; VStr "Completed"]
  = [Normal completed; Normal completed; Normal completed; Normal completed] ∧
  map normalizeApiStatus
      [VStr "error"; VStr "failed"; VStr "cancelled"; VStr "FAILED_WITH_ERRORS"]
  = [Normal error; Normal error; Normal error; Normal error] ∧
  map normalizeApiStatus [VNull; VStr ""; VStr "queued"; VStr "document_processing"]
  = [Normal in_progress; Normal in_progress; Normal in_progress; Normal in_progress].
Proof. repeat split; vm_compute; reflexivity. Qed.

(** Off the declared parameter type: a truthy value that is no string has
    no [toLowerCase], and the call throws. *)
Lemma normalizeApiStatus_not_a_string :
  normalizeApiStatus (VNum (num 7)) = Throw TypeError ∧
  normalizeApiStatus (VBool true) = Throw TypeError ∧
  normalizeApiStatus (VObj []) = Throw TypeError.
Proof. repeat split; vm_compute; reflexivity. Qed.

(** ** Persisting and loading the store *)

Lemma json_image_obj props : json_image (VObj props) = VObj (json_props props).
Proof. reflexivity. Qed.

Lemma json_props_cons k x r :
  json_props ((k, x) :: r)
  = match x with
    | VUndefined => json_props r
    | _ => (k, json_image x) :: json_props r
    end.
Proof. by destruct x. Qed.

Lemma assoc_absent k props :
  k ∉ map fst props → assoc k props = VUndefined.
Proof.
  induction props as [|[k' x] r IH]; [done|].
  simpl. intros Hk. apply not_elem_of_cons in Hk as [Hne Hk].
  unfold string_eqb. rewrite bool_decide_eq_false_2 by done. by apply IH.
Qed.

Lemma json_props_keys k props :
  k ∈ map fst (json_props props) → k ∈ map fst props.
Proof.
  induction props as [|[k' x] r IH]; [done|].
  rewrite json_props_cons. simpl.
  destruct x; simpl; rewrite ?elem_of_cons; intuition.
Qed.

(** Reading a property back from the stored image of an object. *)
Lemma assoc_json_props k props :
  NoDup (map fst props) →
  assoc k (json_props props) = json_prop (assoc k props).
Proof.
  induction props as [|[k' x] r IH]; [done|].
  simpl map. intros [Hk' Hr]%NoDup_cons.
  rewrite json_props_cons. simpl assoc.
  destruct (string_eqb k k') eqn:Hk.
  - apply string_eqb_true in Hk as ->.
    destruct x; simpl; unfold string_eqb; rewrite ?bool_decide_eq_true_2 by done;
      try done.
    apply assoc_absent. intros Hin. by apply Hk', json_props_keys.
  - destruct x; simpl; rewrite ?Hk; by apply IH.
Qed.

Lemma is_json_image : ∀ v, is_json v = true → json_image v = v.
Proof.
  fix IH 1. intros [| | b | n | s | items | props]; simpl; try done.
  - by intros ->.
  - intros Hall. f_equal. induction items as [|x r IHr]; [done|].
    simpl in *. apply andb_prop in Hall as [Hx Hr].
    f_equal; [by apply IH | by apply IHr].
  - intros Hall. change (VObj (json_props props) = VObj props). f_equal.
    induction props as [|[k x] r IHr]; [done|].
    simpl in Hall. apply andb_prop in Hall as [Hx Hr].
    rewrite json_props_cons, (IHr Hr). pose proof (IH x Hx) as Hi.
    destruct x; try done; by rewrite Hi.
Qed.

Lemma is_json_prop v : is_json v = true → json_prop v = v.
Proof. destruct v; try done; intros Hv; by apply is_json_image. Qed.

Section ConversionFacts.
Context `{Runtime}.

(** [String] converts exactly the convertible values, and throws a
    TypeError on the others. *)
Lemma ToString_convertible : ∀ v,
  (convertible v = true → ∃ text, ToString v = Normal text) ∧
  (convertible v = false → ToString v = Throw TypeError_conversion).
Proof.
  fix IH 1. intros [| | [] | n | t | items | props]; simpl;
    try (split; [by eexists | done]).
  - assert ((forallb (λ x, nullish x || convertible x) items = true →
             ∃ parts,
               (fix each (l : list value) : completion (list string) :=
                  match l with
                  | [] => Normal []
                  | x :: r =>
                      part ← (if nullish x then Normal "" else ToString x);
                      parts ← each r;
                      mret (part :: parts)
                  end) items = Normal parts) ∧
            (forallb (λ x, nullish x || convertible x) items = false →
             (fix each (l : list value) : completion (list string) :=
                match l with
                | [] => Normal []
                | x :: r =>
                    part ← (if nullish x then Normal "" else ToString x);
                    parts ← each r;
                    mret (part :: parts)
                end) items = Throw TypeError_conversion)) as [Hok Hthrow].
    { induction items as [|x r [IHok IHthrow]]; [split; [by eexists | done]|].
      simpl forallb. destruct (nullish x) eqn:Hx; simpl orb.
      - split.
        + intros (parts & ->)%IHok. by eexists.
        + intros ->%IHthrow. done.
      - destruct (IH x) as [Hc Hn]. destruct (convertible x); simpl andb.
        + destruct (Hc eq_refl) as [part ->]. split.
          * intros (parts & ->)%IHok. by eexists.
          * intros ->%IHthrow. done.
        + rewrite (Hn eq_refl). split; [done | by intros _]. }
    split.
    + intros (parts & ->)%Hok. by eexists.
    + intros ->%Hthrow. done.
  - destruct (has_own "toString" props); simpl; split; try done. by eexists.
Qed.

Lemma ToNumber_convertible v :
  (convertible v = true → ∃ n, ToNumber v = Normal n) ∧
  (convertible v = false → ToNumber v = Throw TypeError_conversion).
Proof.
  destruct (ToString_convertible v) as [Hok Hthrow].
  destruct v as [| | [] | n | t | items | props];
    try (split; [by eexists | done]).
  - unfold ToNumber. split.
    + intros (text & ->)%Hok. by eexists.
    + intros ->%Hthrow. done.
  - unfold ToNumber. split.
    + intros (text & ->)%Hok. by eexists.
    + intros ->%Hthrow. done.
Qed.

Lemma ToString_Normal v text : ToString v = Normal text → convertible v = true.
Proof.
  intros Hv. destruct (convertible v) eqn:E; [done|].
  destruct (ToString_convertible v) as [_ Hthrow]. by rewrite (Hthrow E) in Hv.
Qed.

Lemma ToNumber_Normal v n : ToNumber v = Normal n → convertible v = true.
Proof.
  intros Hv. destruct (convertible v) eqn:E; [done|].
  destruct (ToNumber_convertible v) as [_ Hthrow]. by rewrite (Hthrow E) in Hv.
Qed.
End ConversionFacts.

Section StoreFacts.
Context `{Runtime}.
Variable now : string.

Lemma get_stored_process p k :
  get (json_image (process_object p)) k
  = Normal (json_prop (get_opt (process_object p) k)).
Proof.
  unfold process_object. rewrite json_image_obj. unfold get, get_opt. f_equal.
  apply assoc_json_props. simpl. apply (bool_decide_unpack _). by vm_compute.
Qed.

Lemma normalizeApiStatus_status_name st :
  normalizeApiStatus (VStr (status_name st)) = Normal st.
Proof. by destruct st. Qed.

(** A record written by the persistence effect loads as [reloaded]. *)
Lemma load_item_stored p :
  load_item now (json_image (process_object p)) = Normal (reloaded now p).
Proof.
  unfold load_item. rewrite !get_stored_process.
  unfold process_object, get_opt. simpl.
  rewrite normalizeApiStatus_status_name. simpl.
  unfold reloaded. do 2 f_equal.
  by destruct (Number_isFinite (percentage p)) eqn:E; simpl; rewrite ?E.
Qed.

Lemma map_throwing_normal {A B} (f : A → completion B) (P : A → B → Prop) l :
  Forall (λ x, ∃ y, f x = Normal y ∧ P x y) l →
  ∃ ys, map_throwing f l = Normal ys ∧ Forall2 P l ys.
Proof.
  induction 1 as [|x r (y & Hy & HP) _ (ys & Hys & HPs)]; simpl.
  - by exists [].
  - exists (y :: ys). rewrite Hy. simpl. rewrite Hys. simpl.
    split; [done | by constructor].
Qed.

Lemma map_throwing_map {A B C} (h : A → B) (f : B → completion C) (g : A → C) l :
  (∀ x, f (h x) = Normal (g x)) → map_throwing f (map h l) = Normal (map g l).
Proof.
  intros Hf. induction l as [|x r IH]; [done|]. simpl.
  rewrite Hf. simpl. by rewrite IH.
Qed.

(** What comes back from storage after the persistence effect. *)
Lemma load_persist s :
  load now (persist s)
  = filter (λ item, has_id item = true) (map (reloaded now) s).
Proof.
  unfold persist. destruct s as [|p s]; [done|].
  change (length (p :: s) =? 0)%nat with false. cbv iota.
  generalize (p :: s). clear p s. intros s.
  unfold load, load_try.
  change (json_image (VArr (map process_object s)))
    with (VArr (map json_image (map process_object s))).
  cbv iota. rewrite List.map_map.
  by rewrite (map_throwing_map _ _ (reloaded now)) by apply load_item_stored.
Qed.

Lemma reloaded_well_formed p : well_formed p = true → reloaded now p = p.
Proof.
  unfold well_formed. rewrite !andb_true_iff.
  intros [[[[[[_ Hpct] Hstage] Hmsg] Hnid] Hupd] Hnn].
  destruct p as [pid cname url st pct stg msg nid upd]; simpl in *.
  unfold reloaded; simpl. rewrite Hpct.
  rewrite (is_json_prop stg), (is_json_prop msg), (is_json_prop upd) by done.
  f_equal.
  - by destruct stg.
  - by destruct msg.
  - destruct nid; try done; by rewrite is_json_prop.
  - by destruct upd.
Qed.

(** Persisting and loading a store of well-formed records gives the
    store back. *)
Lemma load_persist_well_formed s :
  Forall (λ p, well_formed p = true) s → load now (persist s) = s.
Proof.
  intros Hwf. rewrite load_persist.
  induction Hwf as [|p s Hp _ IH]; [done|].
  simpl. rewrite filter_cons, (reloaded_well_formed p Hp).
  unfold well_formed in Hp. rewrite !andb_true_iff in Hp.
  rewrite decide_True by tauto. by rewrite IH.
Qed.
Lemma get_not_nullish item k :
  nullish item = false → get item k = Normal (get_opt item k).
Proof. by destruct item. Qed.

(** The record built from a stored item on which nothing throws. *)
Lemma load_item_cleanly item :
  loads_cleanly item = true →
  ∃ p, load_item now item = Normal p ∧
       ToString (get_opt item "processingId") = Normal (processingId p) ∧
       normalizeApiStatus (get_opt item "status") = Normal (status p) ∧
       (truthy (get_opt item "status") = false → status p = in_progress) ∧
       ∃ n, ToNumber (get_opt item "percentage") = Normal n ∧
            percentage p = (if Number_isFinite n then n else num 0).
Proof.
  unfold loads_cleanly. rewrite !andb_true_iff, negb_true_iff.
  intros [[[[[Hitem Hstatus] Hpid] Hcname] Hurl] Hpct]. unfold load_item.
  rewrite !(get_not_nullish item) by done. simpl.
  destruct (proj1 (ToString_convertible _) Hpid) as [id_text Hid].
  assert (∃ text, ToString (coalesce (get_opt item "collectionName") (VStr ""))
                  = Normal text) as [collection_text Hc].
  { unfold coalesce.
    destruct (nullish (get_opt item "collectionName")); [by eexists|].
    by apply (proj1 (ToString_convertible _)). }
  assert (∃ text, ToString (coalesce (get_opt item "sourceUrl") (VStr ""))
                  = Normal text) as [url_text Hu].
  { unfold coalesce.
    destruct (nullish (get_opt item "sourceUrl")); [by eexists|].
    by apply (proj1 (ToString_convertible _)). }
  destruct (proj1 (ToNumber_convertible _) Hpct) as [n Hn].
  assert (∃ st, normalizeApiStatus (get_opt item "status") = Normal st ∧
                (truthy (get_opt item "status") = false → st = in_progress))
    as (st & Hst & Hfalsy).
  { apply orb_true_iff in Hstatus as [Hf%negb_true_iff | Hs].
    - exists in_progress. unfold normalizeApiStatus. by rewrite Hf.
    - destruct (get_opt item "status") as [| | | |t| |] eqn:E; try done.
      destruct (normalizeApiStatus_lowered t) as (st & Hst & _).
      exists st. split; [done|]. intros Hf.
      unfold normalizeApiStatus in Hst. rewrite Hf in Hst. simpl in Hst.
      by injection Hst. }
  rewrite Hid, Hc, Hu, Hst, Hn. simpl.
  eexists. split; [reflexivity|]. simpl. split; [done|]. split; [done|].
  split; [done|]. by exists n.
Qed.

Lemma normalizeApiStatus_throws v :
  truthy v = true → is_string v = false → normalizeApiStatus v = Throw TypeError.
Proof.
  intros Ht Hs. unfold normalizeApiStatus. rewrite Ht. by destruct v.
Qed.

(** A stored item that does not load cleanly makes the callback throw. *)
Lemma load_item_throws item :
  loads_cleanly item = false → ∃ e, load_item now item = Throw e.
Proof.
  unfold loads_cleanly, load_item. intros Hbad.
  destruct (nullish item) eqn:Hitem.
  { destruct item; try done; by eexists. }
  rewrite !(get_not_nullish item) by done. simpl in *.
  destruct (ToString_convertible (get_opt item "processingId")) as [Hok Hthrow].
  destruct (convertible (get_opt item "processingId"));
    [destruct (Hok eq_refl) as [id_text ->] | rewrite (Hthrow eq_refl); by eexists].
  clear Hok Hthrow. simpl.
  assert (convertible (coalesce (get_opt item "collectionName") (VStr ""))
          = convertible (get_opt item "collectionName")) as Hcc.
  { unfold coalesce. by destruct (get_opt item "collectionName"). }
  destruct (ToString_convertible (coalesce (get_opt item "collectionName") (VStr "")))
    as [Hok Hthrow]. rewrite Hcc in Hok, Hthrow.
  destruct (convertible (get_opt item "collectionName"));
    [destruct (Hok eq_refl) as [collection_text ->]
    | rewrite (Hthrow eq_refl); by eexists].
  clear Hok Hthrow Hcc. simpl.
  assert (convertible (coalesce (get_opt item "sourceUrl") (VStr ""))
          = convertible (get_opt item "sourceUrl")) as Hcc.
  { unfold coalesce. by destruct (get_opt item "sourceUrl"). }
  destruct (ToString_convertible (coalesce (get_opt item "sourceUrl") (VStr "")))
    as [Hok Hthrow]. rewrite Hcc in Hok, Hthrow.
  destruct (convertible (get_opt item "sourceUrl"));
    [destruct (Hok eq_refl) as [url_text ->]
    | rewrite (Hthrow eq_refl); by eexists].
  clear Hok Hthrow Hcc. simpl.
  destruct (truthy (get_opt item "status")) eqn:Ht;
    [destruct (is_string (get_opt item "status")) eqn:Hs|].
  - destruct (get_opt item "status") as [| | | |t| |] eqn:E; try done.
    destruct (normalizeApiStatus_lowered t) as (st & -> & _). simpl.
    simpl in Hbad.
    destruct (ToNumber_convertible (get_opt item "percentage")) as [_ Hthrow].
    rewrite (Hthrow Hbad). by eexists.
  - rewrite (normalizeApiStatus_throws _ Ht Hs). by eexists.
  - unfold normalizeApiStatus. rewrite Ht. simpl. simpl in Hbad.
    destruct (ToNumber_convertible (get_opt item "percentage")) as [_ Hthrow].
    rewrite (Hthrow Hbad). by eexists.
Qed.

Lemma map_throwing_throws {A B} (f : A → completion B) l x :
  x ∈ l → (∃ e, f x = Throw e) → ∃ e, map_throwing f l = Throw e.
Proof.
  intros Hx Hthrow. induction l as [|y l IH]; [by apply elem_of_nil in Hx|].
  simpl. apply elem_of_cons in Hx as [<-|Hx].
  - destruct Hthrow as [e ->]. by eexists.
  - destruct (f y) as [b|e]; simpl; [|by eexists].
    destruct (IH Hx) as [e ->]. by eexists.
Qed.

Lemma Forall2_elem_of_l {A B} (P : A → B → Prop) l k x :
  Forall2 P l k → x ∈ l → ∃ y, y ∈ k ∧ P x y.
Proof.
  induction 1 as [|a b l k Hab _ IH]; [by intros ?%elem_of_nil|].
  intros [->|Hx]%elem_of_cons.
  - exists b. split; [left | done].
  - destruct (IH Hx) as (y & Hy & HP). exists y. split; [by right | done].
Qed.
End StoreFacts.

(** With ids that are not empty, the jobs in progress after a reload are
    those in progress before it, by id and in the same order, whatever the
    other fields hold. *)
Lemma load_persist_active_ids `{Runtime} now s :
  Forall (λ p, has_id p = true) s →
  map processingId (listActive (load now (persist s)))
  = map processingId (listActive s).
Proof.
  intros Hids. rewrite load_persist. unfold listActive.
  induction Hids as [|p s Hp _ IH]; [done|].
  simpl. rewrite filter_cons, decide_True by done.
  rewrite !filter_cons. simpl.
  destruct (decide (status p = in_progress)); simpl; by rewrite IH.
Qed.

(** A reload changes no status: what is loaded has the id and the status
    of a process that was stored. *)
Lemma load_persist_status `{Runtime} now s p :
  p ∈ load now (persist s) →
  ∃ q, q ∈ s ∧ processingId q = processingId p ∧ status q = status p.
Proof.
  rewrite load_persist. intros [_ Hp]%list_elem_of_filter.
  apply list_elem_of_fmap in Hp as (q & -> & Hq). by exists q.
Qed.

(** C4, as the code has it: persisting a store of well-formed records and
    loading it back gives the same store, hence the same active jobs.  A
    stored array is loaded as a whole.  When each of its records can be
    read (it is neither [null] nor [undefined], its status is absent, falsy
    or a string, and [String] and [Number] convert its id, its collection,
    its URL and its percentage), every record whose id converts to a text
    that is not empty is kept under that id, its status normalised
    ([in_progress] when absent, empty or unrecognised) and its percentage
    set to 0 when it does not convert to a finite number, and nothing else
    is loaded.  When one of its records cannot be read, nothing is loaded.
    The load always answers with a list, the empty one when there is no
    item or when the text is empty, unparseable or not an array. *)
Theorem load_persist_roundtrip `{Runtime} (now : string) :
  (∀ s, Forall (λ p, well_formed p = true) s →
        load now (persist s) = s ∧
        listActive (load now (persist s)) = listActive s) ∧
  (∀ items,
      Forall (λ it, loads_cleanly it = true) items →
      (∀ item id,
          item ∈ items →
          ToString (get_opt item "processingId") = Normal id → id ≠ "" →
          ∃ p, p ∈ load now (Json (VArr items)) ∧
               processingId p = id ∧
               normalizeApiStatus (get_opt item "status") = Normal (status p) ∧
               (truthy (get_opt item "status") = false → status p = in_progress) ∧
               ∃ n, ToNumber (get_opt item "percentage") = Normal n ∧
                    (Number_isFinite n = true → percentage p = n) ∧
                    (Number_isFinite n = false → percentage p = num 0)) ∧
      (∀ p, p ∈ load now (Json (VArr items)) →
            processingId p ≠ "" ∧
            ∃ item, item ∈ items ∧
                    ToString (get_opt item "processingId") = Normal (processingId p))) ∧
  (∀ items item,
      item ∈ items → loads_cleanly item = false →
      load now (Json (VArr items)) = []) ∧
  (load now NoItem = [] ∧ load now EmptyText = [] ∧ load now Unparseable = [] ∧
   ∀ v, Array_isArray v = false → load now (Json v) = []).
Proof.
  split; [|split; [|split]].
  - intros s Hs. by rewrite load_persist_well_formed.
  - intros items Hitems.
    destruct (map_throwing_normal (load_item now)
                (λ it p,
                   ToString (get_opt it "processingId") = Normal (processingId p) ∧
                   normalizeApiStatus (get_opt it "status") = Normal (status p) ∧
                   (truthy (get_opt it "status") = false → status p = in_progress) ∧
                   ∃ n, ToNumber (get_opt it "percentage") = Normal n ∧
                        percentage p = (if Number_isFinite n then n else num 0))
                items) as (ys & Hys & Hall).
    { eapply Forall_impl; [exact Hitems|]. intros it Hit.
      by apply load_item_cleanly. }
    unfold load, load_try. rewrite Hys. simpl. split.
    + intros item id Hitem Hid Hne.
      destruct (Forall2_elem_of_l _ _ _ _ Hall Hitem)
        as (p & Hp & Hpid & Hst & Hf & n & Hn & Hpct).
      rewrite Hid in Hpid. injection Hpid as ->.
      exists p. split.
      { apply list_elem_of_filter. split; [|done].
        unfold has_id. by apply negb_true_iff, string_eqb_false. }
      split; [done|]. split; [done|]. split; [done|].
      exists n. split; [done|]. rewrite Hpct. split; intros ->; done.
    + intros p [Hid Hp]%list_elem_of_filter. split.
      { unfold has_id in Hid. by apply negb_true_iff, string_eqb_false in Hid. }
      apply Forall2_flip in Hall.
      destruct (Forall2_elem_of_l _ _ _ _ Hall Hp) as (item & Hitem & Hpid & _).
      by exists item.
  - intros items item Hitem Hbad. unfold load, load_try.
    destruct (map_throwing_throws (load_item now) items item Hitem
                (load_item_throws now item Hbad)) as [e ->].
    done.
  - repeat split; try done. by intros [].
Qed.

(** The theorem at a store of two jobs and at a stored array of two
    records, the second without status and with a percentage that is no
    number. *)
Lemma load_persist_roundtrip_witness :
  @load decimal_runtime "now" (persist [job_abc123; job_xyz789])
  = [job_abc123; job_xyz789] ∧
  ∃ p, p ∈ @load decimal_runtime "now"
             (Json (VArr [json_image (process_object job_abc123);
                          VObj [("processingId", VStr "b"); ("percentage", VStr "n/a")]])) ∧
       processingId p = "b" ∧ status p = in_progress ∧ percentage p = num 0.
Proof.
  split.
  - apply (proj1 (@load_persist_roundtrip decimal_runtime "now")).
    repeat constructor.
  - destruct (proj1 (proj1 (proj2 (@load_persist_roundtrip decimal_runtime "now"))
                       [json_image (process_object job_abc123);
                        VObj [("processingId", VStr "b"); ("percentage", VStr "n/a")]]
                       ltac:(repeat constructor))
                (VObj [("processingId", VStr "b"); ("percentage", VStr "n/a")]) "b")
      as (p & Hp & Hid & _ & Hst & n & Hn & _ & Hpct).
    + right. left.
    + reflexivity.
    + discriminate.
    + exists p. split; [exact Hp|]. split; [exact Hid|].
      split; [apply Hst; reflexivity|].
      injection Hn as <-. apply Hpct. reflexivity.
Defined.

(** C4 as stated fails: a stored record whose status is a number (truthy,
    not a string) is not defaulted to [in_progress]; the exception it
    raises is caught around the whole load, which then answers with the
    empty list, so the well-formed record stored next to it is lost too. *)
Lemma load_malformed_status_counterexample :
  @load decimal_runtime "now"
    (Json (VArr [json_image (process_object job_abc123);
                 VObj [("processingId", VStr "b"); ("status", VNum (num 7));
                       ("percentage", VNum (num 10))]])) = [] ∧
  @load decimal_runtime "now"
    (Json (VArr [json_image (process_object job_abc123)])) = [job_abc123] ∧
  ¬ ∃ p, p ∈ @load decimal_runtime "now"
               (Json (VArr [json_image (process_object job_abc123);
                            VObj [("processingId", VStr "b"); ("status", VNum (num 7));
                                  ("percentage", VNum (num 10))]])) ∧
         processingId p = "b" ∧ status p = in_progress.
Proof.
  split; [reflexivity|]. split; [reflexivity|].
  intros (p & Hp & _). change (p ∈ @nil UploadProcess) in Hp.
  by apply elem_of_nil in Hp.
Qed.

(** A [null] among the stored records has the same effect. *)
Lemma load_null_record :
  @load decimal_runtime "now"
    (Json (VArr [json_image (process_object job_abc123); VNull])) = [].
Proof. reflexivity. Qed.

(** ** The store operations *)

Lemma ids_filter_subset (P : UploadProcess → Prop) `{∀ x, Decision (P x)} s k :
  k ∈ ids (filter P s) → k ∈ ids s.
Proof.
  unfold ids. induction s as [|p s IH]; [done|].
  rewrite filter_cons. simpl. destruct (decide (P p)); simpl;
    rewrite ?elem_of_cons; intuition.
Qed.

Lemma ids_filter_NoDup (P : UploadProcess → Prop) `{∀ x, Decision (P x)} s :
  NoDup (ids s) → NoDup (ids (filter P s)).
Proof.
  unfold ids. induction s as [|p s IH]; [done|].
  simpl. intros [Hp Hs]%NoDup_cons. rewrite filter_cons.
  destruct (decide (P p)); simpl; [|by apply IH].
  apply NoDup_cons. split; [|by apply IH].
  intros Hin. by apply Hp, (ids_filter_subset P).
Qed.

Lemma ids_remove processId s : processId ∉ ids (remove processId s).
Proof.
  unfold ids, remove. induction s as [|p s IH]; [by intros ?%elem_of_nil|].
  rewrite filter_cons. destruct (decide (processingId p ≠ processId)); simpl;
    rewrite ?not_elem_of_cons; intuition.
Qed.


Lemma ids_apply_updates updates s : ids (apply_updates updates s) = ids s.
Proof.
  unfold ids, apply_updates. induction s as [|p s IH]; [done|].
  simpl. rewrite IH. by destruct (updates !! processingId p).
Qed.




Lemma add_NoDup newProcess s : NoDup (ids s) → NoDup (ids (add newProcess s)).
Proof.
  intros Hs. unfold add. unfold ids at 1. simpl. apply NoDup_cons. split.
  - apply (ids_remove (processingId newProcess) s).
  - by apply ids_filter_NoDup.
Qed.





(** The late answers of a tick never bring a removed job back: whatever the
    requests answer, the merge at the end of the tick leaves the ids of the
    store as they are. *)
Lemma late_update_discarded `{Runtime} now server snapshot processId s :
  processId ∉ ids s →
  processId ∉ ids (apply_updates (collect now server snapshot).1 s).
Proof. by rewrite ids_apply_updates. Qed.



(** ** One tick *)

Section TickFacts.
Context `{Runtime}.

Lemma poll_catch_status now p msg : u_status (poll_catch now p msg).1 = None.
Proof. reflexivity. Qed.








Lemma collect_snoc now server l x :
  collect now server (l ++ [x])
  = (<[processingId x := (poll_one now x (server (processingId x))).1]>
       (collect now server l).1,
     (collect now server l).2 ++ (poll_one now x (server (processingId x))).2).
Proof. unfold collect. by rewrite foldl_app. Qed.

(** The entry of [updates] under an id comes from a polled process with
    that id and from the answer to the request for that id. *)
Lemma collect_lookup_inv now server active k u :
  (collect now server active).1 !! k = Some u →
  ∃ p, p ∈ active ∧ processingId p = k ∧ u = (poll_one now p (server k)).1.
Proof.
  induction active as [|x l IH] using rev_ind; [done|].
  rewrite collect_snoc. simpl. rewrite lookup_insert.
  destruct (decide (processingId x = k)) as [<-|Hne].
  - intros [= <-]. exists x. split; [|done]. apply elem_of_app. right. left.
  - intros (p & Hp & Hk & Hu)%IH. exists p.
    split; [|done]. apply elem_of_app. by left.
Qed.

(** Every polled process has an entry in [updates]. *)
Lemma collect_lookup now server active p :
  p ∈ active → is_Some ((collect now server active).1 !! processingId p).
Proof.
  induction active as [|x l IH] using rev_ind; [by intros ?%elem_of_nil|].
  rewrite collect_snoc. simpl. rewrite lookup_insert.
  destruct (decide (processingId x = processingId p)); [done|].
  intros [Hp|Hp%list_elem_of_singleton]%elem_of_app; [by apply IH|].
  by subst.
Qed.

(** What each polled process does besides its update is in the log. *)
Lemma collect_effects now server active p e :
  p ∈ active → e ∈ (poll_one now p (server (processingId p))).2 →
  e ∈ (collect now server active).2.
Proof.
  induction active as [|x l IH] using rev_ind; [by intros ?%elem_of_nil|].
  rewrite collect_snoc. simpl.
  intros [Hp|Hp%list_elem_of_singleton]%elem_of_app He; apply elem_of_app.
  - left. by apply IH.
  - right. by subst.
Qed.

Lemma status_merge item u :
  status (merge item u) = default (status item) (u_status u).
Proof. reflexivity. Qed.

Lemma elem_of_listActive p s :
  p ∈ listActive s ↔ status p = in_progress ∧ p ∈ s.
Proof.
  unfold listActive.
  apply (list_elem_of_filter (λ item, status item = in_progress)).
Qed.

(** When a job in progress has another id than [__proto__], [updates] has
    an own property and the tick ends with the merge. *)
Lemma tick_merged now server s p :
  p ∈ listActive s → processingId p ≠ "__proto__" →
  tick now server s = apply_updates (collect now server (listActive s)).1 s.
Proof.
  intros Hp Hid. unfold tick, pollStatuses.
  destruct (length (listActive s) =? 0)%nat eqn:Hlen.
  { apply Nat.eqb_eq, nil_length_inv in Hlen. rewrite Hlen in Hp.
    by apply elem_of_nil in Hp. }
  cbn [fst].
  destruct (0 <? size (delete "__proto__" (collect now server (listActive s)).1))%nat
    eqn:Hsize; [done|].
  apply Nat.ltb_ge in Hsize.
  assert (delete "__proto__" (collect now server (listActive s)).1 = ∅) as Hempty.
  { apply map_size_empty_iff. lia. }
  destruct (collect_lookup now server _ _ Hp) as [u Hu].
  assert (delete "__proto__" (collect now server (listActive s)).1 !! processingId p
          = Some u) as Hlook by (by rewrite lookup_delete_ne).
  by rewrite Hempty, lookup_empty in Hlook.
Qed.

(** When every job in progress has the id [__proto__], [updates] has no
    own property and the tick leaves the store as it is. *)
Lemma tick_unmerged now server s :
  (∀ p, p ∈ listActive s → processingId p = "__proto__") →
  tick now server s = s.
Proof.
  intros Hall. unfold tick, pollStatuses.
  destruct (length (listActive s) =? 0)%nat; [done|]. cbn [fst].
  assert (delete "__proto__" (collect now server (listActive s)).1 = ∅) as ->.
  { apply map_eq. intros k. rewrite lookup_empty.
    destruct (decide ("__proto__" = k)) as [<-|Hk]; [apply lookup_delete_eq|].
    rewrite lookup_delete_ne by done.
    destruct (_ !! k) as [u|] eqn:Hu; [|done].
    apply collect_lookup_inv in Hu as (p & Hp & Hid & _).
    by rewrite (Hall p Hp) in Hid. }
  by rewrite map_size_empty.
Qed.

Lemma tick_cases now server s :
  (tick now server s = s ∧ ∀ p, p ∈ listActive s → processingId p = "__proto__") ∨
  tick now server s = apply_updates (collect now server (listActive s)).1 s.
Proof.
  destruct (decide (Forall (λ p, processingId p = "__proto__") (listActive s)))
    as [Hall|Hsome].
  - left. rewrite Forall_forall in Hall. split; [|done]. by apply tick_unmerged.
  - right. apply not_Forall_Exists in Hsome; [|apply _].
    apply Exists_exists in Hsome as (p & Hp & Hid). by eapply tick_merged.
Qed.

(** Where an entry of the store after a tick comes from. *)
Lemma tick_entry now server s i job' :
  tick now server s !! i = Some job' →
  ∃ job, s !! i = Some job ∧
         (job' = job ∨
          ∃ p, p ∈ listActive s ∧ processingId p = processingId job ∧
               job' = merge job (poll_one now p (server (processingId job))).1).
Proof.
  destruct (tick_cases now server s) as [[-> _]| ->].
  { intros Hi. exists job'. split; [done | by left]. }
  unfold apply_updates. rewrite list_lookup_fmap.
  destruct (s !! i) as [job|]; [|done]. simpl.
  intros [= <-]. exists job. split; [done|].
  destruct (_ !! processingId job) as [u|] eqn:Hu; [|by left].
  apply collect_lookup_inv in Hu as (p & Hp & Hid & ->). right. by exists p.
Qed.



End TickFacts.




(** A status field that is truthy and no string makes the normaliser throw
    inside the [try] block, before the success flag is looked at: the
    response is then handled as a failed request, and the job stays in
    progress. *)
Lemma poll_status_not_a_string :
  map status
      (@tick decimal_runtime "now"
         (λ _, FetchJson (VObj [("success", VBool false); ("status", VNum (num 404))]))
         [job_abc123])
  = [in_progress].
Proof. reflexivity. Qed.

(** A percentage that [Number] does not convert, such as an object with a
    [toString] property, makes the conversion throw at the head of the
    [try] block: the response is handled as a failed request, the job
    stays in progress with its percentage, and a warning is added,
    whatever status the response carries. *)
Lemma poll_percentage_not_convertible :
  let data := VObj [("status", VStr "completed");
                    ("data", VObj [("progress",
                       VObj [("percentage", VObj [("toString", VNum (num 0))])])])] in
  map (λ p, (status p, percentage p))
      (@tick decimal_runtime "now" (λ _, FetchJson data) [job_abc123])
  = [(in_progress, num 0)] ∧
  (@pollStatuses decimal_runtime "now" (λ _, FetchJson data) [job_abc123]).2
  = [AddNotification
       {| n_type := warning;
          n_title := "Error de Red";
          n_message :=
            VStr "No se pudo verificar el estado del procesamiento: Cannot convert object to primitive value";
          n_processingId := Some "abc123";
          n_autoClose := false;
          n_duration := None |}].
Proof. split; reflexivity. Qed.

(** Under the id [__proto__] the update becomes the prototype of
    [updates] and is no own property.  When no other job is polled,
    [updates] has no key and nothing is merged: the job stays in progress
    although the bridge has fired.  Beside another polled job the merge
    runs and reads the update through the prototype. *)
Lemma poll_proto_id :
  let job := mkProcess "__proto__" "docs_1" "https://ex.com/doc.pdf" in_progress
               (num 0) VNull VNull (VStr "notification-2") (VStr "earlier") in
  let server := λ _ : string, FetchJson (VObj [("status", VStr "completed")]) in
  @tick decimal_runtime "now" server [job] = [job] ∧
  is_update <$> (@pollStatuses decimal_runtime "now" server [job]).2 = [true; false] ∧
  map (λ p, (processingId p, status p))
      (@tick decimal_runtime "now" server [job; job_abc123])
  = [("__proto__", completed); ("abc123", completed)].
Proof. repeat split; reflexivity. Qed.

(** The scenario of the specification: a first poll answers
    document_processing at 42 percent, a second one completed. *)
Lemma poll_scenario :
  let first := VObj [("status", VStr "document_processing");
                     ("data", VObj [("progress", VObj [("percentage", VNum (num 42))])])] in
  let second := VObj [("status", VStr "completed")] in
  let after_first :=
    (@tick decimal_runtime "t1" (λ _, FetchJson first) [job_abc123]) in
  let after_second :=
    (@tick decimal_runtime "t2" (λ _, FetchJson second) after_first) in
  map (λ p, (processingId p, status p, percentage p)) after_first
  = [("abc123", in_progress, num 42)] ∧
  map (λ p, (processingId p, status p, percentage p)) after_second
  = [("abc123", completed, num 100)] ∧
  listActive after_second = [].
Proof. repeat split; reflexivity. Qed.

(** C7, as the code has it: when the request for an in-progress job fails,
    the tick leaves the job's status at [in_progress], so that the job is
    in the active set of the next tick, does not touch the notification
    the job is linked to, and adds a new notification of type warning that
    carries the message of the network error and the id of the job.  That
    notification does not close by itself: it is added with [autoClose]
    false and no duration. *)
Theorem transport_failure_keeps_job `{Runtime} (now : string)
    (server : string → fetch_result) (s : list UploadProcess) (i : nat)
    (job : UploadProcess) (msg : string) :
  s !! i = Some job →
  status job = in_progress →
  server (processingId job) = FetchFailed msg →
  (∃ job', tick now server s !! i = Some job' ∧
           processingId job' = processingId job ∧
           status job' = in_progress ∧
           notificationId job' = notificationId job ∧
           job' ∈ listActive (tick now server s)) ∧
  AddNotification
    {| n_type := warning;
       n_title := "Error de Red";
       n_message :=
         VStr ("No se pudo verificar el estado del procesamiento: " ++ msg);
       n_processingId := Some (processingId job);
       n_autoClose := false;
       n_duration := None |}
  ∈ (pollStatuses now server s).2.
Proof.
  intros Hi Hact Hserver.
  assert (job ∈ listActive s) as Hjob.
  { apply elem_of_listActive. split; [done|]. by eapply list_elem_of_lookup_2. }
  split.
  - destruct (tick now server s !! i) as [job'|] eqn:Hjob'.
    2:{ apply lookup_ge_None in Hjob'. apply lookup_lt_Some in Hi.
        unfold tick, pollStatuses in Hjob'.
        destruct (length (listActive s) =? 0)%nat; cbn [fst] in Hjob'; [lia|].
        destruct (0 <? _)%nat; [|lia].
        unfold apply_updates in Hjob'. rewrite length_map in Hjob'. lia. }
    exists job'. split; [done|].
    apply tick_entry in Hjob' as Hentry.
    destruct Hentry as (job0 & Hjob0 & Hcase).
    rewrite Hi in Hjob0. injection Hjob0 as <-.
    assert (processingId job' = processingId job ∧ status job' = in_progress ∧
            notificationId job' = notificationId job) as (Hid & Hst & Hnid).
    { destruct Hcase as [->|(p & _ & _ & ->)]; [done|].
      rewrite Hserver. by rewrite status_merge. }
    split; [done|]. split; [done|]. split; [done|].
    apply elem_of_listActive. split; [done|]. by eapply list_elem_of_lookup_2.
  - unfold pollStatuses.
    destruct (length (listActive s) =? 0)%nat eqn:Hlen.
    { apply Nat.eqb_eq, nil_length_inv in Hlen. rewrite Hlen in Hjob.
      by apply elem_of_nil in Hjob. }
    simpl. apply (collect_effects now server _ job); [done|].
    rewrite Hserver. simpl. left.
Qed.

(** The theorem at the job of the scenario, the request failing with
    "Failed to fetch". *)
Lemma transport_failure_keeps_job_witness :
  (∃ job', @tick decimal_runtime "now" (λ _, FetchFailed "Failed to fetch")
             [job_abc123] !! 0%nat = Some job' ∧
           status job' = in_progress) ∧
  (@pollStatuses decimal_runtime "now" (λ _, FetchFailed "Failed to fetch") [job_abc123]).2
  = [AddNotification
       {| n_type := warning;
          n_title := "Error de Red";
          n_message :=
            VStr "No se pudo verificar el estado del procesamiento: Failed to fetch";
          n_processingId := Some "abc123";
          n_autoClose := false;
          n_duration := None |}].
Proof.
  split; [|reflexivity].
  destruct (@transport_failure_keeps_job decimal_runtime "now"
              (λ _, FetchFailed "Failed to fetch") [job_abc123] 0%nat job_abc123
              "Failed to fetch" eq_refl eq_refl eq_refl)
    as [(job' & Hjob' & _ & Hst & _) _].
  exists job'. split; [exact Hjob' | exact Hst].
Defined.

(** C7 as stated fails: the notification of a failed request is not
    ephemeral.  At the job of the scenario the tick adds one notification,
    and it is none that closes by itself. *)
Lemma transport_failure_persistent_counterexample :
  (∃ n, (@pollStatuses decimal_runtime "now" (λ _, FetchFailed "Failed to fetch")
           [job_abc123]).2 = [AddNotification n] ∧
        n_type n = warning ∧ n_autoClose n = false ∧ n_duration n = None) ∧
  ¬ ∃ n, AddNotification n
           ∈ (@pollStatuses decimal_runtime "now" (λ _, FetchFailed "Failed to fetch")
                [job_abc123]).2 ∧
         ephemeral n.
Proof.
  split.
  - eexists. split; [reflexivity|]. done.
  - intros (n & Hn & Heph).
    change (AddNotification n
            ∈ [AddNotification
                 (mkNotification warning "Error de Red"
                    (VStr "No se pudo verificar el estado del procesamiento: Failed to fetch")
                    (Some "abc123") false None)]) in Hn.
    apply list_elem_of_singleton in Hn. injection Hn as ->. discriminate Heph.
Qed.

(** ** The rendered percentage *)

Lemma number_ge_finite a b : number_ge (Finite a) (Finite b) = Qle_bool b a.
Proof. simpl. by rewrite negb_involutive. Qed.

Lemma bar_finite p q :
  percentage p = Finite q →
  bar_percentage p = if Qle_bool q 100 then Finite q else num 100.
Proof.
  intros Hq. unfold bar_percentage. rewrite Hq. simpl.
  unfold inject_Z. by destruct (Qle_bool q (100 # 1)).
Qed.

Lemma toFixed0_100 : toFixed0 (num 100) = num 100.
Proof. reflexivity. Qed.

Lemma Qle_bool_inject a b : (a <= b)%Z → Qle_bool (inject_Z a) (inject_Z b) = true.
Proof. intros Hab. apply Qle_bool_iff. by rewrite <- Zle_Qle. Qed.

(** Rounding a finite value that is at most 100 gives at most 100. *)
Lemma toFixed0_le_100 q :
  Qle_bool q 100 = true → number_ge (num 100) (toFixed0 (Finite q)) = true.
Proof.
  intros Hq. unfold toFixed0, num.
  destruct (Qabs_lt_bool q (inject_Z (10 ^ 21))); [|by rewrite number_ge_finite].
  apply Qle_bool_iff in Hq.
  destruct (Qle_bool 0 q) eqn:H0; rewrite number_ge_finite;
    apply Qle_bool_inject.
  - change 100%Z with (Qfloor (100 + (1 # 2))). apply Qfloor_resp_le.
    by apply Qplus_le_l.
  - assert (¬ (0 <= q)%Q) as Hneg by (by rewrite <- Qle_bool_iff, H0).
    assert (0 <= Qfloor (- q + (1 # 2)))%Z; [|lia].
    change 0%Z with (Qfloor 0). apply Qfloor_resp_le.
    apply Qnot_le_lt in Hneg.
    apply Qle_trans with (- q)%Q.
    + apply (Qopp_le_compat q 0). by apply Qlt_le_weak.
    + rewrite <- (Qplus_0_r (- q)) at 1. by apply Qplus_le_r.
Qed.

(** Rounding a finite value that is at least 0 gives at least 0. *)
Lemma toFixed0_ge_0 q :
  Qle_bool 0 q = true → number_ge (toFixed0 (Finite q)) (num 0) = true.
Proof.
  intros Hq. unfold toFixed0, num. rewrite Hq.
  destruct (Qabs_lt_bool q (inject_Z (10 ^ 21))); [|by rewrite number_ge_finite].
  rewrite number_ge_finite. apply Qle_bool_inject.
  change 0%Z with (Qfloor 0). apply Qfloor_resp_le.
  apply Qle_bool_iff in Hq. apply Qle_trans with q; [done|].
  rewrite <- (Qplus_0_r q) at 1. by apply Qplus_le_r.
Qed.

(** C3, as the code has it: the bar and the label show
    [Math.min(percentage, 100)], which is never above 100; a percentage
    above 100 is shown as 100, and a percentage that is not negative is
    shown, in the bar and rounded in the label, within 0 and 100.  There is
    no lower bound: a negative percentage is shown in the bar as it is. *)
Theorem rendered_percentage_at_most_100 (job : UploadProcess) :
  percentage job ≠ NaN →
  number_ge (num 100) (bar_percentage job) = true ∧
  number_ge (num 100) (label_percentage job) = true ∧
  (number_gt (percentage job) (num 100) = true →
   bar_percentage job = num 100 ∧ label_percentage job = num 100) ∧
  (number_ge (percentage job) (num 0) = true →
   within_0_100 (bar_percentage job) = true ∧
   within_0_100 (label_percentage job) = true) ∧
  (number_lt (percentage job) (num 0) = true →
   bar_percentage job = percentage job).
Proof.
  intros Hnan. unfold label_percentage, within_0_100.
  change (Math_min (percentage job) (num 100)) with (bar_percentage job).
  destruct (percentage job) as [|[]|q] eqn:Hpct; [done| | |].
  - (* minus infinity *)
    assert (bar_percentage job = Infinity true) as ->.
    { unfold bar_percentage. by rewrite Hpct. }
    by repeat split.
  - (* plus infinity *)
    assert (bar_percentage job = num 100) as ->.
    { unfold bar_percentage. by rewrite Hpct. }
    by repeat split.
  - rewrite (bar_finite job q Hpct).
    destruct (Qle_bool q 100) eqn:Hle.
    + assert (number_ge (num 100) (Finite q) = true) as H100.
      { unfold num. rewrite number_ge_finite. exact Hle. }
      split; [exact H100|]. split; [by apply toFixed0_le_100|]. split.
      { unfold number_gt, num. simpl.
        change (Qle_bool q (inject_Z 100)) with (Qle_bool q 100).
        by rewrite Hle. }
      split; [|done]. intros H0. rewrite H0, H100. split; [done|].
      unfold num in H0. rewrite number_ge_finite in H0.
      by rewrite toFixed0_ge_0, toFixed0_le_100.
    + rewrite toFixed0_100. repeat split; try done.
      simpl. intros Hneg%negb_true_iff. exfalso.
      assert (Qle_bool q 100 = true); [|congruence].
      apply Qle_bool_iff, Qlt_le_weak, Qlt_trans with 0%Q; [|done].
      apply Qnot_le_lt. intros H0%Qle_bool_iff.
      change (Qle_bool (inject_Z 0) q = true) in H0. congruence.
Qed.

(** The theorem at the 137 percent of the specification. *)
Lemma rendered_percentage_at_most_100_witness :
  bar_percentage (mkProcess "abc123" "docs_1" "" in_progress (num 137)
                    VNull VNull VUndefined VNull) = num 100 ∧
  label_percentage (mkProcess "abc123" "docs_1" "" in_progress (num 137)
                      VNull VNull VUndefined VNull) = num 100.
Proof.
  apply (rendered_percentage_at_most_100
           (mkProcess "abc123" "docs_1" "" in_progress (num 137)
              VNull VNull VUndefined VNull)).
  - discriminate.
  - reflexivity.
Defined.

(** C3 as stated fails below 0: when the server reports -5 percent for the
    job of the scenario, the tick stores -5, and the bar and the label show
    -5, which is not within 0 and 100. *)
Lemma rendered_negative_counterexample :
  let data :=
    VObj [("status", VStr "document_processing");
          ("data", VObj [("progress", VObj [("percentage", VNum (num (-5)))])])] in
  let shown := @tick decimal_runtime "now" (λ _, FetchJson data) [job_abc123] in
  map percentage shown = [num (-5)] ∧
  map bar_percentage shown = [num (-5)] ∧
  map label_percentage shown = [num (-5)] ∧
  map (λ p, within_0_100 (bar_percentage p)) shown = [false] ∧
  map (λ p, within_0_100 (label_percentage p)) shown = [false].
Proof. repeat split; reflexivity. Qed.

(** The percentages the code stores are never NaN. *)
Lemma number_or_zero_not_NaN (n : number) : number_or_zero n ≠ NaN.
Proof.
  unfold number_or_zero.
  by destruct n as [|[]|q]; simpl; [| | | destruct (Qeq_bool q 0)].
Qed.

Lemma stored_percentage_not_NaN `{Runtime} (data : value) (pct : number) :
  reported_percentage data = Normal pct → pct ≠ NaN.
Proof.
  unfold reported_percentage. destruct (ToNumber _) as [converted|e]; [|done].
  intros [= <-]. apply number_or_zero_not_NaN.
Qed.

(** ** The poller *)

Lemma hasActiveProcesses_listActive l :
  hasActiveProcesses l = true ↔ listActive l ≠ [].
Proof.
  unfold hasActiveProcesses, listActive. induction l as [|p l IH]; [done|].
  simpl. rewrite filter_cons. unfold is_active at 1.
  destruct (decide (status p = in_progress)) as [Hp|Hp].
  - rewrite bool_decide_eq_true_2 by done. done.
  - rewrite bool_decide_eq_false_2 by done. simpl. exact IH.
Qed.

Lemma hasActiveProcesses_length l :
  hasActiveProcesses l = false ↔ length (listActive l) = 0%nat.
Proof.
  rewrite <- not_true_iff_false, hasActiveProcesses_listActive.
  destruct (listActive l); simpl; split; try done.
  - intros _ Hne. by apply Hne.
  - intros Hn. exfalso. by apply Hn.
Qed.

Lemma clear_polling_follow c :
  timers_follow_effect c →
  pollingIntervalRef (clear_polling c) = None ∧ timers (clear_polling c) = [].
Proof.
  unfold timers_follow_effect, clear_polling. intros Hc.
  destruct (last_dep c) as [[]|].
  - destruct Hc as (id & Href & Htimers). rewrite Href. simpl. rewrite Htimers.
    rewrite filter_cons, decide_False by tauto. done.
  - destruct Hc as [Href Htimers]. by rewrite Href.
  - destruct Hc as [Href Htimers]. by rewrite Href.
Qed.

(** A render restores the agreement between the interval and the active
    processes, whether the effect runs or not. *)
Lemma commit_consistent baseUrl_changed c :
  timers_follow_effect c → poller_consistent (commit baseUrl_changed c).
Proof.
  intros Hc. unfold commit.
  destruct (negb baseUrl_changed
            && bool_decide (last_dep c = Some (hasActiveProcesses (processes c))))
    eqn:Hsame.
  - apply andb_true_iff in Hsame as [_ Hdep%bool_decide_eq_true]. by split.
  - clear Hsame.
    assert (pollingIntervalRef (effect_cleanup c) = None ∧
            timers (effect_cleanup c) = [] ∧
            processes (effect_cleanup c) = processes c) as (Href & Htimers & Hproc).
    { unfold effect_cleanup. pose proof (clear_polling_follow c Hc) as [? ?].
      unfold timers_follow_effect in Hc.
      destruct (last_dep c) as [[]|] eqn:Hdep.
      - repeat split; try done. unfold clear_polling. by destruct (pollingIntervalRef c).
      - by destruct Hc.
      - by destruct Hc. }
    unfold effect_body, poller_consistent, timers_follow_effect. rewrite Hproc.
    destruct (hasActiveProcesses (processes c)) eqn:Hhas; simpl.
    + rewrite Hhas, Htimers. split; [done|]. by eexists.
    + unfold clear_polling. rewrite Href. simpl. rewrite Hproc, Hhas. done.
Qed.

Lemma reachable_consistent c : reachable c → poller_consistent c.
Proof.
  induction 1 as [initial|e c _ [Hdep Hfollow]].
  - by apply commit_consistent.
  - destruct e as [updater|]; simpl; apply commit_consistent; [|done].
    unfold timers_follow_effect in *. done.
Qed.

Lemma poller_consistent_state c :
  poller_consistent c →
  (poller c = Polling ↔ hasActiveProcesses (processes c) = true) ∧
  timers c = match pollingIntervalRef c with Some id => [id] | None => [] end.
Proof.
  intros [Hdep Hfollow]. unfold timers_follow_effect in Hfollow.
  rewrite Hdep in Hfollow. unfold poller.
  destruct (hasActiveProcesses (processes c)).
  - destruct Hfollow as (id & -> & ->). by split.
  - destruct Hfollow as [-> ->]. by split.
Qed.

(** C8: in every state the mounted component reaches, an interval is alive
    exactly when some process is in progress, it is then the only one and
    the ref holds it; and over every step the poller goes from idle to
    polling exactly when the number of processes in progress goes from 0 to
    more than 0, and from polling to idle exactly when it goes back to 0. *)
Theorem poller_follows_active_set (c : component) (e : event) :
  reachable c →
  (poller c = Polling ↔ listActive (processes c) ≠ []) ∧
  (poller c = Idle ↔ length (listActive (processes c)) = 0%nat) ∧
  timers c = match pollingIntervalRef c with Some id => [id] | None => [] end ∧
  (poller c = Idle ∧ poller (step e c) = Polling ↔
   length (listActive (processes c)) = 0%nat ∧
   (0 < length (listActive (processes (step e c))))%nat) ∧
  (poller c = Polling ∧ poller (step e c) = Idle ↔
   (0 < length (listActive (processes c)))%nat ∧
   length (listActive (processes (step e c))) = 0%nat).
Proof.
  intros Hc.
  assert (∀ c, reachable c →
            (poller c = Polling ↔ (0 < length (listActive (processes c)))%nat) ∧
            (poller c = Idle ↔ length (listActive (processes c)) = 0%nat)) as Hstate.
  { intros c0 Hc0.
    destruct (poller_consistent_state c0 (reachable_consistent c0 Hc0)) as [Hp _].
    destruct (hasActiveProcesses (processes c0)) eqn:Hhas.
    - assert (poller c0 = Polling) as -> by (by apply Hp).
      apply hasActiveProcesses_listActive in Hhas.
      destruct (listActive (processes c0)); [done|]. simpl.
      split; split; (done || lia).
    - assert (poller c0 = Idle) as ->.
      { destruct (poller c0); [done|]. destruct Hp as [Hp _].
        by specialize (Hp eq_refl). }
      apply hasActiveProcesses_length in Hhas. rewrite Hhas.
      split; split; (done || lia). }
  destruct (Hstate c Hc) as [Hpol Hidle].
  destruct (Hstate (step e c) (reach_step e c Hc)) as [Hpol' Hidle'].
  destruct (poller_consistent_state c (reachable_consistent c Hc)) as [Hp Htimers].
  split; [by rewrite Hp, hasActiveProcesses_listActive|].
  split; [exact Hidle|]. split; [exact Htimers|].
  rewrite Hpol, Hidle, Hpol', Hidle'. done.
Qed.

(** The theorem over the removal of the only active job. *)
Lemma poller_follows_active_set_witness :
  poller (mount [job_abc123]) = Polling ∧
  poller (step (SetProcesses (remove "abc123")) (mount [job_abc123])) = Idle.
Proof.
  apply (proj2 (proj2 (proj2 (proj2
           (poller_follows_active_set (mount [job_abc123])
              (SetProcesses (remove "abc123")) (reach_mount [job_abc123])))))).
  split; [apply Nat.lt_0_1 | reflexivity].
Defined.

(** Mounting with nothing active starts no interval; a submission starts
    one; a new [baseUrl] replaces it by another one. *)
Lemma poller_examples :
  timers (mount [job_xyz789]) = [] ∧
  timers (step (SetProcesses (add job_abc123)) (mount [job_xyz789])) = [1%positive] ∧
  timers (step NewBaseUrl (step (SetProcesses (add job_abc123)) (mount [job_xyz789])))
  = [2%positive].
Proof. repeat split; reflexivity. Qed.

(** ** The collection names *)

Lemma name_char_code a : name_char a = true ↔ name_code (N_of_ascii a).
Proof.
  unfold name_char, name_code.
  rewrite !orb_true_iff, !andb_true_iff, !N.leb_le, !N.eqb_eq. tauto.
Qed.

Lemma all_chars_Forall f (P : ascii → Prop) s :
  (∀ a, f a = true ↔ P a) → all_chars f s = true ↔ string_Forall P s.
Proof.
  intros HfP. induction s as [|a r IH]; simpl; [done|].
  by rewrite andb_true_iff, HfP, IH.
Qed.

Lemma COLLECTION_REGEX_test_valid s :
  COLLECTION_REGEX_test s = true ↔ valid_collection_name s.
Proof.
  unfold COLLECTION_REGEX_test, valid_collection_name.
  rewrite andb_true_iff, negb_true_iff, string_eqb_false.
  by rewrite (all_chars_Forall _ _ s name_char_code).
Qed.

Lemma entry_name_text item s :
  entry_name item = Some s ↔ ∃ raw, entry_text item raw ∧ s = trim raw.
Proof.
  split.
  - destruct item as [| | | |t| |props]; simpl; try done.
    + intros [= <-]. exists t. split; [constructor | done].
    + destruct (assoc "name" props) as [| | | |n| |] eqn:E; try done.
      intros [= <-]. exists n. split; [by constructor | done].
  - intros (raw & Htext & ->). destruct Htext as [t|props t Hname]; simpl; [done|].
    by rewrite Hname.
Qed.

Lemma keep_name_Some item s :
  keep_name item = Some s ↔ item = Some s ∧ valid_collection_name s.
Proof.
  unfold keep_name. destruct item as [t|]; [|split; [done | by intros [? _]]].
  rewrite <- COLLECTION_REGEX_test_valid.
  destruct (COLLECTION_REGEX_test t) eqn:Htest.
  - assert (string_eqb t "" = false) as ->.
    { unfold COLLECTION_REGEX_test in Htest. apply andb_true_iff in Htest as [Hne _].
      by apply negb_true_iff. }
    simpl. split; [by intros [= <-] | by intros [[= <-] _]].
  - rewrite andb_false_r. split; [done|]. intros [[= <-] Hs]. congruence.
Qed.

(** What a [Set] built from a list holds, and in which order. *)
Lemma foldl_Set_add acc l :
  NoDup acc →
  ∃ k, foldl Set_add acc l = acc ++ k ∧ NoDup (acc ++ k) ∧ sublist k l ∧
       ∀ x, x ∈ acc ++ k ↔ x ∈ acc ∨ x ∈ l.
Proof.
  revert acc. induction l as [|x r IH]; intros acc Hacc.
  - exists []. rewrite app_nil_r. repeat split; try done.
    + by left.
    + intros [?|?%elem_of_nil]; done.
  - simpl. unfold Set_add at 2. destruct (bool_decide (x ∈ acc)) eqn:Hx.
    + apply bool_decide_eq_true in Hx.
      destruct (IH acc Hacc) as (k & Hk & Hnd & Hsub & Hin).
      exists k. split; [done|]. split; [done|]. split; [by apply sublist_cons|].
      intros y. rewrite Hin, elem_of_cons. split; [tauto|].
      intros [?|[->|?]]; tauto.
    + apply bool_decide_eq_false in Hx.
      destruct (IH (acc ++ [x])) as (k & Hk & Hnd & Hsub & Hin).
      { apply NoDup_app. split; [done|]. split; [|apply NoDup_singleton].
        intros y Hy ->%list_elem_of_singleton. done. }
      exists (x :: k). rewrite <- app_assoc in Hk, Hnd, Hin. simpl in Hk, Hnd, Hin.
      split; [done|]. split; [done|]. split; [by apply sublist_skip|].
      intros y. rewrite Hin, elem_of_app, list_elem_of_singleton, elem_of_cons. tauto.
Qed.

Lemma Array_from_Set_spec l :
  NoDup (Array_from_Set l) ∧ sublist (Array_from_Set l) l ∧
  ∀ x, x ∈ Array_from_Set l ↔ x ∈ l.
Proof.
  unfold Array_from_Set.
  destruct (foldl_Set_add [] l) as (k & -> & Hnd & Hsub & Hin); [constructor|].
  simpl in *. split; [done|]. split; [done|].
  intros x. rewrite Hin. split; [|tauto]. intros [?%elem_of_nil|?]; done.
Qed.

Lemma carries_find payload entries :
  carries payload entries →
  List.find Array_isArray
    [payload; get_opt payload "data"; get_opt payload "collections";
     get_opt (get_opt payload "data") "collections"]
  = Some (VArr entries).
Proof.
  intros [l|props l Hd|props l Hd Hc|props l Hd Hc Hdc]; simpl.
  - done.
  - by rewrite Hd.
  - by rewrite Hd, Hc.
  - by rewrite Hd, Hc, Hdc.
Qed.

(** C9, as the code has it: for a payload that is an array or carries one
    under [data], [collections] or [data.collections], the result holds no
    name twice, its names come in the order of the entries, and a name is
    in it exactly when it is the text of an entry (the entry itself when a
    string, its [name] when an object with a string name) with the white
    space around it trimmed, and matches [^[A-Za-z0-9_-]+$].  The payload
    of the specification normalises to docs_1 alone. *)
Theorem normalizeCollectionNames_spec :
  (∀ payload entries,
      carries payload entries →
      NoDup (normalizeCollectionNames payload) ∧
      sublist (normalizeCollectionNames payload)
              (omap (λ item, keep_name (entry_name item)) entries) ∧
      ∀ name, name ∈ normalizeCollectionNames payload ↔
              ∃ entry raw, entry ∈ entries ∧ entry_text entry raw ∧
                           name = trim raw ∧ valid_collection_name name) ∧
  normalizeCollectionNames
    (VObj [("data",
            VObj [("collections",
                   VArr [VObj [("name", VStr "docs_1")]; VStr "docs 2!"])])])
  = ["docs_1"].
Proof.
  split; [|reflexivity].
  intros payload entries Hshape. unfold normalizeCollectionNames.
  rewrite (carries_find payload entries Hshape).
  destruct (Array_from_Set_spec (omap (λ item, keep_name (entry_name item)) entries))
    as (Hnd & Hsub & Hin).
  split; [exact Hnd|]. split; [exact Hsub|].
  intros name. rewrite Hin, list_elem_of_omap. split.
  - intros (entry & Hentry & (Hname & Hvalid)%keep_name_Some).
    apply entry_name_text in Hname as (raw & Htext & ->). by exists entry, raw.
  - intros (entry & raw & Hentry & Htext & -> & Hvalid).
    exists entry. split; [done|]. apply keep_name_Some. split; [|done].
    apply entry_name_text. by exists raw.
Qed.

(** The theorem at a bare array with a repeated name, a name in an object
    and an entry that does not match. *)
Lemma normalizeCollectionNames_spec_witness :
  NoDup (normalizeCollectionNames
           (VArr [VStr "docs_1"; VObj [("name", VStr "manuales")];
                  VStr "docs_1"; VStr "docs 2!"])) ∧
  normalizeCollectionNames
    (VArr [VStr "docs_1"; VObj [("name", VStr "manuales")];
           VStr "docs_1"; VStr "docs 2!"])
  = ["docs_1"; "manuales"].
Proof.
  split; [|reflexivity].
  apply (proj1 normalizeCollectionNames_spec
           (VArr [VStr "docs_1"; VObj [("name", VStr "manuales")];
                  VStr "docs_1"; VStr "docs 2!"])
           [VStr "docs_1"; VObj [("name", VStr "manuales")];
            VStr "docs_1"; VStr "docs 2!"]).
  constructor.
Defined.

(** C9 as stated fails on an entry with white space around it: the entry
    does not match the pattern, yet its trimmed text does and is returned,
    a string that is none of the entries. *)
Lemma normalizeCollectionNames_trim_counterexample :
  COLLECTION_REGEX_test " docs_1 " = false ∧
  normalizeCollectionNames (VArr [VStr " docs_1 "]) = ["docs_1"] ∧
  normalizeCollectionNames (VArr [VStr " docs_1 "])
  ≠ filter (λ s, COLLECTION_REGEX_test s = true) [" docs_1 "].
Proof. repeat split; try reflexivity. discriminate. Qed.

(** The four shapes of the payload, and the first array winning. *)
Lemma normalizeCollectionNames_shapes :
  normalizeCollectionNames (VArr [VStr "a"; VStr "b"]) = ["a"; "b"] ∧
  normalizeCollectionNames (VObj [("data", VArr [VStr "a"; VStr "b"])]) = ["a"; "b"] ∧
  normalizeCollectionNames (VObj [("collections", VArr [VStr "a"; VStr "b"])])
  = ["a"; "b"] ∧
  normalizeCollectionNames
    (VObj [("data", VObj [("collections", VArr [VStr "a"; VStr "b"])])]) = ["a"; "b"] ∧
  normalizeCollectionNames
    (VObj [("data", VArr [VStr "a"]); ("collections", VArr [VStr "b"])]) = ["a"] ∧
  normalizeCollectionNames (VObj [("items", VArr [VStr "a"])]) = [] ∧
  normalizeCollectionNames VNull = [].
Proof. repeat split; reflexivity. Qed.

(** ** The seeding of the default top-K *)

(** C10: the stored text replaces the built-in default of 5 when it is not
    empty and converts to a finite number greater than 0, and then by that
    number; when there is no stored text, or when it is empty or converts
    to NaN, to an infinity, to zero or to a negative number, the default
    stays 5. *)
Theorem seed_top_k_spec `{Runtime} (storedTopK : option string) :
  DEFAULT_TOP_K = num 5 ∧
  (∀ s, storedTopK = Some s → s ≠ "" →
        Number_isFinite (StringToNumber s) = true →
        number_gt (StringToNumber s) (num 0) = true →
        seed_top_k storedTopK DEFAULT_TOP_K = StringToNumber s) ∧
  (storedTopK = None → seed_top_k storedTopK DEFAULT_TOP_K = DEFAULT_TOP_K) ∧
  (∀ s, storedTopK = Some s →
        s = "" ∨ StringToNumber s = NaN
        ∨ Number_isFinite (StringToNumber s) = false
        ∨ number_gt (StringToNumber s) (num 0) = false →
        seed_top_k storedTopK DEFAULT_TOP_K = DEFAULT_TOP_K) ∧
  (seed_top_k storedTopK DEFAULT_TOP_K ≠ DEFAULT_TOP_K →
   ∃ s, storedTopK = Some s ∧ s ≠ "" ∧
        Number_isFinite (StringToNumber s) = true ∧
        number_gt (StringToNumber s) (num 0) = true ∧
        seed_top_k storedTopK DEFAULT_TOP_K = StringToNumber s).
Proof.
  split; [reflexivity|]. unfold seed_top_k, truthy. split; [|split; [|split]].
  - intros s -> Hs Hfin Hpos.
    by rewrite (proj2 (string_eqb_false s "") Hs), Hfin, Hpos.
  - by intros ->.
  - intros s -> Hbad.
    destruct (string_eqb s "") eqn:Hs; [done|]. cbv [negb].
    destruct Hbad as [->|[Hnan|[Hinf|Hneg]]].
    + by apply string_eqb_false in Hs.
    + by rewrite Hnan.
    + by rewrite Hinf.
    + by rewrite Hneg, andb_false_r.
  - destruct storedTopK as [s|]; [|done].
    destruct (string_eqb s "") eqn:Hs; [done|]. cbv [negb].
    destruct (Number_isFinite (StringToNumber s)) eqn:Hfin; [|done].
    destruct (number_gt (StringToNumber s) (num 0)) eqn:Hpos; [|done].
    intros _. exists s. apply string_eqb_false in Hs. done.
Qed.

(** The theorem at stored texts of each kind. *)
Lemma seed_top_k_spec_witness :
  @seed_top_k decimal_runtime (Some "10") DEFAULT_TOP_K = num 10 ∧
  @seed_top_k decimal_runtime None DEFAULT_TOP_K = num 5 ∧
  @seed_top_k decimal_runtime (Some "abc") DEFAULT_TOP_K = num 5 ∧
  @seed_top_k decimal_runtime (Some "Infinity") DEFAULT_TOP_K = num 5 ∧
  @seed_top_k decimal_runtime (Some "0") DEFAULT_TOP_K = num 5 ∧
  @seed_top_k decimal_runtime (Some "-3") DEFAULT_TOP_K = num 5.
Proof.
  split.
  { apply (proj1 (proj2 (@seed_top_k_spec decimal_runtime (Some "10"))) "10");
      [reflexivity | discriminate | reflexivity | reflexivity]. }
  split.
  { apply (proj1 (proj2 (proj2 (@seed_top_k_spec decimal_runtime None)))).
    reflexivity. }
  split.
  { apply (proj1 (proj2 (proj2 (proj2 (@seed_top_k_spec decimal_runtime (Some "abc")))))
             "abc"); [reflexivity|]. right. left. reflexivity. }
  split.
  { apply (proj1 (proj2 (proj2 (proj2
             (@seed_top_k_spec decimal_runtime (Some "Infinity"))))) "Infinity");
      [reflexivity|]. right. right. left. reflexivity. }
  split.
  { apply (proj1 (proj2 (proj2 (proj2 (@seed_top_k_spec decimal_runtime (Some "0")))))
             "0"); [reflexivity|]. right. right. right. reflexivity. }
  apply (proj1 (proj2 (proj2 (proj2 (@seed_top_k_spec decimal_runtime (Some "-3")))))
           "-3"); [reflexivity|]. right. right. right. reflexivity.
Defined.

(** * Further properties of the code *)

(** ** Removing and clearing *)

Lemma processing_key_inj a b : processing_key a = processing_key b → a = b.
Proof. unfold processing_key. simpl. by intros [=]. Qed.

Lemma notification_key_inj a b : notification_key a = notification_key b → a = b.
Proof. unfold notification_key. simpl. by intros [=]. Qed.

Lemma processing_notification_key a b : processing_key a ≠ notification_key b.
Proof. unfold processing_key, notification_key. simpl. by intros [=]. Qed.

Lemma removeProcessArtifacts_lookup processId ls k :
  removeProcessArtifacts processId ls !! k
  = if bool_decide (k = processing_key processId ∨ k = notification_key processId)
    then None else ls !! k.
Proof.
  unfold removeProcessArtifacts. rewrite !lookup_delete.
  destruct (decide (notification_key processId = k)) as [<-|Hn].
  - rewrite bool_decide_eq_true_2; [done | by right].
  - destruct (decide (processing_key processId = k)) as [<-|Hp].
    + rewrite bool_decide_eq_true_2; [done | by left].
    + rewrite bool_decide_eq_false_2; [done|]. intros [->| ->]; done.
Qed.

(** What is left under a key once the log of a handler has run. *)
Lemma run_effects_lookup log ls k :
  run_effects log ls !! k
  = if bool_decide (k ∈ removed_keys log) then None else ls !! k.
Proof.
  unfold run_effects. revert ls. induction log as [|e log IH]; intros ls; [done|].
  simpl foldl. rewrite IH. destruct e as [n|id n|processId]; simpl; try done.
  rewrite removeProcessArtifacts_lookup.
  destruct (decide (k = processing_key processId ∨ k = notification_key processId))
    as [Hk|Hk].
  - rewrite (bool_decide_eq_true_2 _ Hk).
    rewrite (bool_decide_eq_true_2 (k ∈ _ :: _ :: _)); [by destruct (bool_decide _)|].
    rewrite !elem_of_cons. tauto.
  - rewrite (bool_decide_eq_false_2 _ Hk).
    assert (k ≠ processing_key processId ∧ k ≠ notification_key processId)
      as [Hp Hn] by tauto.
    destruct (decide (k ∈ removed_keys log)) as [Hin|Hin].
    + rewrite !bool_decide_eq_true_2; [done| |done]. by do 2 right.
    + rewrite !bool_decide_eq_false_2; [done| |done].
      rewrite !elem_of_cons. tauto.
Qed.

Lemma find_some_elem_of {A} (f : A → bool) l x :
  List.find f l = Some x → x ∈ l ∧ f x = true.
Proof.
  intros [Hin Hf]%List.find_some. split; [by apply list_elem_of_In | done].
Qed.

(** The keys that removing a job deletes. *)
Lemma handleRemoveProcess_keys processId store :
  removed_keys (handleRemoveProcess processId store).2
  = [processing_key processId; notification_key processId].
Proof.
  unfold handleRemoveProcess. simpl snd.
  unfold removed_keys. rewrite flat_map_app. simpl.
  replace (flat_map _ _) with (@nil string); [done|].
  destruct (List.find _ store) as [t|]; [|done].
  by destruct (truthy (notificationId t)).
Qed.

(** What is left in [localStorage] once a job was removed. *)
Lemma handleRemoveProcess_storage processId store ls k :
  run_effects (handleRemoveProcess processId store).2 ls !! k
  = if bool_decide (k = processing_key processId ∨ k = notification_key processId)
    then None else ls !! k.
Proof.
  rewrite run_effects_lookup, handleRemoveProcess_keys.
  apply (f_equal (λ b : bool, if b then None else ls !! k)).
  apply bool_decide_ext. rewrite !elem_of_cons. split; [|tauto].
  intros [?|[?|?%elem_of_nil]]; tauto.
Qed.

Lemma find_first {A} (f : A → bool) pre t post :
  (∀ x, x ∈ pre → f x = false) → f t = true →
  List.find f (pre ++ t :: post) = Some t.
Proof.
  intros Hpre Ht. induction pre as [|x pre IH]; simpl; [by rewrite Ht|].
  rewrite (Hpre x) by left. apply IH. intros y Hy. apply Hpre. by right.
Qed.

(** X1: removing a job from the list takes every entry with its id out of
    the store and keeps the others; it deletes the two keys of the job
    from [localStorage] and no other key; and it updates exactly one
    notification, the one the first entry with that id is linked to,
    turning it into an informational one that closes by itself after five
    seconds, or none when the list has no entry with that id or that entry
    has no link. *)
Theorem handleRemoveProcess_effects (processId : string)
    (store : list UploadProcess) (ls : gmap string string) :
  (processId ∉ map processingId (handleRemoveProcess processId store).1) ∧
  (∀ item, item ∈ (handleRemoveProcess processId store).1 ↔
           item ∈ store ∧ processingId item ≠ processId) ∧
  run_effects (handleRemoveProcess processId store).2 ls !! processing_key processId
  = None ∧
  run_effects (handleRemoveProcess processId store).2 ls !! notification_key processId
  = None ∧
  (∀ k, k ≠ processing_key processId → k ≠ notification_key processId →
        run_effects (handleRemoveProcess processId store).2 ls !! k = ls !! k) ∧
  (∀ pre t post,
      store = pre ++ t :: post →
      processId ∉ map processingId pre → processingId t = processId →
      (truthy (notificationId t) = true →
       ∃ n, filter (λ e, is_update e = true) (handleRemoveProcess processId store).2
            = [UpdateNotification (notificationId t) n] ∧
            n_type n = info ∧ n_title n = "Seguimiento detenido" ∧
            n_autoClose n = true ∧ n_duration n = Some 5000%Z) ∧
      (truthy (notificationId t) = false →
       filter (λ e, is_update e = true) (handleRemoveProcess processId store).2 = [])) ∧
  (processId ∉ map processingId store →
   filter (λ e, is_update e = true) (handleRemoveProcess processId store).2 = []) ∧
  filter (λ e, is_add e = true) (handleRemoveProcess processId store).2 = [].
Proof.
  unfold handleRemoveProcess. simpl fst. simpl snd.
  set (note := match List.find _ store with Some t => _ | None => _ end).
  assert (removed_keys (note ++ [RemoveArtifacts processId])
          = [processing_key processId; notification_key processId]) as Hkeys.
  { unfold removed_keys. rewrite flat_map_app. simpl.
    replace (flat_map _ note) with (@nil string); [done|].
    subst note. destruct (List.find _ store) as [t|]; [|done].
    by destruct (truthy (notificationId t)). }
  split; [apply ids_remove|].
  split.
  { intros item. unfold remove.
    rewrite (list_elem_of_filter (λ item, processingId item ≠ processId)). tauto. }
  split; [rewrite run_effects_lookup, Hkeys, bool_decide_eq_true_2; [done | left]|].
  split; [rewrite run_effects_lookup, Hkeys, bool_decide_eq_true_2;
          [done | right; left]|].
  split.
  { intros k Hp Hn. rewrite run_effects_lookup, Hkeys, bool_decide_eq_false_2; [done|].
    rewrite !elem_of_cons. intros [?|[?|?%elem_of_nil]]; done. }
  split; [|split].
  - intros pre t post -> Hpre Ht. subst note.
    rewrite (find_first _ pre t post).
    + split; intros ->; simpl; [|done]. eexists. split; [reflexivity|]. done.
    + intros x Hx. apply bool_decide_eq_false. intros Hid. apply Hpre.
      apply list_elem_of_fmap. by exists x.
    + by apply bool_decide_eq_true.
  - intros Habs. subst note.
    destruct (List.find _ store) as [t|] eqn:Hfind; [|done].
    apply find_some_elem_of in Hfind as [Ht Hid%bool_decide_eq_true].
    exfalso. apply Habs. apply list_elem_of_fmap. by exists t.
  - rewrite filter_app. subst note.
    destruct (List.find _ store) as [t|]; [|done].
    by destruct (truthy (notificationId t)).
Qed.

(** The log of clearing, whether the list is empty or not. *)
Lemma handleClearProcesses_log store :
  (handleClearProcesses store).2
  = flat_map (λ process,
                (if truthy (notificationId process) then
                   [UpdateNotification (notificationId process)
                      (stopped "Limpiamos el listado de cargas manualmente.")]
                 else [])
                ++ [RemoveArtifacts (processingId process)]) store.
Proof. unfold handleClearProcesses. by destruct store. Qed.

Lemma removed_keys_clear store k :
  k ∈ removed_keys (handleClearProcesses store).2 ↔
  ∃ p, p ∈ store ∧
       (k = processing_key (processingId p) ∨ k = notification_key (processingId p)).
Proof.
  rewrite handleClearProcesses_log.
  unfold removed_keys. induction store as [|p store IH].
  { split; [by intros ?%elem_of_nil | by intros (q & ?%elem_of_nil & _)]. }
  simpl flat_map. rewrite !flat_map_app, !elem_of_app, IH.
  replace (flat_map _ (if truthy (notificationId p) then _ else _)) with (@nil string)
    by (by destruct (truthy (notificationId p))).
  simpl flat_map. rewrite !elem_of_cons. split.
  - intros [[?%elem_of_nil|[Hk|[Hk|?%elem_of_nil]]]|(q & Hq & Hk)]; try done.
    + exists p. split; [by left | by left].
    + exists p. split; [by left | by right].
    + exists q. split; [by right | done].
  - intros (q & [->|Hq]%elem_of_cons & Hk).
    + left. right. tauto.
    + right. by exists q.
Qed.

Lemma clear_updates store :
  length (filter (λ e, is_update e = true) (handleClearProcesses store).2)
  = length (filter (λ p, truthy (notificationId p) = true) store).
Proof.
  rewrite handleClearProcesses_log.
  induction store as [|p store IH]; [done|].
  simpl flat_map. rewrite !filter_app, !length_app, IH, (filter_cons _ p).
  destruct (truthy (notificationId p)); [rewrite decide_True by done
                                        | rewrite decide_False by done]; done.
Qed.

Lemma clear_updated_ids store :
  updated_ids (handleClearProcesses store).2
  = map notificationId (filter (λ p, truthy (notificationId p) = true) store).
Proof.
  rewrite handleClearProcesses_log. unfold updated_ids.
  induction store as [|p store IH]; [done|].
  simpl flat_map. rewrite omap_app, IH, (filter_cons _ p).
  destruct (truthy (notificationId p)); [rewrite decide_True by done
                                        | rewrite decide_False by done]; done.
Qed.

(** X2: clearing the list empties the store, so that the persistence
    effect removes the key of the store; it deletes the two
    [localStorage] keys of every job that was listed and no other key; the
    notifications it updates are those the listed jobs are linked to, one
    update per linked job and in the order of the list, each turned into an
    informational one that closes by itself after five seconds; it adds no
    notification; and on an empty list it does nothing. *)
Theorem handleClearProcesses_effects (store : list UploadProcess)
    (ls : gmap string string) :
  (handleClearProcesses store).1 = [] ∧
  persist (handleClearProcesses store).1 = NoItem ∧
  (∀ p, p ∈ store →
        run_effects (handleClearProcesses store).2 ls
          !! processing_key (processingId p) = None ∧
        run_effects (handleClearProcesses store).2 ls
          !! notification_key (processingId p) = None) ∧
  (∀ k, (∀ p, p ∈ store → k ≠ processing_key (processingId p) ∧
                          k ≠ notification_key (processingId p)) →
        run_effects (handleClearProcesses store).2 ls !! k = ls !! k) ∧
  updated_ids (handleClearProcesses store).2
  = map notificationId (filter (λ p, truthy (notificationId p) = true) store) ∧
  length (filter (λ e, is_update e = true) (handleClearProcesses store).2)
  = length (filter (λ p, truthy (notificationId p) = true) store) ∧
  (∀ id n, UpdateNotification id n ∈ (handleClearProcesses store).2 →
           n_type n = info ∧ n_title n = "Seguimiento detenido" ∧
           n_autoClose n = true ∧ n_duration n = Some 5000%Z) ∧
  filter (λ e, is_add e = true) (handleClearProcesses store).2 = [] ∧
  (store = [] → (handleClearProcesses store).2 = []).
Proof.
  assert ((handleClearProcesses store).1 = []) as Hstore.
  { unfold handleClearProcesses. by destruct store. }
  split; [exact Hstore|]. split; [by rewrite Hstore|].
  split.
  { intros p Hp. rewrite !run_effects_lookup.
    rewrite !bool_decide_eq_true_2; [done| |];
      apply removed_keys_clear; exists p; tauto. }
  split.
  { intros k Hk. rewrite run_effects_lookup, bool_decide_eq_false_2; [done|].
    intros (p & Hp & Hkp)%removed_keys_clear. destruct (Hk p Hp). tauto. }
  split; [apply clear_updated_ids|].
  split; [apply clear_updates|].
  split; [|split; [|by intros ->]].
  - intros id n. rewrite handleClearProcesses_log.
    intros Hin. apply list_elem_of_In, in_flat_map in Hin as (p & _ & Hin).
    apply list_elem_of_In, elem_of_app in Hin as [Hin|Hin%list_elem_of_singleton];
      [|done].
    destruct (truthy (notificationId p)); [|by apply elem_of_nil in Hin].
    apply list_elem_of_singleton in Hin. by injection Hin as -> ->.
  - rewrite handleClearProcesses_log.
    induction store as [|p store' IH]; [done|].
    simpl flat_map. rewrite !filter_app, IH.
    + by destruct (truthy (notificationId p)).
    + unfold handleClearProcesses. by destruct store'.
Qed.

Lemma filter_all {A} (P : A → Prop) `{∀ x, Decision (P x)} (l : list A) :
  (∀ x, x ∈ l → P x) → filter P l = l.
Proof.
  induction l as [|x l IH]; [done|]. intros Hall.
  rewrite filter_cons_True by (apply Hall; left). f_equal.
  apply IH. intros y Hy. apply Hall. by right.
Qed.

Lemma filter_none {A} (P : A → Prop) `{∀ x, Decision (P x)} (l : list A) :
  (∀ x, x ∈ l → ¬ P x) → filter P l = [].
Proof.
  induction l as [|x l IH]; [done|]. intros Hall.
  rewrite filter_cons_False by (apply Hall; left).
  apply IH. intros y Hy. apply Hall. by right.
Qed.

(** Removing the jobs of a list of ids one after the other: what is left
    in the store and in [localStorage]. *)
Lemma remove_each_spec processIds : ∀ store ls,
  (remove_each processIds (store, ls)).1
  = filter (λ item, processingId item ∉ processIds) store ∧
  ∀ k, (remove_each processIds (store, ls)).2 !! k
       = if bool_decide
              (k ∈ flat_map (λ processId,
                               [processing_key processId; notification_key processId])
                     processIds)
         then None else ls !! k.
Proof.
  induction processIds as [|processId rest IH]; intros store ls.
  { simpl. split; [|done].
    symmetry. apply filter_all. intros item _ ?%elem_of_nil. done. }
  change (remove_each (processId :: rest) (store, ls))
    with (remove_each rest
            (remove processId store,
             run_effects (handleRemoveProcess processId store).2 ls)).
  destruct (IH (remove processId store)
               (run_effects (handleRemoveProcess processId store).2 ls))
    as [Hstore Hls].
  split.
  - rewrite Hstore. unfold remove. rewrite list_filter_filter.
    apply list_filter_iff. intros item. rewrite not_elem_of_cons. tauto.
  - intros k. rewrite Hls. simpl flat_map.
    rewrite handleRemoveProcess_storage.
    destruct (decide (k = processing_key processId ∨ k = notification_key processId))
      as [Hk|Hk].
    + rewrite (bool_decide_eq_true_2 (k ∈ _ :: _ :: _)).
      2:{ rewrite !elem_of_cons. tauto. }
      rewrite (bool_decide_eq_true_2 _ Hk). by destruct (bool_decide _).
    + rewrite (bool_decide_eq_false_2 _ Hk).
      destruct (decide (k ∈ flat_map (λ processId,
                               [processing_key processId; notification_key processId])
                          rest)) as [Hin|Hin].
      * rewrite !bool_decide_eq_true_2; [done| |done]. by do 2 right.
      * rewrite !bool_decide_eq_false_2; [done| |done].
        rewrite !elem_of_cons. tauto.
Qed.

(** X3: removing the listed jobs one after the other, in the order of the
    list, leaves the store and [localStorage] as clearing the list does. *)
Theorem clear_is_remove_each (store : list UploadProcess) (ls : gmap string string) :
  remove_each (map processingId store) (store, ls)
  = ((handleClearProcesses store).1,
     run_effects (handleClearProcesses store).2 ls).
Proof.
  destruct (remove_each_spec (map processingId store) store ls) as [Hstore Hls].
  destruct (remove_each _ _) as [store' ls']. simpl in Hstore, Hls. f_equal.
  - rewrite Hstore.
    replace (handleClearProcesses store).1 with (@nil UploadProcess)
      by (unfold handleClearProcesses; by destruct store).
    apply filter_none. intros item Hitem Hnot. apply Hnot.
    apply list_elem_of_fmap. by exists item.
  - apply map_eq. intros k. rewrite Hls, run_effects_lookup.
    apply (f_equal (λ b : bool, if b then None else ls !! k)).
    apply bool_decide_ext. rewrite removed_keys_clear. split.
    + intros Hin. apply list_elem_of_In, in_flat_map in Hin as (id & Hid & Hk).
      apply list_elem_of_In, list_elem_of_fmap in Hid as (p & -> & Hp).
      apply list_elem_of_In in Hk. rewrite !elem_of_cons in Hk.
      exists p. split; [done|]. destruct Hk as [?|[?|?%elem_of_nil]]; tauto.
    + intros (p & Hp & Hk). apply list_elem_of_In, in_flat_map.
      exists (processingId p). split.
      * apply list_elem_of_In, list_elem_of_fmap. by exists p.
      * apply list_elem_of_In. rewrite !elem_of_cons. tauto.
Qed.

Lemma add_remove_compose_store (p : UploadProcess) (s : list UploadProcess) :
  add p (remove (processingId p) s) = add p s ∧
  remove (processingId p) (add p s) = remove (processingId p) s ∧
  remove (processingId p) (remove (processingId p) s) = remove (processingId p) s.
Proof.
  unfold add, remove. repeat split.
  - f_equal. rewrite list_filter_filter. apply list_filter_iff. tauto.
  - rewrite filter_cons_False by tauto.
    rewrite list_filter_filter. apply list_filter_iff. tauto.
  - rewrite list_filter_filter. apply list_filter_iff. tauto.
Qed.

(** X4: how submissions and removals compose on the store.  Submitting
    again under an id replaces the earlier submission; removing the id
    just submitted undoes the submission and whatever it replaced;
    submitting after a removal of the same id is submitting; removing is
    idempotent, and removals commute. *)
Theorem add_remove_compose (p q : UploadProcess) (a b : string)
    (s : list UploadProcess) :
  (processingId p = processingId q → add p (add q s) = add p s) ∧
  remove (processingId p) (add p s) = remove (processingId p) s ∧
  add p (remove (processingId p) s) = add p s ∧
  remove a (remove a s) = remove a s ∧
  remove a (remove b s) = remove b (remove a s).
Proof.
  unfold add, remove. repeat split.
  - intros Hpq. rewrite filter_cons_False by (rewrite Hpq; tauto). f_equal.
    rewrite list_filter_filter. apply list_filter_iff. intros x. rewrite Hpq. tauto.
  - rewrite filter_cons_False by tauto.
    rewrite list_filter_filter. apply list_filter_iff. tauto.
  - f_equal. rewrite list_filter_filter. apply list_filter_iff. tauto.
  - rewrite list_filter_filter. apply list_filter_iff. tauto.
  - rewrite !list_filter_filter. apply list_filter_iff. tauto.
Qed.

(** The theorem at a second submission under the id of the scenario. *)
Lemma add_remove_compose_witness :
  add (mkProcess "abc123" "docs_1" "https://ex.com/new.pdf" in_progress (num 0)
         VNull VNull VUndefined (VStr "later"))
      (add job_abc123 [job_xyz789])
  = add (mkProcess "abc123" "docs_1" "https://ex.com/new.pdf" in_progress (num 0)
           VNull VNull VUndefined (VStr "later"))
        [job_xyz789].
Proof.
  apply (proj1 (add_remove_compose
                  (mkProcess "abc123" "docs_1" "https://ex.com/new.pdf" in_progress
                     (num 0) VNull VNull VUndefined (VStr "later"))
                  job_abc123 "" "" [job_xyz789])).
  reflexivity.
Defined.

(** ** What a tick keeps *)

Section TickInvariants.
Context `{Runtime}.





End TickInvariants.


(** Two entries under one id are updated together: the answer for the one
    in progress is written over the completed one too. *)
Lemma tick_shared_id :
  map (λ p, (status p, percentage p))
    (@tick decimal_runtime "now"
       (λ _, FetchJson (VObj [("status", VStr "failed");
                              ("data", VObj [("progress",
                                 VObj [("percentage", VNum (num 7))])])]))
       [job_abc123;
        mkProcess "abc123" "docs_1" "" completed (num 100) VNull VNull VUndefined VNull])
  = [(error, num 7); (error, num 7)].
Proof. reflexivity. Qed.

Section TickBranches.
Context `{Runtime}.


(** X8: a tick never brings NaN into the store: if no stored percentage is
    NaN before it, none is after it. *)
Theorem tick_no_NaN (now : string) (server : string → fetch_result)
    (s : list UploadProcess) :
  Forall (λ p, percentage p ≠ NaN) s →
  Forall (λ p, percentage p ≠ NaN) (tick now server s).
Proof.
  intros Hs. apply Forall_lookup. intros i job' (job & Hjob & Hcase)%tick_entry.
  rewrite Forall_forall in Hs. pose proof (list_elem_of_lookup_2 _ _ _ Hjob) as Hin.
  destruct Hcase as [->|(p & [_ Hp]%elem_of_listActive & _ & ->)]; [by apply Hs|].
  simpl percentage.
  destruct (server (processingId job)) as [msg|data]; simpl; [by apply Hs|].
  unfold poll_response.
  destruct (ToNumber _) as [converted|e]; simpl; [|by apply Hs].
  destruct (normalizeApiStatus (get_opt data "status")) as [st|e]; simpl;
    [|by apply Hs].
  repeat (match goal with |- context [if ?b then _ else _] => destruct b end;
          simpl; try done; try apply number_or_zero_not_NaN).
Qed.





End TickBranches.


(** The theorem at a store whose percentages are numbers, the server
    answering with a percentage that is no number. *)
Lemma tick_no_NaN_witness :
  Forall (λ p, percentage p ≠ NaN)
    (@tick decimal_runtime "now"
       (λ _, FetchJson (VObj [("data", VObj [("progress",
                                  VObj [("percentage", VStr "n/a")])])]))
       [job_abc123; job_xyz789]).
Proof.
  apply (@tick_no_NaN decimal_runtime).
  repeat constructor; discriminate.
Defined.

(** ** What the initialiser lets in *)

Lemma is_json_json_image : ∀ v, is_json (json_image v) = true.
Proof.
  fix IH 1. intros [| | b | n | s | items | props]; simpl; try done.
  - by destruct (Number_isFinite n) eqn:E; simpl.
  - induction items as [|x r IHr]; [done|]. simpl. by rewrite IH, IHr.
  - change (is_json (VObj (json_props props)) = true).
    induction props as [|[k x] r IHr]; [done|].
    rewrite json_props_cons. pose proof (IH x) as Hx.
    destruct x; try exact IHr; simpl in *; by rewrite Hx, IHr.
Qed.

Lemma json_prop_undefined v : json_prop v = VUndefined → v = VUndefined.
Proof.
  destruct v as [| | | n | | |]; simpl; try done.
  by destruct (Number_isFinite n).
Qed.

Lemma json_prop_is_json v : v ≠ VUndefined → is_json (json_prop v) = true.
Proof.
  intros Hv. destruct v; try done; apply (is_json_json_image _).
Qed.

Section LoadFacts.
Context `{Runtime}.

Lemma map_throwing_inv {A B} (f : A → completion B) l ys :
  map_throwing f l = Normal ys → Forall (λ y, ∃ x, x ∈ l ∧ f x = Normal y) ys.
Proof.
  revert ys. induction l as [|x r IH]; simpl; intros ys.
  - intros [= <-]. constructor.
  - destruct (f x) as [y|e] eqn:Hy; simpl; [|done].
    destruct (map_throwing f r) as [zs|e] eqn:Hzs; simpl; [|done].
    intros [= <-]. constructor.
    + exists x. split; [left | done].
    + eapply Forall_impl; [by apply IH|].
      intros z (x' & Hx' & Hz). exists x'. split; [by right | done].
Qed.

Lemma load_item_sanitised now item p :
  load_item now item = Normal p → processingId p ≠ "" → sanitised p.
Proof.
  unfold load_item. destruct (nullish item) eqn:Hitem; [by destruct item|].
  rewrite !(get_not_nullish item) by done. simpl.
  destruct (ToString (get_opt item "processingId")) as [id_text|e]; simpl; [|done].
  destruct (ToString (coalesce (get_opt item "collectionName") (VStr "")))
    as [collection_text|e]; simpl; [|done].
  destruct (ToString (coalesce (get_opt item "sourceUrl") (VStr "")))
    as [url_text|e]; simpl; [|done].
  destruct (normalizeApiStatus (get_opt item "status")) as [st|e]; simpl; [|done].
  destruct (ToNumber (get_opt item "percentage")) as [n|e]; simpl; [|done].
  intros [= <-] Hid. unfold sanitised. simpl.
  split; [exact Hid|]. split.
  { by destruct (Number_isFinite n) eqn:E. }
  repeat split.
  - by destruct (get_opt item "stage").
  - by destruct (get_opt item "message").
  - by destruct (get_opt item "notificationId").
  - by destruct (get_opt item "lastUpdated").
Qed.

(** X10: whatever [localStorage] holds under the key of the store, every
    process the initialiser lets in has an id that is not empty, a finite
    percentage, a stage and a message that are not [undefined], a
    notification link that is not [null] and a time stamp. *)
Theorem load_sanitised (now : string) (st : stored) :
  Forall sanitised (load now st).
Proof.
  unfold load, load_try.
  destruct st as [| | |[| | | | |items|]]; simpl; try by constructor.
  destruct (map_throwing (load_item now) items) as [loaded|e] eqn:Hloaded; simpl;
    [|by constructor].
  apply map_throwing_inv in Hloaded. rewrite Forall_forall in Hloaded.
  apply Forall_forall. intros p [Hid Hp]%list_elem_of_filter.
  destruct (Hloaded p Hp) as (item & _ & Hitem).
  apply (load_item_sanitised now item p Hitem).
  unfold has_id in Hid. by apply negb_true_iff, string_eqb_false in Hid.
Qed.

Lemma coalesce_json_prop v d :
  is_json d = true → is_json (coalesce (json_prop v) d) = true.
Proof.
  intros Hd. unfold coalesce.
  destruct (nullish (json_prop v)) eqn:Hn; [done|].
  destruct v; try done; apply (is_json_json_image _).
Qed.

Lemma coalesce_not_nullish x d : nullish d = false → nullish (coalesce x d) = false.
Proof. intros Hd. unfold coalesce. by destruct (nullish x) eqn:Hx. Qed.

Lemma reloaded_stable now now' p :
  has_id p = true → reloaded now' (reloaded now p) = reloaded now p.
Proof.
  intros Hid. apply reloaded_well_formed.
  unfold well_formed, reloaded, has_id in *. simpl.
  rewrite Hid. simpl.
  assert (Number_isFinite
            (if Number_isFinite (percentage p) then percentage p else num 0) = true)
    as -> by (by destruct (Number_isFinite (percentage p)) eqn:E).
  rewrite !coalesce_json_prop, coalesce_not_nullish by done. simpl.
  rewrite andb_true_r. unfold coalesce.
  destruct (nullish (json_prop (notificationId p))) eqn:Hn; [done|].
  assert (is_json (json_prop (notificationId p)) = true) as Hj.
  { destruct (notificationId p); try (by simpl in Hn); apply (is_json_json_image _). }
  rewrite andb_true_r. destruct (json_prop (notificationId p)); simpl in *; done.
Qed.

(** X11: a second reload changes nothing, whatever the store held before
    the first one and whatever the clocks say: what the initialiser loads
    it loads again from what the persistence effect writes of it. *)
Theorem reload_idempotent (now now' : string) (s : list UploadProcess) :
  load now' (persist (load now (persist s))) = load now (persist s).
Proof.
  rewrite !load_persist.
  induction s as [|p s IH]; [done|].
  simpl map. rewrite (filter_cons _ (reloaded now p)).
  destruct (decide (has_id (reloaded now p) = true)) as [Hid|Hid]; [|exact IH].
  simpl map. rewrite (reloaded_stable now now' p Hid), filter_cons_True by done.
  by rewrite IH.
Qed.
End LoadFacts.

(** ** The upload form *)

Lemma in_range_between lo hi n :
  n ≠ NaN →
  number_lt n (num lo) || number_gt n (num hi) = false ↔ between lo hi n.
Proof.
  intros Hn. unfold between, number_gt, num.
  destruct n as [|[]|q]; [done| | |]; simpl.
  - split; [done | by intros (q & ? & _)].
  - split; [done | by intros (q & ? & _)].
  - rewrite orb_false_iff, !negb_false_iff, !Qle_bool_iff. split.
    + intros [? ?]. by exists q.
    + by intros (q' & [= <-] & ? & ?).
Qed.

Lemma overlap_fits_iff overlap size b :
  overlap ≠ NaN → size = Finite b →
  number_lt overlap (num 0) || number_ge overlap size = false
  ↔ overlap_fits overlap size.
Proof.
  intros Ho ->. unfold overlap_fits, num.
  destruct overlap as [|[]|a]; [done| | |]; simpl.
  - split; [done | by intros (? & ? & ? & _)].
  - split; [done | by intros (? & ? & ? & _)].
  - rewrite negb_involutive, orb_false_iff, negb_false_iff, Qle_bool_iff. split.
    + intros [H0 Hlt]. exists a, b. repeat split; try done.
      apply Qnot_le_lt. intros Hle%Qle_bool_iff. congruence.
    + intros (a' & b' & [= <-] & [= <-] & H0 & Hlt). split; [done|].
      apply not_true_is_false. intros Hle%Qle_bool_iff.
      by apply Qle_not_lt in Hle.
Qed.

(** The form passes when none of the nine checks fires. *)
Lemma validateConfig_None f :
  validateConfig f = None ↔
  COLLECTION_REGEX_test (Form.collectionName f) = true ∧
  strategyUsesChunkSize (Form.chunkingStrategy f)
    && (number_lt (Form.chunkSize f) (num 100)
        || number_gt (Form.chunkSize f) (num 5000)) = false ∧
  strategyUsesChunkSize (Form.chunkingStrategy f)
    && (number_lt (Form.chunkOverlap f) (num 0)
        || number_ge (Form.chunkOverlap f) (Form.chunkSize f)) = false ∧
  number_lt (Form.maxFileSizeMb f) (num 1)
    || number_gt (Form.maxFileSizeMb f) (num 1000) = false ∧
  number_lt (Form.timeoutPerFile f) (num 30)
    || number_gt (Form.timeoutPerFile f) (num 3600) = false ∧
  number_lt (Form.batchSize f) (num 1)
    || number_gt (Form.batchSize f) (num 1000) = false ∧
  number_lt (Form.retryAttempts f) (num 1)
    || number_gt (Form.retryAttempts f) (num 10) = false ∧
  string_eqb (trim (Form.embeddingModel f)) "" = false ∧
  string_eqb (Form.input f) "" || negb (http_url_test (Form.input f)) = false.
Proof.
  unfold validateConfig.
  destruct (COLLECTION_REGEX_test _); simpl; [|by split; [|intros [? _]]].
  repeat (match goal with
          | |- context [if ?b then Some _ else _] =>
              let E := fresh "E" in destruct b eqn:E
          end;
          [split; [done | intros ?; repeat match goal with H : _ ∧ _ |- _ => destruct H end; done]|]).
  done.
Qed.

(** X12: when no numeric field of the form is NaN, the form passes
    [validateConfig] exactly when the collection name matches
    [^[a-zA-Z0-9_-]+$], the chunk size is within 100 and 5000 and the
    overlap at least 0 and below the chunk size (both only for the
    strategies that use a chunk size), the file size limit is within 1 and
    1000, the timeout within 30 and 3600, the batch size within 1 and
    1000, the retry attempts within 1 and 10, the embedding model is not
    blank, and the URL starts with http:// or https://. *)
Theorem validateConfig_accepts (f : Form.state) :
  Forall (λ n, n ≠ NaN)
    [Form.chunkSize f; Form.chunkOverlap f; Form.maxFileSizeMb f;
     Form.timeoutPerFile f; Form.batchSize f; Form.retryAttempts f] →
  validateConfig f = None ↔
  valid_collection_name (Form.collectionName f) ∧
  (strategyUsesChunkSize (Form.chunkingStrategy f) = true →
   between 100 5000 (Form.chunkSize f) ∧
   overlap_fits (Form.chunkOverlap f) (Form.chunkSize f)) ∧
  between 1 1000 (Form.maxFileSizeMb f) ∧
  between 30 3600 (Form.timeoutPerFile f) ∧
  between 1 1000 (Form.batchSize f) ∧
  between 1 10 (Form.retryAttempts f) ∧
  trim (Form.embeddingModel f) ≠ "" ∧
  (String.prefix "http://" (Form.input f) = true
   ∨ String.prefix "https://" (Form.input f) = true).
Proof.
  intros Hnum. rewrite !Forall_cons in Hnum.
  destruct Hnum as (Hcs & Hco & Hmfs & Ht & Hbs & Hra & _).
  rewrite validateConfig_None, COLLECTION_REGEX_test_valid.
  rewrite (in_range_between 1 1000), (in_range_between 30 3600),
    (in_range_between 1 1000 (Form.batchSize f)), (in_range_between 1 10),
    string_eqb_false by done.
  assert (string_eqb (Form.input f) "" || negb (http_url_test (Form.input f)) = false
          ↔ String.prefix "http://" (Form.input f) = true
            ∨ String.prefix "https://" (Form.input f) = true) as ->.
  { unfold http_url_test.
    rewrite orb_false_iff, negb_false_iff, orb_true_iff, string_eqb_false.
    split; [tauto|]. intros Hp. split; [|done]. intros Hempty.
    rewrite Hempty in Hp. by destruct Hp. }
  destruct (strategyUsesChunkSize (Form.chunkingStrategy f)); simpl.
  - rewrite (in_range_between 100 5000) by done. split.
    + intros (? & Hsize & Hov & ?). split; [done|]. split; [|done].
      intros _. split; [done|].
      destruct Hsize as (b & Hb & _).
      by apply (overlap_fits_iff _ _ b).
    + intros (? & Hchunk & ?). destruct (Hchunk eq_refl) as [Hsize Hov].
      split; [done|]. split; [done|]. split; [|done].
      destruct Hsize as (b & Hb & _).
      by apply (overlap_fits_iff _ _ b).
  - split.
    + intros (Hname & _ & _ & Hrest). split; [done|]. split; [done | exact Hrest].
    + intros (Hname & _ & Hrest). split; [done|]. split; [done|].
      split; [done | exact Hrest].
Qed.

(** The theorem at the initial form with a URL typed in. *)
Lemma validateConfig_accepts_witness :
  validateConfig
    (Form.mk "https://ex.com/docs" "manuales_collection" recursive_character
       (num 1000) (num 200) [". "] character_count (num 50) (num 300)
       "embedding-001" (num 90) (num 3)) = None ∧
  between 100 5000 (num 1000).
Proof.
  pose proof (proj1 (validateConfig_accepts
            (Form.mk "https://ex.com/docs" "manuales_collection" recursive_character
               (num 1000) (num 200) [". "] character_count (num 50) (num 300)
               "embedding-001" (num 90) (num 3))
            ltac:(repeat constructor; discriminate)) eq_refl)
    as (_ & Hchunk & _).
  split; [reflexivity|]. exact (proj1 (Hchunk eq_refl)).
Defined.

(** X13: for the strategies that use no chunk size (semantic and
    document_structure), neither the outcome of the validation nor the
    body of the request depends on the chunk size and the overlap of the
    form. *)
Theorem chunk_fields_unused (f : Form.state) (size overlap : number) :
  strategyUsesChunkSize (Form.chunkingStrategy f) = false →
  validateConfig (with_chunks size overlap f) = validateConfig f ∧
  request_body (with_chunks size overlap f) = request_body f.
Proof.
  intros Huses. unfold validateConfig, request_body, chunking_config. simpl.
  by rewrite Huses.
Qed.

(** The theorem at the semantic strategy with a chunk size of 5. *)
Lemma chunk_fields_unused_witness :
  validateConfig
    (with_chunks (num 5) (num 9)
       (Form.mk "https://ex.com/docs" "docs_1" semantic (num 1000) (num 200) []
          character_count (num 50) (num 300) "embedding-001" (num 90) (num 3)))
  = None.
Proof.
  rewrite (proj1 (chunk_fields_unused
                    (Form.mk "https://ex.com/docs" "docs_1" semantic (num 1000)
                       (num 200) [] character_count (num 50) (num 300)
                       "embedding-001" (num 90) (num 3))
                    (num 5) (num 9) eq_refl)).
  reflexivity.
Defined.

Lemma is_json_strings l : forallb is_json (map VStr l) = true.
Proof. induction l as [|x l IH]; [done|]. exact IH. Qed.

Lemma between_finite lo hi n : between lo hi n → Number_isFinite n = true.
Proof. by intros (q & -> & _). Qed.

(** X14: the body of a request whose form passed the validation and has
    no NaN among the numbers it sends is a JSON value: [JSON.stringify]
    writes every field of it as built, none dropped and none turned into
    [null]. *)
Theorem request_body_lossless (f : Form.state) :
  validateConfig f = None →
  Forall (λ n, n ≠ NaN) (sent_numbers f) →
  is_json (request_body f) = true ∧ json_image (request_body f) = request_body f.
Proof.
  intros Hvalid Hnum.
  assert (is_json (request_body f) = true) as Hjson; [|by split; [|apply is_json_image]].
  apply validateConfig_None in Hvalid
    as (_ & Hsize & Hov & Hmfs & Ht & Hbs & Hra & _).
  unfold sent_numbers in Hnum. rewrite Forall_app, !Forall_cons in Hnum.
  destruct Hnum as (Hchunk & Hmfs' & Ht' & Hbs' & Hra' & _).
  apply in_range_between, between_finite in Hmfs, Ht, Hbs, Hra; try done.
  unfold request_body, chunking_config. simpl.
  rewrite Hmfs, Ht, Hbs, Hra. simpl.
  destruct (Form.chunkingStrategy f) eqn:Hs; simpl in *;
    rewrite ?is_json_strings; simpl; try done;
    rewrite !Forall_cons in Hchunk; destruct Hchunk as (Hcs & Hco & _);
    pose proof Hsize as Hsize';
    apply in_range_between in Hsize as (b & Hb & _); try done;
    apply (overlap_fits_iff _ _ b) in Hov as (a & b' & -> & -> & _); done.
Qed.

(** The theorem at the initial form with a URL typed in. *)
Lemma request_body_lossless_witness :
  json_image
    (request_body
       (Form.mk "https://ex.com/docs" "manuales_collection" recursive_character
          (num 1000) (num 200) [". "] character_count (num 50) (num 300)
          "embedding-001" (num 90) (num 3)))
  = request_body
      (Form.mk "https://ex.com/docs" "manuales_collection" recursive_character
         (num 1000) (num 200) [". "] character_count (num 50) (num 300)
         "embedding-001" (num 90) (num 3)).
Proof.
  apply request_body_lossless.
  - reflexivity.
  - repeat constructor; discriminate.
Defined.

Lemma processes_clear_polling c : processes (clear_polling c) = processes c.
Proof. unfold clear_polling. by destruct (pollingIntervalRef c). Qed.

Lemma processes_commit b c : processes (commit b c) = processes c.
Proof.
  unfold commit. destruct (negb b && bool_decide _); [done|].
  assert (processes (effect_cleanup c) = processes c) as Hclean.
  { unfold effect_cleanup.
    destruct (last_dep c) as [[]|]; try done. apply processes_clear_polling. }
  unfold effect_body.
  destruct (negb (hasActiveProcesses (processes (effect_cleanup c)))); simpl.
  - by rewrite processes_clear_polling.
  - done.
Qed.

(** The state after an update is the updater applied to the state. *)
Lemma processes_step updater c :
  processes (step (SetProcesses updater) c) = updater (processes c).
Proof. simpl. by rewrite processes_commit. Qed.

Section SubmitFacts.
Context `{Runtime}.

(** X15: a run of [handleSubmit] posts a request exactly when the form
    passes the validation.  Unless the form passes, the response is ok,
    its body is not [null] and carries a truthy success flag, the run
    creates no job: the store, [localStorage] and the URL field stay as
    they are, and the only thing done is to add one error notification
    that stays open. *)
Theorem handleSubmit_without_job (f : Form.state) (reply : submit_reply)
    (notification_id now : string) (store : list UploadProcess)
    (ls : gmap string string) (r : submitted) :
  handleSubmit f reply notification_id now store ls = Some r →
  (posted r = None ↔ validateConfig f ≠ None) ∧
  (posted r = None ∨ posted r = Some (request_body f)) ∧
  (¬ (validateConfig f = None ∧
      ∃ data, reply = SubmitResponse true data ∧ nullish data = false ∧
              truthy (get_opt data "success") = true) →
   new_store r = store ∧ new_storage r = ls ∧ new_input r = Form.input f ∧
   ∃ n, submit_log r = [AddNotification n] ∧
        n_type n = failure ∧ n_autoClose n = false).
Proof.
  unfold handleSubmit.
  destruct (validateConfig f) as [configError|] eqn:Hvalid.
  { intros [= <-]. simpl. split; [by split|]. split; [by left|].
    intros _. split; [done|]. split; [done|]. split; [done|].
    eexists. by repeat split. }
  assert (∀ text,
    Some {| posted := Some (request_body f); new_store := store;
            submit_log :=
              [AddNotification
                 (error_notification "Error al Iniciar Procesamiento" text)];
            new_storage := ls; new_input := Form.input f |} = Some r →
    (posted r = None ↔ @None string ≠ None) ∧
    (posted r = None ∨ posted r = Some (request_body f)) ∧
    (¬ (@None string = None ∧
        ∃ data, reply = SubmitResponse true data ∧ nullish data = false ∧
                truthy (get_opt data "success") = true) →
     new_store r = store ∧ new_storage r = ls ∧ new_input r = Form.input f ∧
     ∃ n, submit_log r = [AddNotification n] ∧
          n_type n = failure ∧ n_autoClose n = false)) as Hfailed.
  { intros text [= <-]. simpl. split; [by split|]. split; [by right|].
    intros _. split; [done|]. split; [done|]. split; [done|].
    eexists. by repeat split. }
  destruct reply as [text|ok data]; [apply Hfailed|].
  destruct (submit_failure ok data) as [text|] eqn:Hfail; [apply Hfailed|].
  destruct (get_opt data "processing_id") as [| | | |pid| |]; try done.
  assert (validateConfig f = None ∧
          ∃ data', SubmitResponse ok data = SubmitResponse true data' ∧
                   nullish data' = false ∧
                   truthy (get_opt data' "success") = true) as Hpassed.
  { rewrite Hvalid. split; [done|]. unfold submit_failure in Hfail.
    destruct (nullish data) eqn:Hnull; [done|].
    destruct ok; simpl in Hfail; [|done].
    destruct (truthy (get_opt data "success")) eqn:Hsuccess; [|done].
    by exists data. }
  rewrite Hvalid in Hpassed.
  destruct (newProcess f pid data notification_id now) as [process|e];
    intros [= <-]; simpl; (split; [by split|]); (split; [by right|]);
    intros Hnot; by destruct Hnot.
Qed.

(** The process made from a response whose percentage converts. *)
Lemma newProcess_Normal f processing_id data notification_id now pct :
  reported_percentage data = Normal pct →
  newProcess f processing_id data notification_id now
  = Normal
      {| processingId := processing_id;
         collectionName := Form.collectionName f;
         sourceUrl := Form.input f;
         status := in_progress;
         percentage := pct;
         stage :=
           coalesce (get_opt (get_opt (get_opt data "data") "progress") "stage")
                    (VStr "document_download");
         message := coalesce (get_opt data "message") (VStr "Procesamiento iniciado");
         notificationId := VStr notification_id;
         lastUpdated := VStr now |}.
Proof.
  unfold reported_percentage, newProcess.
  destruct (ToNumber _) as [converted|e]; [|done]. by intros [= <-].
Qed.

(** X16: when the form passes and the response is ok and carries a truthy
    success flag and a string as processing id, [handleSubmit] goes one of
    two ways.  If [Number] converts the percentage of the response, it
    puts a new job at the front of the store, in progress, under that id,
    linked to the notification just added, with the reported percentage,
    which is a number, and a stage and a message that are neither [null]
    nor [undefined]; the ids of the store stay pairwise distinct; the two
    keys of the job are written to [localStorage]; the URL field is
    emptied; and the job is in the active set, so that the poller of a
    mounted component is polling after the update.  If [Number] throws on
    the percentage, no job is made: the store, [localStorage] and the URL
    field stay as they are, and an error notification that stays open
    follows the notification of the start. *)
Theorem handleSubmit_creates_job (f : Form.state) (data : value)
    (processing_id notification_id now : string) (store : list UploadProcess)
    (ls : gmap string string) (c : component) :
  validateConfig f = None →
  nullish data = false →
  truthy (get_opt data "success") = true →
  get_opt data "processing_id" = VStr processing_id →
  (∀ pct, reported_percentage data = Normal pct →
    ∃ r job,
      handleSubmit f (SubmitResponse true data) notification_id now store ls = Some r ∧
      new_store r = add job store ∧
      head (new_store r) = Some job ∧
      processingId job = processing_id ∧
      status job = in_progress ∧
      notificationId job = VStr notification_id ∧
      collectionName job = Form.collectionName f ∧
      sourceUrl job = Form.input f ∧
      percentage job = pct ∧
      percentage job ≠ NaN ∧
      nullish (stage job) = false ∧
      nullish (message job) = false ∧
      job ∈ listActive (new_store r) ∧
      (NoDup (map processingId store) → NoDup (map processingId (new_store r))) ∧
      new_storage r !! processing_key processing_id = Some processing_id ∧
      new_storage r !! notification_key processing_id = Some notification_id ∧
      new_input r = "" ∧
      (∃ started, submit_log r = [AddNotification started] ∧
                  n_type started = processing ∧
                  n_processingId started = Some processing_id) ∧
      (reachable c → poller (step (SetProcesses (add job)) c) = Polling)) ∧
  (convertible (get_opt (get_opt (get_opt data "data") "progress") "percentage")
   = false →
   ∃ r started failed,
     handleSubmit f (SubmitResponse true data) notification_id now store ls = Some r ∧
     new_store r = store ∧ new_storage r = ls ∧ new_input r = Form.input f ∧
     submit_log r = [AddNotification started; AddNotification failed] ∧
     n_type started = processing ∧ n_type failed = failure ∧
     n_autoClose failed = false).
Proof.
  intros Hvalid Hnull Hsuccess Hpid. split.
  - intros pct Hpct. unfold handleSubmit, submit_failure.
    rewrite Hvalid, Hnull, Hsuccess, Hpid. cbn [negb orb].
    rewrite (newProcess_Normal _ _ _ _ _ pct Hpct).
    set (job := mkProcess processing_id _ _ _ _ _ _ _ _).
    eexists. exists job. split; [reflexivity|].
    cbn [new_store new_storage new_input submit_log].
    split; [done|]. split; [done|]. split; [done|]. split; [done|].
    split; [done|]. split; [done|]. split; [done|]. split; [done|].
    split; [by apply (stored_percentage_not_NaN data)|].
    split; [by apply coalesce_not_nullish|].
    split; [by apply coalesce_not_nullish|].
    split; [apply elem_of_listActive; split; [done | left]|].
    split; [apply add_NoDup|].
    split.
    { rewrite lookup_insert_ne
        by (intros Heq; by apply (processing_notification_key
                                    processing_id processing_id)).
      by rewrite lookup_insert_eq. }
    split; [by rewrite lookup_insert_eq|].
    split; [done|].
    split; [by eexists|].
    intros Hc.
    apply (poller_consistent_state _
             (reachable_consistent _ (reach_step (SetProcesses (add job)) c Hc))).
    apply hasActiveProcesses_listActive.
    rewrite processes_step.
    unfold add, listActive. by rewrite filter_cons_True.
  - intros Hbad. unfold handleSubmit, submit_failure.
    rewrite Hvalid, Hnull, Hsuccess, Hpid. cbn [negb orb].
    unfold newProcess.
    rewrite (proj2 (ToNumber_convertible _) Hbad). simpl.
    eexists _, _, _. split; [reflexivity|]. done.
Qed.
End SubmitFacts.

(** X17: submitting a job whose response carries a percentage that
    [Number] converts and then removing it from the list leaves the store
    as removing its id from the earlier store, and [localStorage] as it
    was before the submission when it held nothing under the two keys of
    the job; the notification downgraded by the removal is the one the
    submission added. *)
Theorem submit_then_remove `{Runtime} (f : Form.state) (data : value)
    (pct : number) (processing_id notification_id now : string)
    (store : list UploadProcess) (ls : gmap string string) :
  validateConfig f = None →
  nullish data = false →
  truthy (get_opt data "success") = true →
  get_opt data "processing_id" = VStr processing_id →
  reported_percentage data = Normal pct →
  ls !! processing_key processing_id = None →
  ls !! notification_key processing_id = None →
  ∃ r,
    handleSubmit f (SubmitResponse true data) notification_id now store ls = Some r ∧
    (handleRemoveProcess processing_id (new_store r)).1
    = remove processing_id store ∧
    run_effects (handleRemoveProcess processing_id (new_store r)).2 (new_storage r)
    = ls ∧
    (notification_id ≠ "" →
     ∃ n, (handleRemoveProcess processing_id (new_store r)).2
          = [UpdateNotification (VStr notification_id) n;
             RemoveArtifacts processing_id]).
Proof.
  intros Hvalid Hnull Hsuccess Hpid Hpct Hp Hn. unfold handleSubmit, submit_failure.
  rewrite Hvalid, Hnull, Hsuccess, Hpid. cbn [negb orb].
  rewrite (newProcess_Normal _ _ _ _ _ pct Hpct).
  set (job := mkProcess processing_id _ _ _ _ _ _ _ _).
  eexists. split; [reflexivity|]. cbn [new_store new_storage].
  split; [|split].
  - apply (proj1 (proj2 (add_remove_compose_store job store))).
  - apply map_eq. intros k. rewrite handleRemoveProcess_storage.
    destruct (decide (k = processing_key processing_id
                      ∨ k = notification_key processing_id)) as [Hk|Hk].
    + rewrite (bool_decide_eq_true_2 _ Hk). by destruct Hk as [-> | ->].
    + rewrite (bool_decide_eq_false_2 _ Hk).
      rewrite !lookup_insert_ne; [done| |]; intros <-; tauto.
  - intros Hnid. unfold handleRemoveProcess, add. simpl.
    rewrite bool_decide_eq_true_2 by done. simpl.
    assert (string_eqb notification_id "" = false) as ->
      by (by apply string_eqb_false).
    simpl. by eexists.
Qed.

(** The theorem at the form of the scenario, the server answering with an
    error status and a message. *)
Lemma handleSubmit_without_job_witness :
  ∃ r, @handleSubmit decimal_runtime form_abc123
         (SubmitResponse false (VObj [("message", VStr "Servicio no disponible")]))
         "notification-1" "now" [job_xyz789] ∅ = Some r ∧
       new_store r = [job_xyz789] ∧ new_storage r = ∅ ∧
       submit_log r
       = [AddNotification
            (error_notification "Error al Iniciar Procesamiento"
               "Servicio no disponible")].
Proof.
  eexists. split; [reflexivity|].
  destruct (@handleSubmit_without_job decimal_runtime form_abc123
              (SubmitResponse false (VObj [("message", VStr "Servicio no disponible")]))
              "notification-1" "now" [job_xyz789] ∅ _ eq_refl)
    as (_ & _ & Hsame).
  destruct Hsame as (Hstore & Hstorage & _).
  - intros (_ & data & Hreply & _). discriminate Hreply.
  - split; [exact Hstore|]. split; [exact Hstorage | reflexivity].
Defined.

(** The theorem at the submission of the scenario. *)
Lemma handleSubmit_creates_job_witness :
  ∃ r, @handleSubmit decimal_runtime form_abc123 (SubmitResponse true response_abc123)
         "notification-1" "2025-01-01T00:00:00.000Z" [job_xyz789] ∅ = Some r ∧
       map processingId (new_store r) = ["abc123"; "xyz789"] ∧
       new_input r = "".
Proof.
  destruct (proj1 (@handleSubmit_creates_job decimal_runtime form_abc123
                     response_abc123 "abc123" "notification-1"
                     "2025-01-01T00:00:00.000Z" [job_xyz789] ∅
                     (mount []) eq_refl eq_refl eq_refl eq_refl)
                (num 0) eq_refl)
    as (r & job & Hr & Hstore & _ & Hid & Hrest).
  exists r. split; [exact Hr|]. split.
  - rewrite Hstore. unfold add. simpl. rewrite Hid. reflexivity.
  - apply Hrest.
Defined.

(** The theorem at the submission of the scenario, removed right away. *)
Lemma submit_then_remove_witness :
  ∃ r, @handleSubmit decimal_runtime form_abc123 (SubmitResponse true response_abc123)
         "notification-1" "now" [job_xyz789] ∅ = Some r ∧
       (handleRemoveProcess "abc123" (new_store r)).1 = [job_xyz789] ∧
       run_effects (handleRemoveProcess "abc123" (new_store r)).2 (new_storage r) = ∅.
Proof.
  destruct (@submit_then_remove decimal_runtime form_abc123 response_abc123
              (num 0) "abc123" "notification-1" "now" [job_xyz789] ∅
              eq_refl eq_refl eq_refl eq_refl eq_refl
              (lookup_empty _) (lookup_empty _))
    as (r & Hr & Hstore & Hstorage & _).
  exists r. split; [exact Hr|]. split; [|exact Hstorage].
  rewrite Hstore. reflexivity.
Defined.

(** ** The separators field *)

Lemma split_on_nonempty c s : split_on c s ≠ [].
Proof.
  destruct s as [|a r]; simpl; [done|].
  destruct (bool_decide (a = c)); [done|]. by destruct (split_on c r).
Qed.

Lemma split_on_append c x rest :
  has_char c x = false →
  split_on c (x ++ String c rest) = x :: split_on c rest.
Proof.
  induction x as [|a x IH]; simpl.
  - intros _. by rewrite bool_decide_eq_true_2.
  - intros [Ha Hx]%orb_false_iff. rewrite Ha, IH by done. done.
Qed.

Lemma split_on_plain c x : has_char c x = false → split_on c x = [x].
Proof.
  induction x as [|a x IH]; simpl; [done|].
  intros [Ha Hx]%orb_false_iff. by rewrite Ha, IH.
Qed.

Lemma split_on_clean c s : Forall (λ x, has_char c x = false) (split_on c s).
Proof.
  induction s as [|a r IH]; simpl.
  - by constructor.
  - destruct (bool_decide (a = c)) eqn:Ha.
    + by constructor.
    + destruct (split_on c r) as [|h t].
      * constructor; [|done]. simpl. by rewrite Ha.
      * inversion IH; subst. constructor; [|done]. simpl. by rewrite Ha.
Qed.

Lemma join_cons sep x y l :
  join sep (x :: y :: l) = (x ++ sep ++ join sep (y :: l))%string.
Proof. reflexivity. Qed.

(** X18: the text area of the separators.  Whatever is typed is shown
    back unchanged; and a list of separators survives being shown and
    read back exactly when it is not empty and none of its separators
    holds a line break. *)
Theorem separators_round_trip :
  (∀ text, separators_shown (separators_typed text) = text) ∧
  (∀ separators,
      separators_typed (separators_shown separators) = separators ↔
      separators ≠ [] ∧ Forall (λ x, has_char newline x = false) separators).
Proof.
  unfold separators_shown, separators_typed. split.
  - induction text as [|a r IH]; [done|]. simpl.
    destruct (bool_decide (a = newline)) eqn:Ha.
    + apply bool_decide_eq_true in Ha as ->.
      pose proof (split_on_nonempty newline r) as Hne.
      destruct (split_on newline r) as [|h t] eqn:Hr; [done|].
      rewrite join_cons, IH. reflexivity.
    + pose proof (split_on_nonempty newline r) as Hne.
      destruct (split_on newline r) as [|h t] eqn:Hr; [done|].
      rewrite <- IH. by destruct t.
  - intros l. split.
    + intros Hl. split.
      * intros ->. discriminate Hl.
      * rewrite <- Hl. apply split_on_clean.
    + intros [Hne Hl]. destruct l as [|x l]; [done|]. clear Hne.
      revert x Hl. induction l as [|y l IH]; intros x Hl.
      * apply split_on_plain. by inversion Hl.
      * rewrite join_cons. inversion Hl as [|? ? Hx Hrest]; subst.
        change (String newline "" ++ join (String newline "") (y :: l))%string
          with (String newline (join (String newline "") (y :: l))).
        rewrite split_on_append by done.
        f_equal. by apply IH.
Qed.

(** ** The collections of the configuration panel *)

Lemma elem_of_Array_from_Set x l : x ∈ Array_from_Set l ↔ x ∈ l.
Proof. apply Array_from_Set_spec. Qed.

Lemma normalizeCollectionNames_valid payload name :
  name ∈ normalizeCollectionNames payload → valid_collection_name name.
Proof.
  unfold normalizeCollectionNames.
  destruct (List.find _ _) as [[| | | | |entries|]|]; try by intros ?%elem_of_nil.
  intros Hin. apply (proj1 (elem_of_Array_from_Set _ _)) in Hin.
  apply list_elem_of_omap in Hin as (item & _ & Hkeep).
  by apply keep_name_Some in Hkeep as [_ ?].
Qed.

Lemma valid_collection_name_nonempty name : valid_collection_name name → name ≠ "".
Proof. by intros [? _]. Qed.

Section CollectionsFacts.
Context `{Runtime}.

Lemma fetchCollections_cases reply defaultCollection :
  let fallback := if negb (string_eqb defaultCollection "") then [defaultCollection] else [] in
  (∃ text, text ≠ "" ∧
     fetchCollections reply defaultCollection = (fallback, Some text)) ∨
  (∃ data, reply = CollectionsResponse true (match reply with
                                             | CollectionsResponse _ s _ => s
                                             | _ => NaN
                                             end) (FetchJson data) ∧
     fetchCollections reply defaultCollection =
       (Array_from_Set (normalizeCollectionNames data ++ fallback), None)).
Proof.
  assert (∀ text, (if negb (string_eqb text "") then text
                   else "No se pudieron cargar las colecciones disponibles.") ≠ "")
    as Htext.
  { intros text. destruct (string_eqb text "") eqn:E; simpl; [done|].
    by apply string_eqb_false. }
  destruct reply as [text|[] http_status [text|data]];
    unfold fetchCollections; cbv beta zeta; cbn [negb];
    try (left; eexists; split; [|reflexivity]; apply Htext).
  right. by exists data.
Qed.

Lemma fetchCollections_default reply defaultCollection :
  defaultCollection ≠ "" →
  defaultCollection ∈ (fetchCollections reply defaultCollection).1.
Proof.
  intros Hne. apply string_eqb_false in Hne.
  destruct (fetchCollections_cases reply defaultCollection)
    as [(text & _ & ->)|(data & _ & ->)]; simpl; rewrite Hne; simpl.
  - by left.
  - apply elem_of_Array_from_Set. apply elem_of_app. right. by left.
Qed.

(** X19: the collections offered after [fetchCollections].  Whatever the
    server answers, the list has no repeated name and no empty name, every
    name in it is the default collection or matches the pattern of
    collection names, and a non-empty default collection is always in it.
    When the request is rejected, the answer is not ok or its body cannot
    be read, an error text that is not empty is set (the message of the
    failure, the HTTP status for an answer that is not ok) and the list is
    the default collection alone, or nothing if the default is empty.
    When the answer is ok and its body is read, no error is set and the
    list holds the normalised names of the body and the default
    collection. *)
Theorem fetchCollections_offers reply defaultCollection :
  NoDup (fetchCollections reply defaultCollection).1 ∧
  (defaultCollection ≠ "" →
   defaultCollection ∈ (fetchCollections reply defaultCollection).1) ∧
  (∀ name, name ∈ (fetchCollections reply defaultCollection).1 →
     name ≠ "" ∧ (name = defaultCollection ∨ valid_collection_name name)) ∧
  (∀ text,
     reply = CollectionsRejected text ∨
     (∃ http_status, reply = CollectionsResponse true http_status (FetchFailed text)) →
     fetchCollections reply defaultCollection
     = (if decide (defaultCollection = "") then [] else [defaultCollection],
        Some (text_or text "No se pudieron cargar las colecciones disponibles."))) ∧
  (∀ http_status body,
     reply = CollectionsResponse false http_status body →
     fetchCollections reply defaultCollection
     = (if decide (defaultCollection = "") then [] else [defaultCollection],
        Some ("No se pudieron obtener las colecciones (HTTP "
              ++ NumberToString http_status ++ ").")%string)) ∧
  (∀ http_status data,
     reply = CollectionsResponse true http_status (FetchJson data) →
     (fetchCollections reply defaultCollection).2 = None ∧
     ∀ name, name ∈ (fetchCollections reply defaultCollection).1 ↔
             name ∈ normalizeCollectionNames data ∨
             (name = defaultCollection ∧ defaultCollection ≠ "")) ∧
  (∀ text, (fetchCollections reply defaultCollection).2 = Some text → text ≠ "").
Proof.
  assert ((if negb (string_eqb defaultCollection "") then [defaultCollection] else [])
          = if decide (defaultCollection = "") then [] else [defaultCollection])
    as Hfallback.
  { destruct (decide (defaultCollection = "")) as [->|Hne]; [done|].
    apply string_eqb_false in Hne. by rewrite Hne. }
  assert (∀ text, (if negb (string_eqb text "") then text
                   else "No se pudieron cargar las colecciones disponibles.")
                  = text_or text "No se pudieron cargar las colecciones disponibles.")
    as Htext.
  { intros text. unfold text_or. by destruct (string_eqb text ""). }
  split; [|split; [apply fetchCollections_default|split; [|split; [|split; [|split]]]]].
  - destruct (fetchCollections_cases reply defaultCollection)
      as [(text & _ & ->)|(data & _ & ->)]; simpl.
    + destruct (negb _); [apply NoDup_singleton | constructor].
    + apply Array_from_Set_spec.
  - destruct (fetchCollections_cases reply defaultCollection)
      as [(text & Htext' & ->)|(data & _ & ->)]; simpl.
    + intros name Hin. destruct (string_eqb defaultCollection "") eqn:E; simpl in Hin.
      { by apply elem_of_nil in Hin. }
      apply list_elem_of_singleton in Hin as ->.
      split; [by apply string_eqb_false | by left].
    + intros name Hin. apply (proj1 (elem_of_Array_from_Set _ _)) in Hin.
      apply elem_of_app in Hin as [Hin|Hin].
      * apply normalizeCollectionNames_valid in Hin.
        split; [by apply valid_collection_name_nonempty | by right].
      * destruct (string_eqb defaultCollection "") eqn:E; simpl in Hin.
        { by apply elem_of_nil in Hin. }
        apply list_elem_of_singleton in Hin as ->.
        split; [by apply string_eqb_false | by left].
  - intros text [->|[http_status ->]]; unfold fetchCollections; cbv beta zeta;
      cbn [negb]; by rewrite Hfallback, Htext.
  - intros http_status body ->. unfold fetchCollections. cbv beta zeta. cbn [negb].
    rewrite Hfallback. reflexivity.
  - intros http_status data ->. unfold fetchCollections. cbv beta zeta. cbn [negb fst snd].
    split; [done|]. intros name.
    rewrite elem_of_Array_from_Set, elem_of_app. apply or_iff_compat_l.
    destruct (string_eqb defaultCollection "") eqn:E; simpl.
    + apply string_eqb_true in E. split; [by intros ?%elem_of_nil | by intros [_ ?]].
    + apply string_eqb_false in E. rewrite list_elem_of_singleton. tauto.
  - intros text.
    destruct (fetchCollections_cases reply defaultCollection)
      as [(text' & Htext' & ->)|(data & _ & ->)]; simpl; [|done].
    by intros [= <-].
Qed.
End CollectionsFacts.

Lemma select_collection_spec collections name defaultCollection :
  let selected := select_collection collections name defaultCollection in
  (collections ≠ [] → selected ∈ collections) ∧
  (collections = [] → selected = name) ∧
  (name ∈ collections → selected = name) ∧
  (name ∉ collections → defaultCollection ≠ "" →
   defaultCollection ∈ collections → selected = defaultCollection).
Proof.
  unfold select_collection.
  destruct collections as [|first rest]; simpl.
  { split; [done|]. split; [done|]. split; [done|].
    by intros _ _ ?%elem_of_nil. }
  destruct (bool_decide (name ∈ first :: rest)) eqn:Hname; simpl.
  - apply bool_decide_eq_true in Hname. repeat split; done.
  - apply bool_decide_eq_false in Hname.
    destruct (string_eqb defaultCollection "") eqn:Hdef; simpl.
    + apply string_eqb_true in Hdef as ->.
      repeat split; try done. intros _. by left.
    + destruct (bool_decide (defaultCollection ∈ first :: rest)) eqn:Hin.
      * apply bool_decide_eq_true in Hin. repeat split; done.
      * apply bool_decide_eq_false in Hin.
        repeat split; try done. intros _. by left.
Qed.

(** X20: the selected collection after the collections were fetched.
    When anything is offered, the effect leaves a selected name that is
    one of the offered ones: the name already selected when it is
    offered, otherwise the default collection when that is not empty.
    When nothing is offered the selection is left alone, and running the
    effect again changes nothing. *)
Theorem selection_after_fetch `{Runtime} reply defaultCollection name :
  let offered := (fetchCollections reply defaultCollection).1 in
  let selected := select_collection offered name defaultCollection in
  (offered ≠ [] → selected ∈ offered) ∧
  (offered = [] → selected = name) ∧
  (name ∈ offered → selected = name) ∧
  (name ∉ offered → defaultCollection ≠ "" → selected = defaultCollection) ∧
  select_collection offered selected defaultCollection = selected.
Proof.
  intros offered selected.
  destruct (select_collection_spec offered name defaultCollection)
    as (Hin & Hnil & Hkeep & Hdef).
  split; [done|]. split; [done|]. split; [done|]. split.
  - intros Hname Hne. apply Hdef; [done..|]. by apply fetchCollections_default.
  - destruct offered as [|first rest] eqn:E.
    + reflexivity.
    + apply select_collection_spec. by apply Hin.
Qed.

(** ** The colour themes *)

Lemma land_255 x : (0 ≤ Z.land x 255 ≤ 255)%Z.
Proof.
  change 255%Z with (Z.ones 8) at 1 2. rewrite Z.land_ones by lia.
  pose proof (Z.mod_pos_bound x (2 ^ 8)) as Hb. lia.
Qed.

Lemma free_of_hex_replace_first c s : free_of_hex s → free_of_hex (replace_first c s).
Proof.
  induction s as [|a r IH]; simpl; [done|].
  intros [Ha Hr]. destruct (bool_decide (a = c)); [done|]. split; [done | by apply IH].
Qed.

Lemma free_of_hex_double_chars s : free_of_hex s → free_of_hex (double_chars s).
Proof.
  induction s as [|a r IH]; simpl; [done|].
  intros [Ha Hr]. split; [done|]. split; [done | by apply IH].
Qed.

Lemma free_of_hex_trimStart s : free_of_hex s → free_of_hex (trimStart s).
Proof.
  induction s as [|a r IH]; simpl; [done|].
  intros [Ha Hr]. destruct (is_js_space a); [by apply IH | done].
Qed.

Lemma free_of_hex_prefix s : free_of_hex s → hex_prefix s None = None.
Proof. destruct s as [|a r]; simpl; [done|]. by intros [-> _]. Qed.

Lemma parseInt16_free_of_hex s : free_of_hex s → parseInt16 s = NaN.
Proof.
  intros Hs%free_of_hex_trimStart. unfold parseInt16.
  destruct (trimStart s) as [|c r]; [done|].
  destruct Hs as [Hc Hr].
  assert (bool_decide (c = "0"%char) = false) as Hzero.
  { apply bool_decide_eq_false. by intros ->. }
  destruct (bool_decide (c = "-"%char)); [|destruct (bool_decide (c = "+"%char))].
  - destruct r as [|c0 [|c1 r]]; simpl; try done; simpl in Hr.
    + by destruct Hr as [-> _].
    + assert (bool_decide (c0 = "0"%char) = false) as ->.
      { apply bool_decide_eq_false. intros ->. by destruct Hr. }
      simpl. by destruct Hr as [-> _].
  - destruct r as [|c0 [|c1 r]]; simpl; try done; simpl in Hr.
    + by destruct Hr as [-> _].
    + assert (bool_decide (c0 = "0"%char) = false) as ->.
      { apply bool_decide_eq_false. intros ->. by destruct Hr. }
      simpl. by destruct Hr as [-> _].
  - destruct r as [|c1 r]; simpl; rewrite ?Hzero; simpl; by rewrite Hc.
Qed.

(** X21: the channels of [hexToRgb].  Whatever text it is given, each of
    the three channels is a whole number from 0 to 255; and a text that
    holds no hexadecimal digit gives 0, 0, 0. *)
Theorem hexToRgb_channels_range hex :
  (0 ≤ (hexToRgb_channels hex).1.1 ≤ 255)%Z ∧
  (0 ≤ (hexToRgb_channels hex).1.2 ≤ 255)%Z ∧
  (0 ≤ (hexToRgb_channels hex).2 ≤ 255)%Z ∧
  (free_of_hex hex → hexToRgb_channels hex = (0, 0, 0)%Z).
Proof.
  unfold hexToRgb_channels. cbn [fst snd].
  split; [apply land_255|]. split; [apply land_255|]. split; [apply land_255|].
  intros Hfree.
  rewrite parseInt16_free_of_hex; [reflexivity|].
  destruct (String.length _ =? 3)%nat.
  - by apply free_of_hex_double_chars, free_of_hex_replace_first.
  - by apply free_of_hex_replace_first.
Qed.

Lemma hex_digit_cases (P : Z → Prop) d :
  (0 ≤ d < 16)%Z →
  P 0%Z → P 1%Z → P 2%Z → P 3%Z → P 4%Z → P 5%Z → P 6%Z → P 7%Z →
  P 8%Z → P 9%Z → P 10%Z → P 11%Z → P 12%Z → P 13%Z → P 14%Z → P 15%Z →
  P d.
Proof.
  intros Hd. intros.
  assert (d = 0 ∨ d = 1 ∨ d = 2 ∨ d = 3 ∨ d = 4 ∨ d = 5 ∨ d = 6 ∨ d = 7 ∨
          d = 8 ∨ d = 9 ∨ d = 10 ∨ d = 11 ∨ d = 12 ∨ d = 13 ∨ d = 14 ∨ d = 15)%Z
    as Hcases by lia.
  repeat (destruct Hcases as [->|Hcases]; [assumption|]). by subst.
Qed.

Lemma hex_digit_value_hex_digit upper d :
  (0 ≤ d < 16)%Z → hex_digit_value (hex_digit upper d) = Some d.
Proof.
  intros Hd. pattern d. apply hex_digit_cases; [done|..];
    by destruct upper.
Qed.

Lemma hex_digit_plain upper d :
  (0 ≤ d < 16)%Z →
  let c := hex_digit upper d in
  c ≠ "#"%char ∧ is_js_space c = false ∧ c ≠ "-"%char ∧ c ≠ "+"%char ∧
  ¬ (c = "x"%char ∨ c = "X"%char).
Proof.
  intros Hd. pattern d. apply hex_digit_cases; [done|..];
    destruct upper; (repeat split; [done..|]); by intros [|].
Qed.

Lemma hex_prefix_digit upper d rest acc :
  (0 ≤ d < 16)%Z →
  hex_prefix (String (hex_digit upper d) rest) acc
  = hex_prefix rest (Some (16 * default 0 acc + d)%Z).
Proof. intros Hd. simpl. by rewrite hex_digit_value_hex_digit. Qed.

(** [parseInt] of a text that starts with two hexadecimal digits reads
    its digits from the first code unit on. *)
Lemma parseInt16_digits upper d1 d2 rest :
  (0 ≤ d1 < 16)%Z → (0 ≤ d2 < 16)%Z →
  parseInt16 (String (hex_digit upper d1) (String (hex_digit upper d2) rest))
  = match hex_prefix rest (Some (16 * d1 + d2)%Z) with
    | Some n => round_binary64 n
    | None => NaN
    end.
Proof.
  intros Hd1 Hd2.
  destruct (hex_digit_plain upper d1 Hd1) as (_ & Hspace & Hminus & Hplus & _).
  destruct (hex_digit_plain upper d2 Hd2) as (_ & _ & _ & _ & Hx).
  unfold parseInt16. simpl trimStart. rewrite Hspace.
  rewrite (bool_decide_eq_false_2 _ Hminus), (bool_decide_eq_false_2 _ Hplus).
  rewrite (bool_decide_eq_false_2 _ Hx), andb_false_r.
  rewrite !hex_prefix_digit by done. simpl default.
  by replace (16 * (16 * 0 + d1) + d2)%Z with (16 * d1 + d2)%Z by lia.
Qed.

Lemma ToInt32_small n : (0 ≤ n < 2147483648)%Z → ToInt32 (round_binary64 n) = n.
Proof.
  intros Hn. change 2147483648%Z with (2 ^ 31)%Z in Hn.
  assert (2 ^ 31 < 2 ^ 32 < 2 ^ 53)%Z by (split; apply Z.pow_lt_mono_r; lia).
  unfold round_binary64.
  assert ((n <? 2 ^ 53)%Z = true) as -> by (apply Z.ltb_lt; lia).
  unfold ToInt32, num.
  assert (Qle_bool 0 (inject_Z n) = true) as ->.
  { apply Qle_bool_iff. change 0%Q with (inject_Z 0). rewrite <- Zle_Qle. lia. }
  rewrite Qfloor_Z. rewrite Z.mod_small by lia.
  assert ((2 ^ 31 <=? n)%Z = false) as -> by (apply Z.leb_gt; lia). done.
Qed.

Lemma channels_of_value r g b :
  (0 ≤ r < 256)%Z → (0 ≤ g < 256)%Z → (0 ≤ b < 256)%Z →
  let n := (65536 * r + 256 * g + b)%Z in
  Z.land (Z.shiftr n 16) 255 = r ∧ Z.land (Z.shiftr n 8) 255 = g ∧
  Z.land n 255 = b.
Proof.
  intros Hr Hg Hb n. subst n.
  change 255%Z with (Z.ones 8). rewrite !Z.land_ones by lia.
  rewrite !Z.shiftr_div_pow2 by lia.
  change (2 ^ 16)%Z with 65536%Z. change (2 ^ 8)%Z with 256%Z.
  repeat split; Z.div_mod_to_equations; lia.
Qed.

(** X22: [hexToRgb] reads a colour back.  For channels from 0 to 255
    written as [#rrggbb], in lower or upper case digits, it gives the three
    channels; and the short form [#rgb] of three digits gives each digit
    seventeen times. *)
Theorem hexToRgb_reads_colour upper r g b :
  (0 ≤ r < 256)%Z → (0 ≤ g < 256)%Z → (0 ≤ b < 256)%Z →
  hexToRgb_channels (hex_colour upper r g b) = (r, g, b) ∧
  ((r < 16)%Z → (g < 16)%Z → (b < 16)%Z →
   hexToRgb_channels (short_colour upper r g b)
   = (17 * r, 17 * g, 17 * b)%Z).
Proof.
  intros Hr Hg Hb.
  assert (∀ v, (0 ≤ v < 256)%Z → (0 ≤ v / 16 < 16)%Z ∧ (0 ≤ v mod 16 < 16)%Z)
    as Hdigits by (intros v Hv; Z.div_mod_to_equations; lia).
  destruct (Hdigits r Hr) as [Hr1 Hr2], (Hdigits g Hg) as [Hg1 Hg2],
    (Hdigits b Hb) as [Hb1 Hb2].
  split.
  - unfold hexToRgb_channels, hex_colour. simpl replace_first.
    unfold hex_byte. simpl (String.length _ =? 3)%nat. cbv iota.
    rewrite parseInt16_digits by done.
    rewrite !hex_prefix_digit by done. cbn [hex_prefix default from_option id].
    replace (16 * (16 * (16 * (16 * (16 * (r / 16) + r mod 16) + g / 16)
                           + g mod 16) + b / 16) + b mod 16)%Z
      with (65536 * r + 256 * g + b)%Z by (Z.div_mod_to_equations; lia).
    rewrite ToInt32_small by lia.
    by destruct (channels_of_value r g b Hr Hg Hb) as (-> & -> & ->).
  - intros Hr16 Hg16 Hb16.
    unfold hexToRgb_channels, short_colour. simpl replace_first.
    simpl (String.length _ =? 3)%nat. cbv iota. cbn [double_chars].
    rewrite parseInt16_digits by lia.
    rewrite !hex_prefix_digit by lia. cbn [hex_prefix default from_option id].
    replace (16 * (16 * (16 * (16 * (16 * r + r) + g) + g) + b) + b)%Z
      with (65536 * (17 * r) + 256 * (17 * g) + 17 * b)%Z by lia.
    rewrite ToInt32_small by lia.
    by destruct (channels_of_value (17 * r) (17 * g) (17 * b)
                   ltac:(lia) ltac:(lia) ltac:(lia)) as (-> & -> & ->).
Qed.

Lemma hexToRgb_reads_colour_witness :
  hexToRgb_channels (hex_colour false 10 11 12) = (10, 11, 12)%Z ∧
  ((10 < 16)%Z → (11 < 16)%Z → (12 < 16)%Z →
   hexToRgb_channels (short_colour false 10 11 12)
   = (17 * 10, 17 * 11, 17 * 12)%Z).
Proof. apply (hexToRgb_reads_colour false 10 11 12); lia. Defined.

Lemma setProperties_meta declarations d :
  metaTheme (setProperties declarations d) = metaTheme d ∧
  metaMsTile (setProperties declarations d) = metaMsTile d.
Proof.
  unfold setProperties. revert d.
  induction declarations as [|x l IH]; intros d; [done|].
  simpl. destruct (IH (setProperty x.1 x.2 d)) as [-> ->]. done.
Qed.

Lemma setProperties_style declarations d k :
  style (setProperties declarations d) !! k
  = match declared k declarations with
    | Some value => if string_eqb value "" then None else Some value
    | None => style d !! k
    end.
Proof.
  unfold setProperties. revert d.
  induction declarations as [|x l IH]; intros d; [done|].
  simpl. rewrite IH. destruct (declared k l); [done|].
  unfold setProperty. simpl.
  destruct (string_eqb x.1 k) eqn:Hk.
  - apply string_eqb_true in Hk as <-.
    destruct (string_eqb x.2 ""); [apply lookup_delete_eq | apply lookup_insert_eq].
  - apply string_eqb_false in Hk.
    destruct (string_eqb x.2 ""); [by apply lookup_delete_ne | by apply lookup_insert_ne].
Qed.

Lemma declared_None k declarations :
  declared k declarations = None ↔ k ∉ declarations.*1.
Proof.
  induction declarations as [|x l IH]; simpl.
  - split; [intros _ ?%elem_of_nil; done | done].
  - rewrite not_elem_of_cons, <- IH.
    destruct (declared k l).
    + split; [done | by intros [_ ?]].
    + destruct (string_eqb x.1 k) eqn:Hk.
      * apply string_eqb_true in Hk. split; [done | by intros [? _]].
      * apply string_eqb_false in Hk. split; [|done]. intros _. split; [|done].
        by intros ->.
Qed.

Lemma THEMES_get_theme_name theme : THEMES_get (theme_name theme) = Own (THEMES theme).
Proof. by destruct theme. Qed.

Section ThemeFacts.
Context `{Runtime}.

Lemma theme_declarations_names palette :
  (theme_declarations palette).*1 = theme_property_names.
Proof. reflexivity. Qed.

Lemma applyTheme_theme_name theme d :
  applyTheme (theme_name theme) d
  = (setProperties (theme_declarations (THEMES theme)) d, None).
Proof. unfold applyTheme. by rewrite THEMES_get_theme_name. Qed.

Lemma theme_effect_unfold theme d :
  theme_effect theme d
  = let d1 := setProperties (theme_declarations (THEMES theme)) d in
    mkDocument (style d1)
      (match metaTheme d1 with Some _ => Some (primary (THEMES theme)) | None => None end)
      (match metaMsTile d1 with Some _ => Some (primary (THEMES theme)) | None => None end).
Proof.
  unfold theme_effect, updateThemeMetaColor.
  by rewrite applyTheme_theme_name, THEMES_get_theme_name.
Qed.

Lemma theme_effect_style theme d k :
  style (theme_effect theme d) !! k
  = match declared k (theme_declarations (THEMES theme)) with
    | Some value => if string_eqb value "" then None else Some value
    | None => style d !! k
    end.
Proof.
  rewrite theme_effect_unfold. cbv zeta. cbn [style].
  apply setProperties_style.
Qed.

Lemma theme_effect_meta theme d :
  metaTheme (theme_effect theme d)
  = match metaTheme d with Some _ => Some (primary (THEMES theme)) | None => None end ∧
  metaMsTile (theme_effect theme d)
  = match metaMsTile d with Some _ => Some (primary (THEMES theme)) | None => None end.
Proof.
  rewrite theme_effect_unfold. cbv zeta. cbn [metaTheme metaMsTile].
  by destruct (setProperties_meta (theme_declarations (THEMES theme)) d) as [-> ->].
Qed.

Lemma document_eq (d1 d2 : document) :
  (∀ k, style d1 !! k = style d2 !! k) →
  metaTheme d1 = metaTheme d2 → metaMsTile d1 = metaMsTile d2 → d1 = d2.
Proof.
  destruct d1, d2; simpl. intros Hs%map_eq -> ->. by rewrite Hs.
Qed.

(** The theme shown last is the one the page shows. *)
Lemma theme_effect_last a b d : theme_effect b (theme_effect a d) = theme_effect b d.
Proof.
  apply document_eq.
  - intros k. rewrite !theme_effect_style.
    destruct (declared k (theme_declarations (THEMES b))) eqn:Hb; [done|].
    apply declared_None in Hb. rewrite theme_declarations_names in Hb.
    assert (declared k (theme_declarations (THEMES a)) = None) as ->; [|done].
    apply declared_None. by rewrite theme_declarations_names.
  - destruct (theme_effect_meta b (theme_effect a d)) as [-> _].
    destruct (theme_effect_meta a d) as [-> _].
    destruct (theme_effect_meta b d) as [-> _]. by destruct (metaTheme d).
  - destruct (theme_effect_meta b (theme_effect a d)) as [_ ->].
    destruct (theme_effect_meta a d) as [_ ->].
    destruct (theme_effect_meta b d) as [_ ->]. by destruct (metaMsTile d).
Qed.

Lemma theme_cleanup_shown selected saved d :
  theme_cleanup selected saved (theme_effect selected d) = theme_effect saved d.
Proof.
  unfold theme_cleanup. destruct (bool_decide (selected ≠ saved)) eqn:E.
  - apply (theme_effect_last selected saved d).
  - apply bool_decide_eq_false in E. apply dec_stable in E. by subst.
Qed.

Lemma browse_themes_shown saved selected selections d :
  browse_themes saved selected selections (theme_effect selected d)
  = theme_effect saved d.
Proof.
  revert selected d. induction selections as [|next later IH]; intros selected d.
  - apply theme_cleanup_shown.
  - simpl. rewrite theme_cleanup_shown, theme_effect_last. apply IH.
Qed.

(** X23: previewing themes without saving.  The panel is opened, the user
    tries any number of themes and closes the panel without saving: the
    page is then exactly as if the saved theme alone had been applied to
    it, its primary colour is that of the saved theme, and the properties
    that are no theme property are as before. *)
Theorem preview_restores_saved saved selected selections d :
  let d' := preview_themes saved selected selections d in
  d' = theme_effect saved d ∧
  style d' !! "--color-primary" = Some (primary (THEMES saved)) ∧
  (∀ k, k ∉ theme_property_names → style d' !! k = style d !! k).
Proof.
  unfold preview_themes. rewrite browse_themes_shown. cbv zeta.
  split; [done|]. split.
  - rewrite theme_effect_style. by destruct saved.
  - intros k Hk. rewrite theme_effect_style.
    assert (declared k (theme_declarations (THEMES saved)) = None) as ->; [|done].
    apply declared_None. by rewrite theme_declarations_names.
Qed.
End ThemeFacts.

(** ** The module load of the configuration *)

Lemma theme_of_name_Some name theme :
  theme_of_name name = Some theme → name = theme_name theme.
Proof.
  unfold theme_of_name. intros Hfind.
  apply find_some in Hfind as [_ Heq]. by apply string_eqb_true in Heq.
Qed.

Lemma Object_prototype_names_get name :
  name ∈ Object_prototype_names ↔ THEMES_get name = Inherited.
Proof.
  split.
  - intros Hin. apply list_elem_of_In in Hin. simpl in Hin.
    repeat (destruct Hin as [<-|Hin]; [reflexivity|]). done.
  - unfold THEMES_get. destruct (theme_of_name name); [done|].
    destruct (bool_decide (name ∈ Object_prototype_names)) eqn:E; [|done].
    intros _. by apply bool_decide_eq_true in E.
Qed.

Lemma seed_theme_cases stored :
  let seeded := seed_theme stored (theme_name blue) in
  (∃ theme, seeded = theme_name theme) ∨
  (stored = Some seeded ∧ seeded ∈ Object_prototype_names).
Proof.
  unfold seed_theme. destruct stored as [s|]; [|left; by exists blue].
  destruct (truthy (VStr s)); [|left; by exists blue]. simpl.
  unfold in_THEMES. destruct (THEMES_get s) eqn:E; [| |left; by exists blue].
  - left. unfold THEMES_get in E. destruct (theme_of_name s) as [theme|] eqn:F.
    + exists theme. by apply theme_of_name_Some.
    + by destruct (bool_decide _).
  - right. split; [done|]. by apply Object_prototype_names_get.
Qed.

Lemma seed_theme_inherited name :
  name ∈ Object_prototype_names → seed_theme (Some name) (theme_name blue) = name.
Proof.
  intros Hin. apply list_elem_of_In in Hin. simpl in Hin.
  repeat (destruct Hin as [<-|Hin]; [reflexivity|]). done.
Qed.

Section ModuleLoadFacts.
Context `{Runtime}.

(** X24: the theme restored at module load.  The module body of
    appConfig.ts ends normally exactly when the stored theme is none of
    the names that [THEMES] inherits from [Object.prototype]; such a name
    passes the guard [in THEMES] and makes [applyTheme] throw.  When the
    module loads, the active theme is one of the six palettes and the
    page shows it. *)
Theorem load_module_theme VITE_BACKEND_URL ls d :
  let loaded := load_module VITE_BACKEND_URL ls d in
  (loaded.2 = None ↔
   ∀ name, ls !! CONFIG_STORAGE_KEYS.ACTIVE_THEME = Some name →
           name ∉ Object_prototype_names) ∧
  (loaded.2 = None →
   ∃ theme, Config.ACTIVE_THEME (config loaded.1) = theme_name theme ∧
            page loaded.1 = theme_effect theme d).
Proof.
  unfold load_module. cbn [seed_config Config.ACTIVE_THEME APP_CONFIG].
  destruct (seed_theme_cases (ls !! CONFIG_STORAGE_KEYS.ACTIVE_THEME))
    as [[theme Htheme]|[Hstored Hin]].
  - rewrite Htheme, applyTheme_theme_name. cbn [fst snd config page Config.ACTIVE_THEME].
    split.
    + split; [|done]. intros _ name Hname Hin.
      rewrite Hname, (seed_theme_inherited _ Hin) in Htheme.
      apply Object_prototype_names_get in Hin.
      by rewrite Htheme, THEMES_get_theme_name in Hin.
    + intros _. exists theme. split; [done|].
      unfold theme_effect. by rewrite applyTheme_theme_name.
  - pose proof Hin as Hget. apply Object_prototype_names_get in Hget.
    unfold applyTheme. rewrite Hget. cbn [fst snd].
    split; [|done]. split; [done|]. intros Hall. by destruct (Hall _ Hstored).
Qed.
End ModuleLoadFacts.

(** ** Saving the configuration panel *)

Lemma positive_integer_checks n :
  negb (Number_isInteger n) || number_le n (num 0) = false ↔ positive_integer n.
Proof.
  rewrite orb_false_iff, negb_false_iff.
  destruct n as [|negative|q]; [by split; [intros []|] ..|].
  unfold Number_isInteger, positive_integer, number_le, num.
  rewrite number_ge_finite, Qeq_bool_iff. change (inject_Z 0) with 0%Q.
  split.
  - intros [Hint Hle]. split; [|done].
    apply Qnot_le_lt. intros Hq%Qle_bool_iff. congruence.
  - intros [Hpos Hint]. split; [done|].
    destruct (Qle_bool q 0) eqn:E; [|done].
    apply Qle_bool_iff in E. by apply Qle_not_lt in E.
Qed.

Lemma string_Forall_impl (P Q : ascii → Prop) s :
  (∀ a, P a → Q a) → string_Forall P s → string_Forall Q s.
Proof.
  intros HPQ. induction s as [|a r IH]; simpl; [done|].
  intros [Ha Hr]. split; [by apply HPQ | by apply IH].
Qed.

Lemma trimEnd_plain s :
  string_Forall (λ a, is_js_space a = false) s → trimEnd s = s.
Proof.
  induction s as [|a r IH]; simpl; [done|].
  intros [Ha Hr]. rewrite (IH Hr), Ha. by destruct r.
Qed.

Lemma name_code_no_space a : name_code (N_of_ascii a) → is_js_space a = false.
Proof.
  unfold name_code, is_js_space. intros Hcode.
  apply orb_false_iff. split; [apply orb_false_iff; split|].
  - apply andb_false_iff.
    destruct (N.leb_spec 9 (N_of_ascii a)); [right|by left].
    apply N.leb_gt. lia.
  - apply N.eqb_neq. lia.
  - apply N.eqb_neq. lia.
Qed.

(** A collection name is its own trimmed form. *)
Lemma trim_valid s : valid_collection_name s → trim s = s.
Proof.
  intros [_ Hs]. unfold trim.
  assert (string_Forall (λ a, is_js_space a = false) s) as Hplain.
  { eapply string_Forall_impl; [|done]. intros a. apply name_code_no_space. }
  assert (trimStart s = s) as ->.
  { destruct s as [|a r]; [done|]. simpl. by destruct Hplain as [-> _]. }
  by apply trimEnd_plain.
Qed.

Section SaveFacts.
Context `{Runtime}.

Lemma setActiveTheme_theme_name theme a :
  setActiveTheme (theme_name theme) a
  = (mkApp
       (Config.mk (Config.PROJECT_NAME (config a)) (Config.GROUP_NUMBER (config a))
          (Config.STUDENT_NAMES (config a)) (Config.DESCRIPTION (config a))
          (Config.INITIAL_BOT_MESSAGE (config a)) (Config.INPUT_PLACEHOLDER (config a))
          (Config.BACKEND_URL (config a)) (Config.API_ENDPOINT (config a))
          (Config.DEFAULT_TOP_K (config a)) (Config.DEFAULT_COLLECTION (config a))
          (Config.USE_RERANKING (config a)) (Config.USE_QUERY_REWRITING (config a))
          (Config.FORCE_REBUILD (config a)) (theme_name theme))
       (<[CONFIG_STORAGE_KEYS.ACTIVE_THEME := theme_name theme]> (localStorage a))
       (theme_effect theme (page a)),
     None).
Proof.
  unfold setActiveTheme, theme_effect. by rewrite applyTheme_theme_name.
Qed.

(** The application state after the ten setters of an accepted save. *)
Lemma handleSave_accepted p a :
  save_accepted p →
  let trimmed := trim (Panel.collectionName p) in
  let parsedTopK := StringToNumber (Panel.topK p) in
  handleSave p a
  = (saved_panel p trimmed parsedTopK true,
     mkApp
       (Config.mk (Panel.projectName p) (Config.GROUP_NUMBER (config a))
          (Config.STUDENT_NAMES (config a)) (Panel.description p)
          (Panel.initialMessage p) (Panel.inputPlaceholder p)
          (Config.BACKEND_URL (config a)) (Config.API_ENDPOINT (config a))
          parsedTopK trimmed (Panel.useReranking p) (Panel.useQueryRewriting p)
          (Panel.forceRebuild p) (theme_name (Panel.selectedTheme p)))
       (<[CONFIG_STORAGE_KEYS.ACTIVE_THEME := theme_name (Panel.selectedTheme p)]>
        (<[CONFIG_STORAGE_KEYS.PROJECT_NAME := Panel.projectName p]>
         (<[CONFIG_STORAGE_KEYS.INPUT_PLACEHOLDER := Panel.inputPlaceholder p]>
          (<[CONFIG_STORAGE_KEYS.DESCRIPTION := Panel.description p]>
           (<[CONFIG_STORAGE_KEYS.INITIAL_BOT_MESSAGE := Panel.initialMessage p]>
            (<[CONFIG_STORAGE_KEYS.FORCE_REBUILD :=
                 Boolean_toString (Panel.forceRebuild p)]>
             (<[CONFIG_STORAGE_KEYS.USE_QUERY_REWRITING :=
                  Boolean_toString (Panel.useQueryRewriting p)]>
              (<[CONFIG_STORAGE_KEYS.USE_RERANKING :=
                   Boolean_toString (Panel.useReranking p)]>
               (<[CONFIG_STORAGE_KEYS.DEFAULT_TOP_K := NumberToString parsedTopK]>
                (<[CONFIG_STORAGE_KEYS.DEFAULT_COLLECTION := trimmed]>
                 (localStorage a)))))))))))
       (theme_effect (Panel.selectedTheme p) (page a)),
     {| n_type := success;
        n_title := "Configuración guardada";
        n_message :=
          VStr ("Parámetros actualizados. Colección por defecto: "
                ++ dquote ++ trimmed ++ dquote ++ " • Top K: "
                ++ NumberToString parsedTopK ++ " • Tema: "
                ++ theme_name (Panel.selectedTheme p) ++ ".");
        n_processingId := None;
        n_autoClose := true;
        n_duration := Some 5000%Z |}).
Proof.
  intros [Hname Htop]. unfold handleSave. cbv zeta.
  assert (truthy (VStr (trim (Panel.collectionName p))) = true) as ->.
  { simpl. apply negb_true_iff, string_eqb_false. by destruct Hname. }
  apply COLLECTION_REGEX_test_valid in Hname. rewrite Hname.
  apply positive_integer_checks in Htop. rewrite Htop. cbn [negb].
  rewrite setActiveTheme_theme_name. reflexivity.
Qed.

Lemma handleSave_rejected p a :
  ¬ save_accepted p →
  ∃ title text, handleSave p a = (p, a, error_notification title text).
Proof.
  intros Hrejected. unfold handleSave. cbv zeta.
  destruct (truthy (VStr (trim (Panel.collectionName p)))) eqn:Hempty; cbn [negb];
    [|by eexists _, _].
  destruct (COLLECTION_REGEX_test (trim (Panel.collectionName p))) eqn:Hname;
    cbn [negb]; [|by eexists _, _].
  destruct (negb (Number_isInteger (StringToNumber (Panel.topK p)))
            || number_le (StringToNumber (Panel.topK p)) (num 0)) eqn:Htop;
    [by eexists _, _|].
  destruct Hrejected. split.
  - by apply COLLECTION_REGEX_test_valid.
  - by apply positive_integer_checks.
Qed.

(** X25: what [handleSave] accepts.  A form whose trimmed collection name
    matches the pattern of collection names and whose Top K reads as a
    whole number above zero is saved: the notification is a success, and
    every request built afterwards carries the trimmed name, that number
    and the three flags of the form.  Any other form changes neither the
    panel nor the configuration nor the storage, and is answered by an
    error notification that stays open. *)
Theorem handleSave_validates p a :
  (save_accepted p →
   n_type (handleSave p a).2 = success ∧
   ∀ question,
     createRequestBody question (config (handleSave p a).1.2)
     = VObj [("question", VStr question);
             ("top_k", VNum (StringToNumber (Panel.topK p)));
             ("collection", VStr (trim (Panel.collectionName p)));
             ("force_rebuild", VBool (Panel.forceRebuild p));
             ("use_reranking", VBool (Panel.useReranking p));
             ("use_query_rewriting", VBool (Panel.useQueryRewriting p))]) ∧
  (¬ save_accepted p →
   (handleSave p a).1 = (p, a) ∧
   n_type (handleSave p a).2 = failure ∧
   n_autoClose (handleSave p a).2 = false).
Proof.
  split.
  - intros Hok. rewrite (handleSave_accepted p a Hok). done.
  - intros Hno. destruct (handleSave_rejected p a Hno) as (title & text & ->). done.
Qed.
End SaveFacts.

Lemma seed_text_Some stored builtin : seed_text (Some stored) builtin = text_or stored builtin.
Proof. unfold seed_text, text_or. simpl. by destruct (string_eqb stored ""). Qed.

Lemma seed_flag_Boolean value current :
  seed_flag (Some (Boolean_toString value)) current = value.
Proof. by destruct value. Qed.

Lemma seed_theme_theme_name theme current :
  seed_theme (Some (theme_name theme)) current = theme_name theme.
Proof. by destruct theme. Qed.

Lemma number_differs_same n : Number_isFinite n = true → number_differs n n = false.
Proof.
  destruct n as [| |q]; try done. intros _. simpl.
  apply negb_false_iff, Qeq_bool_iff. reflexivity.
Qed.

Lemma positive_integer_finite n :
  positive_integer n → Number_isFinite n && number_gt n (num 0) = true.
Proof.
  destruct n as [| |q]; try done. intros [Hpos _]. simpl.
  apply negb_true_iff. destruct (Qle_bool q (inject_Z 0)) eqn:E; [|done].
  apply Qle_bool_iff in E. by apply Qle_not_lt in E.
Qed.

Section ReloadFacts.
Context `{Runtime}.

Lemma seed_top_k_saved n current :
  positive_integer n → StringToNumber (NumberToString n) = n →
  NumberToString n ≠ "" →
  seed_top_k (Some (NumberToString n)) current = n.
Proof.
  intros Hn Hround Htext. unfold seed_top_k. simpl truthy.
  apply string_eqb_false in Htext. rewrite Htext. cbn [negb].
  by rewrite Hround, (positive_integer_finite n Hn).
Qed.

(** X26: a saved configuration survives a reload.  After an accepted save,
    on a runtime that reads the saved Top K back from its text, loading
    the module again from the storage ends normally and restores the
    collection, the Top K, the three flags and the theme that were saved,
    and the page shows that theme.  Each of the four texts comes back as
    saved, except that a text saved empty comes back as the built-in
    one. *)
Theorem saved_configuration_reloads p a VITE_BACKEND_URL d :
  save_accepted p →
  StringToNumber (NumberToString (StringToNumber (Panel.topK p)))
  = StringToNumber (Panel.topK p) →
  NumberToString (StringToNumber (Panel.topK p)) ≠ "" →
  let saved := config (handleSave p a).1.2 in
  let builtin := APP_CONFIG VITE_BACKEND_URL in
  let loaded := load_module VITE_BACKEND_URL (localStorage (handleSave p a).1.2) d in
  loaded.2 = None ∧
  page loaded.1 = theme_effect (Panel.selectedTheme p) d ∧
  Config.DEFAULT_COLLECTION (config loaded.1) = Config.DEFAULT_COLLECTION saved ∧
  Config.DEFAULT_TOP_K (config loaded.1) = Config.DEFAULT_TOP_K saved ∧
  Config.USE_RERANKING (config loaded.1) = Config.USE_RERANKING saved ∧
  Config.USE_QUERY_REWRITING (config loaded.1) = Config.USE_QUERY_REWRITING saved ∧
  Config.FORCE_REBUILD (config loaded.1) = Config.FORCE_REBUILD saved ∧
  Config.ACTIVE_THEME (config loaded.1) = Config.ACTIVE_THEME saved ∧
  Config.PROJECT_NAME (config loaded.1)
  = text_or (Config.PROJECT_NAME saved) (Config.PROJECT_NAME builtin) ∧
  Config.DESCRIPTION (config loaded.1)
  = text_or (Config.DESCRIPTION saved) (Config.DESCRIPTION builtin) ∧
  Config.INITIAL_BOT_MESSAGE (config loaded.1)
  = text_or (Config.INITIAL_BOT_MESSAGE saved) (Config.INITIAL_BOT_MESSAGE builtin) ∧
  Config.INPUT_PLACEHOLDER (config loaded.1)
  = text_or (Config.INPUT_PLACEHOLDER saved) (Config.INPUT_PLACEHOLDER builtin).
Proof.
  intros Hok Hround Htext. pose proof Hok as [Hname Htop].
  rewrite (handleSave_accepted p a Hok). cbv zeta. cbn [fst snd config localStorage].
  unfold load_module, seed_config.
  set (ls := insert CONFIG_STORAGE_KEYS.ACTIVE_THEME _ _).
  assert (ls !! CONFIG_STORAGE_KEYS.ACTIVE_THEME
          = Some (theme_name (Panel.selectedTheme p))) as ->.
  { subst ls. by rewrite lookup_insert_eq. }
  assert (ls !! CONFIG_STORAGE_KEYS.PROJECT_NAME = Some (Panel.projectName p)) as ->.
  { subst ls. rewrite !lookup_insert_ne by done. by rewrite lookup_insert_eq. }
  assert (ls !! CONFIG_STORAGE_KEYS.INPUT_PLACEHOLDER
          = Some (Panel.inputPlaceholder p)) as ->.
  { subst ls. rewrite !lookup_insert_ne by done. by rewrite lookup_insert_eq. }
  assert (ls !! CONFIG_STORAGE_KEYS.DESCRIPTION = Some (Panel.description p)) as ->.
  { subst ls. rewrite !lookup_insert_ne by done. by rewrite lookup_insert_eq. }
  assert (ls !! CONFIG_STORAGE_KEYS.INITIAL_BOT_MESSAGE
          = Some (Panel.initialMessage p)) as ->.
  { subst ls. rewrite !lookup_insert_ne by done. by rewrite lookup_insert_eq. }
  assert (ls !! CONFIG_STORAGE_KEYS.FORCE_REBUILD
          = Some (Boolean_toString (Panel.forceRebuild p))) as ->.
  { subst ls. rewrite !lookup_insert_ne by done. by rewrite lookup_insert_eq. }
  assert (ls !! CONFIG_STORAGE_KEYS.USE_QUERY_REWRITING
          = Some (Boolean_toString (Panel.useQueryRewriting p))) as ->.
  { subst ls. rewrite !lookup_insert_ne by done. by rewrite lookup_insert_eq. }
  assert (ls !! CONFIG_STORAGE_KEYS.USE_RERANKING
          = Some (Boolean_toString (Panel.useReranking p))) as ->.
  { subst ls. rewrite !lookup_insert_ne by done. by rewrite lookup_insert_eq. }
  assert (ls !! CONFIG_STORAGE_KEYS.DEFAULT_TOP_K
          = Some (NumberToString (StringToNumber (Panel.topK p)))) as ->.
  { subst ls. rewrite !lookup_insert_ne by done. by rewrite lookup_insert_eq. }
  assert (ls !! CONFIG_STORAGE_KEYS.DEFAULT_COLLECTION
          = Some (trim (Panel.collectionName p))) as ->.
  { subst ls. rewrite !lookup_insert_ne by done. by rewrite lookup_insert_eq. }
  cbn [Config.ACTIVE_THEME].
  rewrite seed_theme_theme_name, applyTheme_theme_name.
  cbn [fst snd config page Config.DEFAULT_COLLECTION Config.DEFAULT_TOP_K
       Config.USE_RERANKING Config.USE_QUERY_REWRITING Config.FORCE_REBUILD
       Config.ACTIVE_THEME Config.PROJECT_NAME Config.DESCRIPTION
       Config.INITIAL_BOT_MESSAGE Config.INPUT_PLACEHOLDER].
  rewrite !seed_flag_Boolean, !seed_text_Some, (seed_top_k_saved _ _ Htop Hround Htext).
  split; [done|]. split.
  { unfold theme_effect. by rewrite applyTheme_theme_name. }
  split.
  { unfold text_or. destruct Hname as [Hne _]. apply string_eqb_false in Hne.
    by rewrite Hne. }
  repeat split.
Qed.

(** X27: the panel after an accepted save.  On a runtime that reads the
    saved Top K back from its text, the saved panel reports no pending
    change; the saved name is among the offered collections, which hold no
    name twice, and the selection effect leaves it selected. *)
Theorem saved_panel_settled p a :
  save_accepted p →
  StringToNumber (NumberToString (StringToNumber (Panel.topK p)))
  = StringToNumber (Panel.topK p) →
  let p' := (handleSave p a).1.1 in
  hasChanges p' = false ∧
  Panel.collectionName p' = trim (Panel.collectionName p) ∧
  Panel.collectionName p' ∈ Panel.collections p' ∧
  NoDup (Panel.collections p') ∧
  select_collection (Panel.collections p') (Panel.collectionName p')
    (Config.DEFAULT_COLLECTION (config (handleSave p a).1.2))
  = Panel.collectionName p'.
Proof.
  intros Hok Hround. pose proof Hok as [Hname Htop].
  rewrite (handleSave_accepted p a Hok). cbv zeta.
  cbn [fst snd config Config.DEFAULT_COLLECTION].
  unfold saved_panel.
  cbn [Panel.collectionName Panel.collections].
  assert (trim (Panel.collectionName p)
          ∈ Array_from_Set (trim (Panel.collectionName p) :: Panel.collections p))
    as Hin by (apply elem_of_Array_from_Set; by left).
  split; [|split; [done|split; [done|split]]].
  - unfold hasChanges.
    cbn [Panel.collectionName Panel.currentDefault Panel.topK Panel.currentTopK
         Panel.useReranking Panel.currentUseReranking Panel.useQueryRewriting
         Panel.currentUseQueryRewriting Panel.forceRebuild Panel.currentForceRebuild
         Panel.initialMessage Panel.currentInitialMessage Panel.description
         Panel.currentDescription Panel.inputPlaceholder
         Panel.currentInputPlaceholder Panel.projectName Panel.currentProjectName
         Panel.selectedTheme Panel.currentTheme].
    rewrite (trim_valid _ Hname), Hround.
    rewrite number_differs_same
      by (apply positive_integer_finite in Htop; by apply andb_true_iff in Htop as [? _]).
    rewrite !eqb_reflx.
    rewrite !(proj2 (string_eqb_true _ _) eq_refl).
    rewrite bool_decide_eq_true_2 by done. reflexivity.
  - apply Array_from_Set_spec.
  - destruct (select_collection_spec
                (Array_from_Set (trim (Panel.collectionName p) :: Panel.collections p))
                (trim (Panel.collectionName p)) (trim (Panel.collectionName p)))
      as (_ & _ & Hkeep & _).
    by apply Hkeep.
Qed.
End ReloadFacts.

Lemma saved_configuration_reloads_witness :
  (@load_module decimal_runtime None
     (localStorage (@handleSave decimal_runtime panel_docs app_start).1.2)
     (mkDocument ∅ None None)).2 = None.
Proof.
  apply (@saved_configuration_reloads decimal_runtime panel_docs app_start None
           (mkDocument ∅ None None)).
  - split.
    + apply COLLECTION_REGEX_test_valid. reflexivity.
    + vm_compute. split; reflexivity.
  - reflexivity.
  - discriminate.
Defined.

Lemma saved_panel_settled_witness :
  @hasChanges decimal_runtime (@handleSave decimal_runtime panel_docs app_start).1.1
  = false.
Proof.
  apply (@saved_panel_settled decimal_runtime panel_docs app_start).
  - split.
    + apply COLLECTION_REGEX_test_valid. reflexivity.
    + vm_compute. split; reflexivity.
  - reflexivity.
Defined.
